(** * Pairs-trading backtester: a shallow embedding and its properties

    The development follows the Python sources
    [src/backtester.py], [src/signals.py], [src/cointegration.py] and
    [src/analyzer.py].

    Numbers.  Python and numpy floats are idealised as exact rationals
    ([Q], compared with [==]); rounding is outside the model, and so are
    infinities and NaN but for the quotient of a numpy scalar by zero
    ([np_div]).  Calendar dates ([timestamp.dt.date]) are day numbers in
    [Z].

    Exceptions.  A call that can raise returns a [result]; [Err] carries the
    exception class. *)

From Stdlib Require Import QArith Qabs Qminmax ZArith Lia List Bool.
From stdpp Require Import base option list gmap strings sorting.

Local Open Scope Q_scope.

(* ===================================================================== *)
(** ** Exceptions *)

Inductive exn : Type :=
  | KeyError
  | ZeroDivisionError
  | LinAlgError
  | TypeError
  | IndexError.

Inductive result (A : Type) : Type :=
  | Ok (a : A)
  | Err (e : exn).
Arguments Ok {A} a.
Arguments Err {A} e.

Definition rbind {A B : Type} (m : result A) (k : A -> result B) : result B :=
  match m with
  | Ok a => k a
  | Err e => Err e
  end.

Notation "'let*' x ':=' m 'in' k" := (rbind m (fun x => k))
  (at level 10, x name, m at level 100, k at level 200).

(** Python's [a / b] on floats. *)
Definition py_div (a b : Q) : result Q :=
  if Qeq_bool b 0 then Err ZeroDivisionError else Ok (a / b).

(** Division of numpy scalars: a zero divisor gives an infinity or a NaN
    instead of raising; [None] stands for such a value. *)
Definition np_div (a b : Q) : option Q :=
  if Qeq_bool b 0 then None else Some (a / b).

(** Boolean comparisons on [Q], as the source's [<], [>], [==]. *)
Definition Qltb (a b : Q) : bool := negb (Qle_bool b a).

(* ===================================================================== *)
(** ** Trades ([class Trade]) *)

Abbreviation date := Z (only parsing).
Definition asset := string.
Definition pair_key : Type := asset * asset.

Inductive side : Type := LONG | SHORT.

(** The fields written by [Trade.close]; [None] before the trade is closed. *)
Record Trade : Type := mkTrade {
  trade_id : nat;
  pair : pair_key;
  trade_side : side;
  entry_time : date;
  entry_price : Q;
  entry_quantity : Q;
  hedge_ratio : Q;
  exit_time : option date;
  exit_price : option Q;
  exit_quantity : option Q;
  gross_pnl : option Q;
  net_pnl : option Q;
  return_pct : option Q
}.

(** [Trade.__init__] *)
Definition Trade_init (tid : nat) (pk : pair_key) (s : side) (t : date)
    (price qty hr : Q) : Trade :=
  mkTrade tid pk s t price qty hr None None None None None None.

(** The local [spread_change_pct] of [Trade.close]. *)
Definition spread_change_pct (entry exit_p : Q) : Q :=
  if Qeq_bool entry 0 then 0 else (exit_p - entry) / Qabs entry.

Definition close_gross (s : side) (qty pct : Q) : Q :=
  match s with
  | LONG => qty * pct
  | SHORT => - qty * pct
  end.

(** [Trade.close(exit_time, exit_price, exit_quantity, fees)] *)
Definition Trade_close (tr : Trade) (t : date) (exit_p exit_q fees : Q) : Trade :=
  let pct := spread_change_pct (entry_price tr) exit_p in
  let gross := close_gross (trade_side tr) (entry_quantity tr) pct in
  let net := gross - fees in
  let ret := if Qeq_bool (entry_quantity tr) 0 then 0
             else (net / entry_quantity tr) * 100 in
  mkTrade (trade_id tr) (pair tr) (trade_side tr) (entry_time tr)
          (entry_price tr) (entry_quantity tr) (hedge_ratio tr)
          (Some t) (Some exit_p) (Some exit_q) (Some gross) (Some net) (Some ret).

(** The fee charged by [Backtester._close_trade]. *)
Definition close_fees (tr : Trade) (commission_pct : Q) : Q :=
  entry_price tr * entry_quantity tr * commission_pct.

(** The net P&L of a closed trade, [0] while it is still open. *)
Definition pnl_of (tr : Trade) : Q := default 0 (net_pnl tr).

(* ===================================================================== *)
(** ** Signals ([src/signals.py]) *)

Inductive Signal : Type := BUY | SELL | CLOSE | HOLD.

Record SignalGenerator : Type := mkSignalGenerator {
  entry_threshold : Q;
  exit_threshold : Q
}.

Record signal_result : Type := mkSignalResult {
  signal : Signal;
  sr_zscore : Q;
  confidence : Q
}.

(** [SignalGenerator.generate_signal(zscore, position_open)].
    [position_open] is the truth value of the source's argument ([None] is
    false, a [Trade] object or a side name is true).  The result's
    confidence is [min(confidence, 1.0)].  This is the function on Python
    floats, where dividing by a zero threshold raises; for numpy scalars
    see [generate_signal_np]. *)
Definition generate_signal (sg : SignalGenerator) (zscore : Q)
    (position_open : bool) : result signal_result :=
  if position_open && Qltb (Qabs zscore) (exit_threshold sg) then
    let* c := py_div (Qabs zscore) (exit_threshold sg) in
    Ok (mkSignalResult CLOSE zscore (Qmin (1 - c) 1))
  else if negb position_open then
    if Qltb zscore (- entry_threshold sg) then
      let* c := py_div (Qabs zscore - entry_threshold sg) (entry_threshold sg) in
      Ok (mkSignalResult BUY zscore (Qmin c 1))
    else if Qltb (entry_threshold sg) zscore then
      let* c := py_div (Qabs zscore - entry_threshold sg) (entry_threshold sg) in
      Ok (mkSignalResult SELL zscore (Qmin c 1))
    else Ok (mkSignalResult HOLD zscore (Qmin 0 1))
  else Ok (mkSignalResult HOLD zscore (Qmin 0 1)).

(** [min(confidence, 1.0)] on a numpy scalar: an infinite confidence is
    capped at 1. *)
Definition np_cap (c : option Q) : Q :=
  match c with
  | Some q => Qmin q 1
  | None => 1
  end.

(** [SignalGenerator.generate_signal] when [zscore] is a numpy scalar, as
    it is on the way from [Backtester._process_pair]: nothing is raised,
    and dividing the positive [abs(zscore) - entry_threshold] by a zero
    entry threshold gives an infinite confidence.  In the CLOSE branch
    [abs(zscore) < exit_threshold] makes the divisor positive. *)
Definition generate_signal_np (sg : SignalGenerator) (zscore : Q)
    (position_open : bool) : signal_result :=
  if position_open && Qltb (Qabs zscore) (exit_threshold sg) then
    mkSignalResult CLOSE zscore (Qmin (1 - Qabs zscore / exit_threshold sg) 1)
  else if negb position_open then
    if Qltb zscore (- entry_threshold sg) then
      mkSignalResult BUY zscore
        (np_cap (np_div (Qabs zscore - entry_threshold sg) (entry_threshold sg)))
    else if Qltb (entry_threshold sg) zscore then
      mkSignalResult SELL zscore
        (np_cap (np_div (Qabs zscore - entry_threshold sg) (entry_threshold sg)))
    else mkSignalResult HOLD zscore (Qmin 0 1)
  else mkSignalResult HOLD zscore (Qmin 0 1).

(* ===================================================================== *)
(** ** Cointegration ([src/cointegration.py]) *)

(** What [statsmodels.tsa.stattools.adfuller] returns. *)
Record adf_result : Type := mkAdf {
  adf_statistic : Q;
  pvalue : Q;
  usedlag : nat;
  nobs : nat;
  critical_values : list (string * Q);
  ic_best : Q
}.

(** The numerical routines the tester calls and does not define:
    the slope [beta[1]] of [np.linalg.lstsq] on [[1, price2]],
    [adfuller] ([None] when it raises) and [np.std]. *)
Class NumLib : Type := {
  lstsq_slope : list Q -> list Q -> Q;
  adfuller : list Q -> option adf_result;
  np_std : list Q -> Q
}.

Definition Qsum (l : list Q) : Q := fold_right Qplus 0 l.

(** [np.mean] (of a non-empty array). *)
Definition np_mean (l : list Q) : Q := Qsum l / inject_Z (Z.of_nat (length l)).

(** The dict returned by [test_cointegration]; a key the source leaves out
    or sets to [None] is [None]. *)
Record coint_result : Type := mkCoint {
  cointegrated : bool;
  adf_pvalue : option Q;
  cr_adf_statistic : option Q;
  cr_hedge_ratio : Q;
  spread_mean : option Q;
  spread_std : option Q;
  lookback_periods : option nat;
  cr_critical_values : option (list (string * Q));
  error : option string
}.

(** Records written to the module logger. *)
Inductive log_record : Type :=
  | Warning (msg : string)
  | Error (msg : string).

Section Cointegration.
Context `{NumLib}.

(** [calculate_hedge_ratio]: [lstsq] refuses a right-hand side whose length
    differs from the number of rows of [X]. *)
Definition calculate_hedge_ratio (price1 price2 : list Q) : result Q :=
  if Nat.eqb (length price1) (length price2)
  then Ok (lstsq_slope price1 price2)
  else Err LinAlgError.

(** [calculate_spread] on scalars. *)
Definition calculate_spread (price1 price2 hr : Q) : Q :=
  price1 - (hr * price2).

(** [calculate_spread] on arrays of one length. *)
Definition calculate_spread_arr (price1 price2 : list Q) (hr : Q) : list Q :=
  zip_with (fun a b => calculate_spread a b hr) price1 price2.

(** [adf_test]: the [try]/[except] turns any exception into [None]. *)
Definition adf_test (series : list Q) : option adf_result :=
  match adfuller series with
  | Some r => Some r
  | None => None
  end.

(** [a[-n:]]: the last [n] items, and the whole of [a] when [n] is 0 or
    exceeds its length. *)
Definition last_n {A : Type} (n : nat) (a : list A) : list A :=
  if Nat.eqb n 0 then a else drop (length a - n) a.

(** "Use only recent data for lookback": both series are cut when the
    first one is longer than [lookback], and kept whole otherwise. *)
Definition test_window (lookback : nat) (price1 price : list Q) : list Q :=
  if Nat.ltb lookback (length price1) then last_n lookback price else price.

(** [test_cointegration(price1, price2, lookback)] *)
Definition test_cointegration (min_pvalue : Q) (price1 price2 : list Q)
    (lookback : nat) : result coint_result :=
  let price1_test := test_window lookback price1 price1 in
  let price2_test := test_window lookback price1 price2 in
  let* hr := calculate_hedge_ratio price1_test price2_test in
  let spread := calculate_spread_arr price1_test price2_test hr in
  match adf_test spread with
  | None =>
      Ok (mkCoint false None None hr None None None None
                  (Some "ADF test failed"%string))
  | Some adf =>
      Ok (mkCoint (Qltb (pvalue adf) min_pvalue)
                  (Some (pvalue adf)) (Some (adf_statistic adf)) hr
                  (Some (np_mean spread)) (Some (np_std spread))
                  (Some (length price1_test))
                  (Some (critical_values adf)) None)
  end.

(** [calculate_zscore]: the value returned and the records it logs. *)
Definition calculate_zscore (current_spread mean std : Q) : Q * list log_record :=
  if Qeq_bool std 0
  then (0, [Warning "Spread std is 0, cannot calculate Z-score"%string])
  else ((current_spread - mean) / std, []).

End Cointegration.

(* ===================================================================== *)
(** ** The backtester ([class Backtester]) *)

(** One row of an asset's DataFrame: the calendar date of its timestamp
    and its close price. *)
Record row : Type := mkRow {
  timestamp : date;
  close : Q
}.

(** The configuration keys the backtester reads. *)
Record Config : Type := mkConfig {
  starting_capital_cfg : Q;        (* backtest.starting_capital *)
  pairs : list asset;              (* pairs *)
  min_pvalue : Q;                  (* cointegration.min_pvalue *)
  signals_cfg : SignalGenerator;   (* signals.entry_threshold, exit_threshold *)
  risk_per_trade : Q;              (* risk.risk_per_trade *)
  max_position_pct : Q;            (* risk.max_position_pct *)
  commission_pct : Q               (* advanced.commission_pct *)
}.

Record equity_sample : Type := mkSample {
  sample_date : date;
  sample_capital : Q
}.

Record Backtester : Type := mkBacktester {
  config : Config;
  price_data : gmap asset (list row);
  starting_capital : Q;
  current_capital : Q;
  equity_curve : list equity_sample;
  trades : list Trade;
  open_positions : gmap pair_key Trade;
  next_trade_id : nat;             (* self.trade_id *)
  dates : list date
}.

(** [d[k]] on a dict. *)
Definition getitem {K : Type} `{Countable K} {V : Type} (m : gmap K V) (k : K)
    : result V :=
  match m !! k with
  | Some v => Ok v
  | None => Err KeyError
  end.

(** [set(df['timestamp'].dt.date)], as a duplicate-free list. *)
Definition date_set (df : list row) : list date :=
  remove_dups (map timestamp df).

(** [set.intersection] applied to the sets of [all_dates]: refused without
    an argument. *)
Definition set_intersection (all_dates : list (list date)) : result (list date) :=
  match all_dates with
  | [] => Err TypeError
  | s :: rest => Ok (fold_left list_intersection rest s)
  end.

Definition sorted (l : list date) : list date := merge_sort Z.le l.

(** [_get_common_dates] *)
Definition _get_common_dates (pd : gmap asset (list row)) : result (list date) :=
  let all_dates := map (fun kv => date_set (snd kv)) (map_to_list pd) in
  let* common := set_intersection all_dates in
  Ok (sorted common).

(** [Backtester.__init__]; the log line reads [self.dates[0]]. *)
Definition Backtester_init (cfg : Config) (pd : gmap asset (list row))
    : result Backtester :=
  let* ds := _get_common_dates pd in
  match ds with
  | [] => Err IndexError
  | _ :: _ =>
      Ok (mkBacktester cfg pd (starting_capital_cfg cfg) (starting_capital_cfg cfg)
                       [] [] ∅ 0%nat ds)
  end.

(** [_get_price_at_date]: the close of the first row of that date. *)
Definition _get_price_at_date (b : Backtester) (a : asset) (d : date)
    : result (option Q) :=
  let* df := getitem (price_data b) a in
  match filter (fun r => timestamp r = d) df with
  | r :: _ => Ok (Some (close r))
  | [] => Ok None
  end.

(** [_calculate_position_size] *)
Definition _calculate_position_size (b : Backtester) (capital : Q) : Q :=
  let position_size := capital * risk_per_trade (config b) in
  let max_position := capital * (max_position_pct (config b) / 100) in
  Qmin position_size max_position.

(** [_open_trade] *)
Definition _open_trade (b : Backtester) (p1 p2 : asset) (s : side) (d : date)
    (spread hr : Q) : Backtester :=
  let pk := (p1, p2) in
  let position_size := _calculate_position_size b (current_capital b) in
  let trade := Trade_init (next_trade_id b) pk s d spread position_size hr in
  mkBacktester (config b) (price_data b) (starting_capital b) (current_capital b)
               (equity_curve b) (trades b)
               (<[pk := trade]> (open_positions b))
               (S (next_trade_id b)) (dates b).

(** [_close_trade] *)
Definition _close_trade (b : Backtester) (p1 p2 : asset) (d : date)
    (exit_spread : Q) : result Backtester :=
  let pk := (p1, p2) in
  let* trade := getitem (open_positions b) pk in
  let fees := close_fees trade (commission_pct (config b)) in
  let trade' := Trade_close trade d exit_spread (entry_quantity trade) fees in
  Ok (mkBacktester (config b) (price_data b) (starting_capital b)
                   (current_capital b + pnl_of trade')
                   (equity_curve b) (trades b ++ [trade'])
                   (delete pk (open_positions b))
                   (next_trade_id b) (dates b)).

(** The last lines of [_process_pair]: "Execute signal". *)
Definition execute_signal (b : Backtester) (p1 p2 : asset) (d : date)
    (sig : Signal) (current_spread hr : Q) : result Backtester :=
  let position := open_positions b !! (p1, p2) in
  match sig, position with
  | BUY, None => Ok (_open_trade b p1 p2 LONG d current_spread hr)
  | SELL, None => Ok (_open_trade b p1 p2 SHORT d current_spread hr)
  | CLOSE, Some _ => _close_trade b p1 p2 d current_spread
  | _, _ => Ok b
  end.

(** [x] when the source computes with a value that may be [None]. *)
Definition not_none {A : Type} (o : option A) : result A :=
  match o with
  | Some a => Ok a
  | None => Err TypeError
  end.

(** [df[df['timestamp'].dt.date <= date]['close'].values] *)
Definition closes_upto (df : list row) (d : date) : list Q :=
  map close (filter (fun r => (timestamp r <= d)%Z) df).

Section Engine.
Context `{NumLib}.

(** [_process_pair] *)
Definition _process_pair (b : Backtester) (p1 p2 : asset) (d : date)
    (current_prices : gmap asset Q) : result Backtester :=
  let* df1 := getitem (price_data b) p1 in
  let* df2 := getitem (price_data b) p2 in
  let prices1 := closes_upto df1 d in
  let prices2 := closes_upto df2 d in
  if Nat.ltb (length prices1) 252 || Nat.ltb (length prices2) 252 then Ok b
  else
    let* cr := test_cointegration (min_pvalue (config b)) prices1 prices2 252 in
    if negb (cointegrated cr) then Ok b
    else
      let* c1 := getitem current_prices p1 in
      let* c2 := getitem current_prices p2 in
      let current_spread := calculate_spread c1 c2 (cr_hedge_ratio cr) in
      let* m := not_none (spread_mean cr) in
      let* s := not_none (spread_std cr) in
      let zscore := fst (calculate_zscore current_spread m s) in
      let position := open_positions b !! (p1, p2) in
      let sr := generate_signal_np (signals_cfg (config b)) zscore
                                   (bool_decide (is_Some position)) in
      execute_signal b p1 p2 d (signal sr) current_spread (cr_hedge_ratio cr).

(** The first inner loop of [run]: the prices of the date, a price that
    is [None] or falsy being left out. *)
Fixpoint collect_prices (b : Backtester) (d : date) (ps : list asset)
    (acc : gmap asset Q) : result (gmap asset Q) :=
  match ps with
  | [] => Ok acc
  | a :: ps' =>
      let* price := _get_price_at_date b a d in
      match price with
      | Some p =>
          if Qeq_bool p 0 then collect_prices b d ps' acc
          else collect_prices b d ps' (<[a := p]> acc)
      | None => collect_prices b d ps' acc
      end
  end.

(** [for pair2 in pairs[i+1:]: self._process_pair(pair1, pair2, ...)] *)
Fixpoint process_inner (b : Backtester) (p1 : asset) (rest : list asset)
    (d : date) (cur : gmap asset Q) : result Backtester :=
  match rest with
  | [] => Ok b
  | p2 :: rest' =>
      let* b' := _process_pair b p1 p2 d cur in
      process_inner b' p1 rest' d cur
  end.

(** [for i, pair1 in enumerate(pairs): ...] *)
Fixpoint process_pairs (b : Backtester) (ps : list asset) (d : date)
    (cur : gmap asset Q) : result Backtester :=
  match ps with
  | [] => Ok b
  | p1 :: ps' =>
      let* b' := process_inner b p1 ps' d cur in
      process_pairs b' ps' d cur
  end.

Definition append_equity (b : Backtester) (d : date) : Backtester :=
  mkBacktester (config b) (price_data b) (starting_capital b) (current_capital b)
               (equity_curve b ++ [mkSample d (current_capital b)])
               (trades b) (open_positions b) (next_trade_id b) (dates b).

(** One iteration of the date loop of [run]. *)
Definition run_date (b : Backtester) (d : date) : result Backtester :=
  let ps := pairs (config b) in
  let* current_prices := collect_prices b d ps ∅ in
  if Nat.ltb (size current_prices) (length ps) then Ok b
  else
    let* b' := process_pairs b ps d current_prices in
    Ok (append_equity b' d).

Fixpoint run_dates (b : Backtester) (ds : list date) : result Backtester :=
  match ds with
  | [] => Ok b
  | d :: ds' =>
      let* b' := run_date b d in
      run_dates b' ds'
  end.

(** [run]: the loop over the dates; what it returns is built from the
    state it leaves by [get_results]. *)
Definition run (b : Backtester) : result Backtester :=
  run_dates b (dates b).

(** The states the engine goes through from [b0]: each call of
    [_process_pair] that returns and each equity sample is a step. *)
Inductive reachable (b0 : Backtester) : Backtester -> Prop :=
  | reach_start : reachable b0 b0
  | reach_pair (b b' : Backtester) (p1 p2 : asset) (d : date)
      (cur : gmap asset Q) :
      reachable b0 b ->
      _process_pair b p1 p2 d cur = Ok b' ->
      reachable b0 b'
  | reach_equity (b : Backtester) (d : date) :
      reachable b0 b ->
      reachable b0 (append_equity b d).

End Engine.

(* ===================================================================== *)
(** ** The analyzer ([class PerformanceAnalyzer]) *)

(** The dict built by [Trade.to_dict]. *)
Record trade_dict : Type := mkTradeDict {
  td_trade_id : nat;
  td_pair : pair_key;
  td_side : side;
  td_entry_time : date;
  td_entry_price : Q;
  td_exit_time : option date;
  td_exit_price : option Q;
  td_gross_pnl : option Q;
  td_net_pnl : option Q;
  td_return_pct : option Q;
  td_days_held : option Z
}.

(** [Trade.to_dict] *)
Definition to_dict (tr : Trade) : trade_dict :=
  mkTradeDict (trade_id tr) (pair tr) (trade_side tr) (entry_time tr)
              (entry_price tr) (exit_time tr) (exit_price tr) (gross_pnl tr)
              (net_pnl tr) (return_pct tr)
              (match exit_time tr with
               | Some t => Some (t - entry_time tr)%Z
               | None => None
               end).

(** Python's [sum]: a left fold from [0]. *)
Definition py_sum (l : list Q) : Q := fold_left Qplus l 0.

(** [t['net_pnl']] of every trade, compared with a number: [None] is refused. *)
Fixpoint net_pnls (ts : list trade_dict) : result (list Q) :=
  match ts with
  | [] => Ok []
  | t :: ts' =>
      let* p := not_none (td_net_pnl t) in
      let* ps := net_pnls ts' in
      Ok (p :: ps)
  end.

(** [_calculate_profit_factor] *)
Definition _calculate_profit_factor (ts : list trade_dict) : result Q :=
  let* pnls := net_pnls ts in
  let gross_profit := py_sum (List.filter (fun p => Qltb 0 p) pnls) in
  let gross_loss := Qabs (py_sum (List.filter (fun p => Qltb p 0) pnls)) in
  if Qeq_bool gross_loss 0 then
    if Qltb 0 gross_profit then Ok (gross_profit / (1 # 100)) else Ok 0
  else Ok (gross_profit / gross_loss).

(** [get_results]: the trade log handed to the analyzer. *)
Definition trades_list (b : Backtester) : list trade_dict :=
  map to_dict (trades b).

(* ===================================================================== *)
(** ** Vocabulary of the properties, and worked inputs *)

(** The side convention on the net P&L of a closed trade, as the data model
    words it. *)
Definition net_sign_convention (tr : Trade) (exit_p : Q) : Prop :=
  match trade_side tr with
  | LONG => 0 < pnl_of tr <-> entry_price tr < exit_p
  | SHORT => 0 < pnl_of tr <-> exit_p < entry_price tr
  end.

(** A configuration with a commission of 0.1%, and a backtester under it
    holding one long position on [("A", "B")], entered at a spread of 100
    with 1000 committed. *)
Definition cfg_fee : Config :=
  mkConfig 100000 ["A"; "B"]%string (1 # 20) (mkSignalGenerator 2 (1 # 2))
           (1 # 50) 10 (1 # 1000).

Definition bt_in_position : Backtester :=
  mkBacktester cfg_fee ∅ 100000 100000 [] []
    {[ ("A", "B")%string := Trade_init 0 ("A", "B")%string LONG 1 100 1000 2 ]}
    1%nat [1; 2]%Z.

(** A configuration without commission, and a flat backtester under it. *)
Definition cfg_free : Config :=
  mkConfig 100000 ["A"; "B"]%string (1 # 20) (mkSignalGenerator 2 (1 # 2))
           (1 # 50) 10 0.

Definition bt_flat : Backtester :=
  mkBacktester cfg_free ∅ 100000 100000 [] [] ∅ 0%nat [1; 2]%Z.

(** The signal chosen, whatever becomes of the confidence. *)
Definition decide_signal (sg : SignalGenerator) (z : Q) (position_open : bool)
    : Signal :=
  if position_open then
    if Qltb (Qabs z) (exit_threshold sg) then CLOSE else HOLD
  else if Qltb z (- entry_threshold sg) then BUY
  else if Qltb (entry_threshold sg) z then SELL
  else HOLD.

(** A call of [generate_signal] returns a confidence in [0,1]. *)
Definition confidence_in_unit (sg : SignalGenerator) (z : Q) (position_open : bool)
    : Prop :=
  exists r, generate_signal sg z position_open = Ok r /\ 0 <= confidence r <= 1.

(** The caller of [calculate_zscore] receives the returned number and
    nothing else.  A zero deviation is observable by the caller when some
    test on that number, the same on equal numbers, holds exactly for the
    calls with a zero deviation. *)
Definition zero_std_observable : Prop :=
  exists flagged : Q -> bool,
    (forall a b : Q, a == b -> flagged a = flagged b) /\
    forall current_spread mean std : Q,
      flagged (fst (calculate_zscore current_spread mean std)) = true <->
      std == 0.

(** Gross profit: the sum of the positive net P&Ls. *)
Fixpoint gross_profit (pnls : list Q) : Q :=
  match pnls with
  | [] => 0
  | p :: rest => if Qltb 0 p then p + gross_profit rest else gross_profit rest
  end.

(** Gross loss: the sum of the magnitudes of the negative net P&Ls. *)
Fixpoint gross_loss (pnls : list Q) : Q :=
  match pnls with
  | [] => 0
  | p :: rest => if Qltb p 0 then - p + gross_loss rest else gross_loss rest
  end.

(** The net P&Ls of a log of closed trades. *)
Definition closed_pnls (ts : list trade_dict) (pnls : list Q) : Prop :=
  map td_net_pnl ts = map Some pnls.

(** Trade dicts with the given net P&Ls. *)
Definition dict_of_pnl (p : Q) : trade_dict :=
  mkTradeDict 0 ("A", "B")%string LONG 1 100 (Some 2%Z) (Some 101) (Some p)
              (Some p) (Some 0) (Some 1%Z).

(** What a step may do to the positions, the log and the capital. *)
Inductive step_kind (b b' : Backtester) (pk : pair_key) : Prop :=
  | step_none : b' = b -> step_kind b b' pk
  | step_open (tr : Trade) :
      open_positions b !! pk = None ->
      pair tr = pk -> exit_time tr = None -> net_pnl tr = None ->
      trade_id tr = next_trade_id b ->
      open_positions b' = <[pk := tr]> (open_positions b) ->
      next_trade_id b' = S (next_trade_id b) ->
      trades b' = trades b ->
      current_capital b' = current_capital b ->
      step_kind b b' pk
  | step_close (tr tr' : Trade) (n : Q) :
      open_positions b !! pk = Some tr ->
      net_pnl tr' = Some n ->
      trade_id tr' = trade_id tr ->
      open_positions b' = delete pk (open_positions b) ->
      next_trade_id b' = next_trade_id b ->
      trades b' = trades b ++ [tr'] ->
      current_capital b' = current_capital b + n ->
      step_kind b b' pk.

(** What no step touches. *)
Definition same_setup (b b' : Backtester) : Prop :=
  config b' = config b /\ price_data b' = price_data b /\
  starting_capital b' = starting_capital b /\
  equity_curve b' = equity_curve b /\ dates b' = dates b.

(** Capital is the starting capital plus the net P&L of the trade log. *)
Definition capital_inv (b : Backtester) : Prop :=
  current_capital b == starting_capital b + Qsum (map pnl_of (trades b)).

(** Every trade ever opened is either the open position of its own pair or
    in the trade log: no open position was overwritten. *)
Definition positions_inv (b : Backtester) : Prop :=
  next_trade_id b = (size (open_positions b) + length (trades b))%nat /\
  forall (pk : pair_key) (tr : Trade),
    open_positions b !! pk = Some tr ->
    pair tr = pk /\ exit_time tr = None /\ (trade_id tr < next_trade_id b)%nat.

(** A worked input: two assets over 254 days.  [A] closes at 10 every day;
    [B] closes at 10 except on day 253, where it closes at 13.5.  The
    numerical routines are fixed: a hedge ratio of 1, a stationarity test
    that always rejects the unit root (p-value 0.01) and a spread deviation
    of 1.  The spread [A - B] drops to -3.5 on day 253 (a long entry) and is
    back at 0 on day 254 (the exit). *)
Definition numlib_stub : NumLib :=
  {| lstsq_slope := fun _ _ => 1;
     adfuller := fun _ => Some (mkAdf (-4) (1 # 100) 0 252 [] 0);
     np_std := fun _ => 1 |}.

Definition rows_A : list row :=
  map (fun i => mkRow (Z.of_nat i) 10) (seq 1 254).

Definition rows_B : list row :=
  map (fun i => mkRow (Z.of_nat i) (if Nat.eqb i 253 then 27 # 2 else 10))
      (seq 1 254).

Definition pd_ex : gmap asset (list row) :=
  {[ "A"%string := rows_A; "B"%string := rows_B ]}.

(** What the run leaves behind: the number of equity samples, the trades
    (side, entry day, exit day, net P&L), the capital and the number of
    positions still open. *)
Definition run_summary (r : result Backtester)
    : option (nat * list (side * Z * option Z * option Q) * Q * nat) :=
  match r with
  | Ok b =>
      Some (length (equity_curve b),
            map (fun t => (trade_side t, entry_time t, exit_time t,
                           option_map Qred (net_pnl t))) (trades b),
            Qred (current_capital b),
            size (open_positions b))
  | Err _ => None
  end.

(** The value of a call that returned. *)
Definition ok_or {A : Type} (d : A) (r : result A) : A :=
  match r with
  | Ok a => a
  | Err _ => d
  end.

(** The backtester built on [pd_ex], before and after [run]. *)
Definition bt_ex0 : Backtester := ok_or bt_flat (Backtester_init cfg_fee pd_ex).

Definition bt_ex : Backtester := ok_or bt_flat (@run numlib_stub bt_ex0).

(** The backtester built on [pd_ex] after day 253, with the long position
    open. *)
Definition bt_ex_mid : Backtester :=
  ok_or bt_flat (@run_dates numlib_stub bt_ex0 (take 253 (dates bt_ex0))).

(** Numerical routines whose stationarity test always raises. *)
Definition numlib_failing : NumLib :=
  {| lstsq_slope := fun _ _ => 1;
     adfuller := fun _ => None;
     np_std := fun _ => 1 |}.

(** Price data in which [A] closes at 0 on day 2. *)
Definition pd_zero : gmap asset (list row) :=
  {[ "A"%string := [mkRow 1 10; mkRow 2 0; mkRow 3 10];
     "B"%string := [mkRow 1 5; mkRow 2 5; mkRow 3 5] ]}.

(** The backtester built on [pd_zero]. *)
Definition bt_zero : Backtester := ok_or bt_flat (Backtester_init cfg_free pd_zero).









(* ===================================================================== *)
(** ** Further operations of the modules *)

(** *** Signals *)

(** [SignalGenerator.should_enter] *)
Definition should_enter (sg : SignalGenerator) (zscore : Q) : bool :=
  Qltb (entry_threshold sg) (Qabs zscore).

(** [SignalGenerator.should_exit] *)
Definition should_exit (sg : SignalGenerator) (zscore : Q) : bool :=
  Qltb (Qabs zscore) (exit_threshold sg).

(** [SignalGenerator.get_signal_direction] *)
Definition get_signal_direction (sg : SignalGenerator) (zscore : Q) : option side :=
  if Qltb zscore (- entry_threshold sg) then Some LONG
  else if Qltb (entry_threshold sg) zscore then Some SHORT
  else None.

(** [positions[i] if positions else None]: an empty list is falsy, and an
    index past the end of a non-empty one is refused. *)
Definition position_at (positions : list (option side)) (i : nat)
    : result (option side) :=
  match positions with
  | [] => Ok None
  | _ :: _ =>
      match positions !! i with
      | Some p => Ok p
      | None => Err IndexError
      end
  end.

(** The loop of [generate_signals_batch], from index [i] on. *)
Fixpoint signals_from (sg : SignalGenerator) (i : nat) (zscores : list Q)
    (positions : list (option side)) : result (list signal_result) :=
  match zscores with
  | [] => Ok []
  | z :: zs =>
      let* position := position_at positions i in
      let* s := generate_signal sg z (bool_decide (is_Some position)) in
      let* rest := signals_from sg (S i) zs positions in
      Ok (s :: rest)
  end.

(** [SignalGenerator.generate_signals_batch(zscores, positions)]; a missing
    [positions] is the empty list, which the source treats alike. *)
Definition generate_signals_batch (sg : SignalGenerator) (zscores : list Q)
    (positions : list (option side)) : result (list signal_result) :=
  signals_from sg 0 zscores positions.

(** The truth value of an optional number. *)
Definition truthy (o : option Q) : bool :=
  match o with
  | Some q => negb (Qeq_bool q 0)
  | None => false
  end.

(** [SignalGenerator.update_thresholds(entry_threshold, exit_threshold)] *)
Definition update_thresholds (sg : SignalGenerator) (entry exit_ : option Q)
    : SignalGenerator :=
  let sg1 :=
    match entry with
    | Some e => if truthy entry then mkSignalGenerator e (exit_threshold sg) else sg
    | None => sg
    end in
  match exit_ with
  | Some x => if truthy exit_ then mkSignalGenerator (entry_threshold sg1) x else sg1
  | None => sg1
  end.

(** *** Cointegration *)

(** Python's [a[-n:]]: the last [n] items, and the whole of [a] when [n]
    is 0 or exceeds its length. *)
Definition py_suffix {A : Type} (n : nat) (a : list A) : list A :=
  if Nat.eqb n 0 then a else drop (length a - n) a.

Section MultiplePairs.
Context `{NumLib}.

(** The loop of [test_multiple_pairs]; formatting the p-value of the log
    line refuses [None]. *)
Fixpoint test_pairs_from (mp : Q) (pd : gmap asset (list row))
    (prs : list pair_key) (lookback : nat)
    (results : gmap pair_key coint_result)
    : result (gmap pair_key coint_result) :=
  match prs with
  | [] => Ok results
  | (pair1, pair2) :: rest =>
      match pd !! pair1, pd !! pair2 with
      | Some df1, Some df2 =>
          let price1 := map close df1 in
          let price2 := map close df2 in
          let min_len := Nat.min (length price1) (length price2) in
          let* r := test_cointegration mp (py_suffix min_len price1)
                                       (py_suffix min_len price2) lookback in
          let results' := <[(pair1, pair2) := r]> results in
          let* _ := not_none (adf_pvalue r) in
          test_pairs_from mp pd rest lookback results'
      | _, _ => test_pairs_from mp pd rest lookback results
      end
  end.

(** [CointegrationTester.test_multiple_pairs(price_data, pairs, lookback)] *)
Definition test_multiple_pairs (mp : Q) (pd : gmap asset (list row))
    (prs : list pair_key) (lookback : nat)
    : result (gmap pair_key coint_result) :=
  test_pairs_from mp pd prs lookback ∅.

End MultiplePairs.

(** *** Backtester results *)

(** Python's [max] and [min] of a list, from its first item on. *)
Definition py_max (x : Q) (l : list Q) : Q :=
  fold_left (fun acc y => if Qltb acc y then y else acc) l x.

Definition py_min (x : Q) (l : list Q) : Q :=
  fold_left (fun acc y => if Qltb y acc then y else acc) l x.

(** The dict built by [Backtester._calculate_metrics]. *)
Record bt_metrics : Type := mkBtMetrics {
  total_trades : nat;
  winning_trades : nat;
  losing_trades : nat;
  win_rate : Q;
  total_pnl : Q;
  avg_pnl : Q;
  largest_win : Q;
  largest_loss : Q;
  total_return : option Q;
  final_capital : Q
}.

Definition Q_of_nat (n : nat) : Q := inject_Z (Z.of_nat n).

(** [[t.net_pnl for t in self.trades if t.net_pnl is not None]] *)
Definition pnl_list (ts : list Trade) : list Q :=
  omap net_pnl ts.

(** [Backtester._calculate_metrics]; the empty dict is [None]. *)
Definition _calculate_metrics (b : Backtester) : option bt_metrics :=
  match trades b with
  | [] => None
  | _ :: _ =>
      match pnl_list (trades b) with
      | [] => None
      | p :: ps =>
          let pnls := p :: ps in
          let total := py_sum pnls in
          let num_trades := length pnls in
          let winning := length (List.filter (fun q => Qltb 0 q) pnls) in
          let losing := length (List.filter (fun q => Qltb q 0) pnls) in
          Some (mkBtMetrics num_trades winning losing
                  (Q_of_nat winning / Q_of_nat num_trades)
                  total
                  (total / Q_of_nat num_trades)
                  (py_max p ps) (py_min p ps)
                  (np_div (current_capital b - starting_capital b)
                          (starting_capital b))
                  (current_capital b))
      end
  end.

(** The dict returned by [Backtester.get_results]. *)
Record bt_results : Type := mkBtResults {
  res_trades : list trade_dict;
  res_equity_curve : list equity_sample;
  res_metrics : option bt_metrics
}.

(** [Backtester.get_results] *)
Definition get_results (b : Backtester) : bt_results :=
  match trades b with
  | [] => mkBtResults [] (equity_curve b) None
  | _ :: _ => mkBtResults (trades_list b) (equity_curve b) (_calculate_metrics b)
  end.

(** The exit date of a closed trade. *)
Definition exit_date (tr : Trade) : Z := default 0%Z (exit_time tr).

(** At date [d]: every open position was entered at [d] or before, and every
    logged trade was entered no later than it was closed, at [d] or
    before. *)
Definition dated (d : Z) (b : Backtester) : Prop :=
  (forall pk tr, open_positions b !! pk = Some tr -> (entry_time tr <= d)%Z) /\
  Forall (fun tr => exists x, exit_time tr = Some x /\
                             (entry_time tr <= x)%Z /\ (x <= d)%Z) (trades b) /\
  Sorted Z.le (map exit_date (trades b)).

(** The identifiers of the trades a backtester holds: those of its log,
    then those of its open positions. *)
Definition trade_ids (b : Backtester) : list nat :=
  map trade_id (trades b) ++
  map (fun kv => trade_id (snd kv)) (map_to_list (open_positions b)).

(** *** Analyzer: trade metrics *)

(** One step of the loop of [_calculate_consecutive_wins] (and of
    [_calculate_consecutive_losses]) on the pair
    [(max_consecutive, current_consecutive)]. *)
Definition consecutive_step (hit : Q -> bool) (st : nat * nat) (pnl : Q)
    : nat * nat :=
  if hit pnl then (Nat.max (fst st) (S (snd st)), S (snd st))
  else (fst st, 0%nat).

(** [_calculate_consecutive_wins] *)
Definition _calculate_consecutive_wins (pnls : list Q) : nat :=
  fst (fold_left (consecutive_step (fun p => Qltb 0 p)) pnls (0%nat, 0%nat)).

(** [_calculate_consecutive_losses] *)
Definition _calculate_consecutive_losses (pnls : list Q) : nat :=
  fst (fold_left (consecutive_step (fun p => Qltb p 0)) pnls (0%nat, 0%nat)).

(** The dict built by [_calculate_trade_metrics]; [NoTrades] is
    [{'total_trades': 0}]. *)
Record trade_metrics : Type := mkTradeMetrics {
  tm_total_trades : nat;
  tm_winning_trades : nat;
  tm_losing_trades : nat;
  tm_win_rate : Q;
  tm_loss_rate : Q;
  tm_total_pnl : Q;
  tm_avg_pnl_per_trade : Q;
  tm_largest_win : Q;
  tm_largest_loss : Q;
  tm_avg_win : Q;
  tm_avg_loss : Q;
  tm_consecutive_wins : nat;
  tm_consecutive_losses : nat
}.

Inductive trade_metrics_dict : Type :=
  | NoTrades
  | TradeMetrics (m : trade_metrics).

(** [[t['net_pnl'] for t in trades if t['net_pnl'] is not None]] *)
Definition dict_pnl_list (ts : list trade_dict) : list Q :=
  omap td_net_pnl ts.

(** [_calculate_trade_metrics] *)
Definition _calculate_trade_metrics (ts : list trade_dict) : trade_metrics_dict :=
  match dict_pnl_list ts with
  | [] => NoTrades
  | p :: ps =>
      let pnls := p :: ps in
      let winning := List.filter (fun q => Qltb 0 q) pnls in
      let losing := List.filter (fun q => Qltb q 0) pnls in
      TradeMetrics
        (mkTradeMetrics
           (length pnls) (length winning) (length losing)
           (Q_of_nat (length winning) / Q_of_nat (length pnls))
           (Q_of_nat (length losing) / Q_of_nat (length pnls))
           (py_sum pnls)
           (np_mean pnls)
           (match winning with [] => 0 | _ :: _ => py_max p ps end)
           (match losing with [] => 0 | _ :: _ => py_min p ps end)
           (match winning with [] => 0 | _ :: _ => np_mean winning end)
           (match losing with [] => 0 | _ :: _ => Qabs (np_mean losing) end)
           (_calculate_consecutive_wins pnls)
           (_calculate_consecutive_losses pnls))
  end.

(** The length of the block of hits a list starts with, and of the longest
    block of consecutive hits in it. *)
Fixpoint leading_hits (hit : Q -> bool) (l : list Q) : nat :=
  match l with
  | [] => 0
  | x :: l' => if hit x then S (leading_hits hit l') else 0
  end.

Fixpoint longest_hits (hit : Q -> bool) (l : list Q) : nat :=
  match l with
  | [] => 0
  | x :: l' => Nat.max (leading_hits hit l) (longest_hits hit l')
  end.

(** The [n] items of [l] from index [i] on are all hits. *)
Definition hits_block (hit : Q -> bool) (l : list Q) (i n : nat) : Prop :=
  forall j, (j < n)%nat -> exists p, l !! (i + j)%nat = Some p /\ hit p = true.

(** *** Analyzer: risk metrics *)

(** [np.sqrt], which the analyzer calls and does not define. *)
Class SqrtLib : Type := {
  np_sqrt : Q -> Q
}.

(** [np.maximum.accumulate] from a running maximum [m] on. *)
Fixpoint accumulate_max (m : Q) (l : list Q) : list Q :=
  match l with
  | [] => []
  | c :: l' => Qmax m c :: accumulate_max (Qmax m c) l'
  end.

(** [np.maximum.accumulate(capital)] *)
Definition running_max (capital : list Q) : list Q :=
  match capital with
  | [] => []
  | c :: cs => c :: accumulate_max c cs
  end.

(** All the values of an array when they are all finite. *)
Fixpoint all_finite (l : list (option Q)) : option (list Q) :=
  match l with
  | [] => Some []
  | Some x :: l' =>
      match all_finite l' with
      | Some xs => Some (x :: xs)
      | None => None
      end
  | None :: _ => None
  end.

(** [np.min] of a non-empty array: not finite as soon as an item is not. *)
Definition np_min (l : list (option Q)) : option Q :=
  match all_finite l with
  | Some (x :: xs) => Some (py_min x xs)
  | _ => None
  end.

(** [(capital - running_max) / running_max] *)
Definition drawdowns (capital : list Q) : list (option Q) :=
  zip_with (fun c m => np_div (c - m) m) capital (running_max capital).

(** [np.diff(capital) / capital[:-1]] *)
Fixpoint simple_returns (capital : list Q) : list (option Q) :=
  match capital with
  | c :: ((c' :: _) as rest) => np_div (c' - c) c :: simple_returns rest
  | _ => []
  end.

(** The dict built by [_calculate_risk_metrics]. *)
Record risk_metrics : Type := mkRiskMetrics {
  max_drawdown : option Q;
  max_drawdown_pct : option Q;
  daily_volatility : option Q;
  annual_volatility : option Q
}.

Section RiskMetrics.
Context `{NumLib} `{SqrtLib}.

(** [np.std] of an array: not finite when the array is empty or an item is
    not finite. *)
Definition np_std_opt (l : list (option Q)) : option Q :=
  match all_finite l with
  | Some (x :: xs) => Some (np_std (x :: xs))
  | _ => None
  end.

(** [_calculate_risk_metrics(equity_curve)]; the empty dict is [None]. *)
Definition _calculate_risk_metrics (equity : option (list equity_sample))
    : option risk_metrics :=
  match equity with
  | None => None
  | Some [] => None
  | Some (s :: ss) =>
      let capital := map sample_capital (s :: ss) in
      let max_dd := np_min (drawdowns capital) in
      let max_dd_pct := option_map (fun d => Qabs d * 100) max_dd in
      let daily := np_std_opt (simple_returns capital) in
      let annual := option_map (fun v => v * np_sqrt 252) daily in
      Some (mkRiskMetrics max_dd max_dd_pct daily annual)
  end.

End RiskMetrics.

(** Numerical routines for examples: a square root that returns its
    argument. *)
Definition sqrtlib_stub : SqrtLib := {| np_sqrt := fun x => x |}.

(* ===================================================================== *)
(** * Properties *)

(** ** Comparisons *)

Lemma Qltb_lt (a b : Q) : Qltb a b = true <-> a < b.
Proof.
  unfold Qltb. rewrite negb_true_iff. split; intro Hab.
  - apply Qnot_le_lt. intro Hle. apply Qle_bool_iff in Hle. congruence.
  - destruct (Qle_bool b a) eqn:E; [|reflexivity].
    apply Qle_bool_iff in E. exfalso. exact (Qlt_not_le _ _ Hab E).
Qed.

Lemma Qltb_ge (a b : Q) : Qltb a b = false <-> b <= a.
Proof.
  unfold Qltb. rewrite negb_false_iff. apply Qle_bool_iff.
Qed.

Lemma Qeq_bool_false (a b : Q) : Qeq_bool a b = false <-> ~ a == b.
Proof.
  split.
  - intros E Heq. apply Qeq_bool_iff in Heq. congruence.
  - intro Hne. destruct (Qeq_bool a b) eqn:E; [|reflexivity].
    apply Qeq_bool_iff in E. contradiction.
Qed.

Lemma Qabs_pos_of_nonzero (a : Q) : ~ a == 0 -> 0 < Qabs a.
Proof.
  intro Hne. destruct (Qlt_le_dec 0 (Qabs a)) as [Hlt|Hle]; [exact Hlt|].
  exfalso. apply Hne. apply Qabs_Qle_condition in Hle.
  destruct Hle as [H1 H2]. apply Qle_antisym; [exact H2|exact H1].
Qed.

(** ** Closing a trade *)

Lemma spread_change_pct_same (e : Q) : spread_change_pct e e == 0.
Proof.
  unfold spread_change_pct. destruct (Qeq_bool e 0); [reflexivity|].
  unfold Qdiv. setoid_replace (e - e) with 0 using relation Qeq by ring. ring.
Qed.

Lemma close_gross_zero (s : side) (q pct : Q) : pct == 0 -> close_gross s q pct == 0.
Proof.
  intro Hp. destruct s; simpl; rewrite Hp; ring.
Qed.

Lemma spread_change_pct_pos (e x : Q) :
  ~ e == 0 -> (0 < spread_change_pct e x <-> e < x).
Proof.
  intro Hne. unfold spread_change_pct.
  apply Qeq_bool_false in Hne as Hb. rewrite Hb.
  pose proof (Qabs_pos_of_nonzero e Hne) as Hpos.
  split; intro Hlt.
  - apply Qlt_minus_iff.
    setoid_replace (x + - e) with (((x - e) / Qabs e) * Qabs e)
      using relation Qeq
      by (field; intro Hz; rewrite Hz in Hpos; exact (Qlt_irrefl 0 Hpos)).
    apply Qmult_lt_0_compat; assumption.
  - apply Qlt_shift_div_l; [exact Hpos|].
    setoid_replace (0 * Qabs e) with 0 using relation Qeq by ring.
    unfold Qminus. rewrite <- Qlt_minus_iff. exact Hlt.
Qed.

Lemma spread_change_pct_neg (e x : Q) :
  ~ e == 0 -> (spread_change_pct e x < 0 <-> x < e).
Proof.
  intro Hne. unfold spread_change_pct.
  apply Qeq_bool_false in Hne as Hb. rewrite Hb.
  pose proof (Qabs_pos_of_nonzero e Hne) as Hpos.
  split; intro Hlt.
  - apply Qlt_minus_iff.
    setoid_replace (e + - x) with ((- ((x - e) / Qabs e)) * Qabs e)
      using relation Qeq
      by (field; intro Hz; rewrite Hz in Hpos; exact (Qlt_irrefl 0 Hpos)).
    apply Qmult_lt_0_compat; [|exact Hpos].
    apply Qlt_minus_iff in Hlt.
    setoid_replace (- ((x - e) / Qabs e)) with (0 + - ((x - e) / Qabs e))
      using relation Qeq by ring.
    exact Hlt.
  - apply Qlt_shift_div_r; [exact Hpos|].
    setoid_replace (0 * Qabs e) with 0 using relation Qeq by ring.
    apply Qlt_minus_iff in Hlt. apply Qlt_minus_iff.
    setoid_replace (0 + - (x - e)) with (e + - x) using relation Qeq by ring. exact Hlt.
Qed.

Lemma close_gross_pos (s : side) (q pct : Q) :
  0 < q ->
  (0 < close_gross s q pct <->
   match s with LONG => 0 < pct | SHORT => pct < 0 end).
Proof.
  intro Hq. destruct s; simpl.
  - split; intro Hlt.
    + destruct (Qlt_le_dec 0 pct) as [Hp|Hp]; [exact Hp|]. exfalso.
      apply (Qlt_not_le _ _ Hlt).
      setoid_replace (q * pct) with (- (q * - pct)) using relation Qeq by ring.
      setoid_replace 0 with (- 0) using relation Qeq by ring.
      apply Qopp_le_compat. apply Qmult_le_0_compat; [apply Qlt_le_weak, Hq|].
      setoid_replace 0 with (- 0) using relation Qeq by ring.
      apply Qopp_le_compat. exact Hp.
    + apply Qmult_lt_0_compat; assumption.
  - split; intro Hlt.
    + destruct (Qlt_le_dec pct 0) as [Hp|Hp]; [exact Hp|]. exfalso.
      apply (Qlt_not_le _ _ Hlt).
      setoid_replace (- q * pct) with (- (q * pct)) using relation Qeq by ring.
      setoid_replace 0 with (- 0) using relation Qeq by ring.
      apply Qopp_le_compat. apply Qmult_le_0_compat; [apply Qlt_le_weak, Hq|exact Hp].
    + setoid_replace (- q * pct) with (q * - pct) using relation Qeq by ring.
      apply Qmult_lt_0_compat; [exact Hq|].
      setoid_replace 0 with (- 0) using relation Qeq by ring.
      apply Qopp_lt_compat. exact Hlt.
Qed.

(** A long trade entered at 100 with 1000 committed and closed at 110 with
    fees of 5 nets 95; the same trade short nets -105. *)
Example Trade_close_long :
  pnl_of (Trade_close (Trade_init 0 ("A", "B")%string LONG 1 100 1000 2)
                      5 110 1000 5) == 95.
Proof. reflexivity. Qed.

Example Trade_close_short :
  pnl_of (Trade_close (Trade_init 0 ("A", "B")%string SHORT 1 100 1000 2)
                      5 110 1000 5) == -105.
Proof. reflexivity. Qed.

(** C4, counterexample: the long position of [bt_in_position] is closed by
    [_close_trade] at a spread of 101, above its entry of 100, and the fee
    of 100 turns the gross gain of 10 into a net loss of 90. *)
Lemma net_sign_convention_fails :
  exists b' tr,
    _close_trade bt_in_position "A"%string "B"%string 2 101 = Ok b' /\
    trades b' = [tr] /\
    trade_side tr = LONG /\
    pnl_of tr == -90 /\
    ~ net_sign_convention tr 101.
Proof.
  eexists. eexists. split; [vm_compute; reflexivity|].
  split; [reflexivity|]. split; [reflexivity|]. split; [reflexivity|].
  unfold net_sign_convention. simpl. intros [_ Hback].
  assert (Hlt : 100 < 101) by reflexivity.
  specialize (Hback Hlt). vm_compute in Hback. discriminate.
Qed.

(** C4, as the code has it: when the entry spread price is nonzero and the
    position size is positive, the gross P&L of a closed trade follows the
    side convention (long: positive iff exit above entry; short: positive
    iff exit below entry), and the net P&L is the gross P&L minus the fees. *)
Theorem Trade_close_gross_sign (tr : Trade) (t : date) (exit_p exit_q fees : Q) :
  ~ entry_price tr == 0 ->
  0 < entry_quantity tr ->
  exists g n,
    gross_pnl (Trade_close tr t exit_p exit_q fees) = Some g /\
    net_pnl (Trade_close tr t exit_p exit_q fees) = Some n /\
    n == g - fees /\
    match trade_side tr with
    | LONG => 0 < g <-> entry_price tr < exit_p
    | SHORT => 0 < g <-> exit_p < entry_price tr
    end.
Proof.
  intros Hne Hq.
  exists (close_gross (trade_side tr) (entry_quantity tr)
                      (spread_change_pct (entry_price tr) exit_p)).
  eexists. split; [reflexivity|]. split; [reflexivity|]. split; [reflexivity|].
  pose proof (close_gross_pos (trade_side tr) _
                (spread_change_pct (entry_price tr) exit_p) Hq) as Hg.
  destruct (trade_side tr).
  - rewrite Hg. apply spread_change_pct_pos. exact Hne.
  - rewrite Hg. apply spread_change_pct_neg. exact Hne.
Qed.

Lemma Trade_close_gross_sign_witness :
  exists g n,
    gross_pnl (Trade_close (Trade_init 0 ("A", "B")%string LONG 1 100 1000 2)
                           5 110 1000 5) = Some g /\
    net_pnl (Trade_close (Trade_init 0 ("A", "B")%string LONG 1 100 1000 2)
                         5 110 1000 5) = Some n /\
    n == g - 5 /\
    (0 < g <-> 100 < 110).
Proof.
  apply (Trade_close_gross_sign
           (Trade_init 0 ("A", "B")%string LONG 1 100 1000 2) 5 110 1000 5).
  - simpl. intro Hz. discriminate Hz.
  - reflexivity.
Defined.

(** ** Round trip *)

Lemma Trade_close_same_price (tr : Trade) (t : date) (q fees : Q) :
  fees == 0 ->
  pnl_of (Trade_close tr t (entry_price tr) q fees) == 0.
Proof.
  intro Hf. unfold pnl_of, Trade_close; simpl.
  rewrite Hf.
  rewrite (close_gross_zero _ _ _ (spread_change_pct_same (entry_price tr))).
  ring.
Qed.

Lemma close_fees_zero (tr : Trade) (c : Q) : c == 0 -> close_fees tr c == 0.
Proof.
  intro Hc. unfold close_fees. rewrite Hc. ring.
Qed.

Lemma close_after_open (b : Backtester) (p1 p2 : asset) (s : side)
    (d d' : date) (spread hr x : Q) :
  let tr := Trade_init (next_trade_id b) (p1, p2) s d spread
                       (_calculate_position_size b (current_capital b)) hr in
  let tr' := Trade_close tr d' x (entry_quantity tr)
                         (close_fees tr (commission_pct (config b))) in
  _close_trade (_open_trade b p1 p2 s d spread hr) p1 p2 d' x =
  Ok (mkBacktester (config b) (price_data b) (starting_capital b)
                   (current_capital b + pnl_of tr')
                   (equity_curve b) (trades b ++ [tr'])
                   (delete (p1, p2) (<[(p1, p2) := tr]> (open_positions b)))
                   (S (next_trade_id b)) (dates b)).
Proof.
  intros tr tr'. unfold _close_trade, _open_trade, getitem; simpl.
  rewrite lookup_insert_eq. reflexivity.
Qed.

(** C5: a position opened by [_open_trade] at a spread price and closed by
    [_close_trade] at the same spread price, under a zero commission, is
    logged with a net P&L of 0 and leaves the capital as it was, whatever
    the entry spread price and the side; and [Trade.close] at the entry
    price, with the fee of a zero commission, gives any trade (of any
    price, side and position size) a net P&L of 0. *)
Theorem round_trip_zero_pnl (b : Backtester) (p1 p2 : asset) (s : side)
    (d d' : date) (spread hr : Q) :
  commission_pct (config b) == 0 ->
  exists b2 tr n,
    _close_trade (_open_trade b p1 p2 s d spread hr) p1 p2 d' spread = Ok b2 /\
    trades b2 = trades b ++ [tr] /\
    trade_side tr = s /\
    entry_price tr = spread /\
    exit_price tr = Some spread /\
    entry_quantity tr = _calculate_position_size b (current_capital b) /\
    net_pnl tr = Some n /\
    n == 0 /\
    current_capital b2 == current_capital b /\
    open_positions b2 !! (p1, p2) = None /\
    (forall (tr0 : Trade) (t : date) (q : Q),
       pnl_of (Trade_close tr0 t (entry_price tr0) q
                 (close_fees tr0 (commission_pct (config b)))) == 0).
Proof.
  intro Hc. rewrite close_after_open.
  set (tr := Trade_init _ _ _ _ _ _ _).
  assert (Hz : pnl_of (Trade_close tr d' spread (entry_quantity tr)
                         (close_fees tr (commission_pct (config b)))) == 0).
  { change spread with (entry_price tr) at 1.
    apply Trade_close_same_price, close_fees_zero, Hc. }
  eexists. eexists. eexists.
  split; [reflexivity|]. simpl.
  split; [reflexivity|]. split; [reflexivity|]. split; [reflexivity|].
  split; [reflexivity|]. split; [reflexivity|]. split; [reflexivity|].
  split; [exact Hz|]. split; [rewrite Hz; ring|].
  split; [apply lookup_delete_eq|].
  intros tr0 t q. apply Trade_close_same_price, close_fees_zero, Hc.
Qed.

Lemma round_trip_zero_pnl_witness :
  commission_pct (config bt_flat) == 0 /\
  exists b2 tr n,
    _close_trade (_open_trade bt_flat "A"%string "B"%string SHORT 1 (-7 # 3) 2)
                 "A"%string "B"%string 2 (-7 # 3) = Ok b2 /\
    trades b2 = trades bt_flat ++ [tr] /\
    trade_side tr = SHORT /\
    entry_price tr = (-7 # 3) /\
    exit_price tr = Some (-7 # 3) /\
    entry_quantity tr = _calculate_position_size bt_flat (current_capital bt_flat) /\
    net_pnl tr = Some n /\
    n == 0 /\
    current_capital b2 == current_capital bt_flat /\
    open_positions b2 !! ("A", "B")%string = None /\
    (forall (tr0 : Trade) (t : date) (q : Q),
       pnl_of (Trade_close tr0 t (entry_price tr0) q
                 (close_fees tr0 (commission_pct (config bt_flat)))) == 0).
Proof.
  split; [reflexivity|].
  apply (round_trip_zero_pnl bt_flat "A"%string "B"%string SHORT 1 2 (-7 # 3) 2).
  reflexivity.
Defined.

(** ** Signals *)

Lemma py_div_ok (a b : Q) : ~ b == 0 -> py_div a b = Ok (a / b).
Proof.
  intro Hb. unfold py_div. apply Qeq_bool_false in Hb. rewrite Hb. reflexivity.
Qed.

Lemma Qpos_nonzero (a : Q) : 0 < a -> ~ a == 0.
Proof.
  intros Hlt Heq. rewrite Heq in Hlt. exact (Qlt_irrefl 0 Hlt).
Qed.

Lemma Qdiv_nonneg (a b : Q) : 0 <= a -> 0 < b -> 0 <= a / b.
Proof.
  intros Ha Hb. apply Qle_shift_div_l; [exact Hb|].
  setoid_replace (0 * b) with 0 using relation Qeq by ring. exact Ha.
Qed.

Lemma Qdiv_lt_1 (a b : Q) : a < b -> 0 < b -> a / b < 1.
Proof.
  intros Hab Hb. apply Qlt_shift_div_r; [exact Hb|].
  setoid_replace (1 * b) with b using relation Qeq by ring. exact Hab.
Qed.

Lemma Qmin_0_1 : Qmin 0 1 == 0.
Proof. reflexivity. Qed.

Lemma Qmin_unit (c : Q) : 0 <= c -> 0 <= Qmin c 1 <= 1.
Proof.
  intro Hc. split.
  - apply Q.min_glb; [exact Hc|discriminate].
  - apply Q.le_min_r.
Qed.

Example generate_signal_buy :
  generate_signal (mkSignalGenerator 2 (1 # 2)) (-5 # 2) false =
  Ok (mkSignalResult BUY (-5 # 2) (Qmin (((5 # 2) - 2) / 2) 1)).
Proof. reflexivity. Qed.

Example generate_signal_close :
  generate_signal (mkSignalGenerator 2 (1 # 2)) (-3 # 10) true =
  Ok (mkSignalResult CLOSE (-3 # 10) (Qmin (1 - (3 # 10) / (1 # 2)) 1)).
Proof. reflexivity. Qed.

Example generate_signal_hold_in_position :
  generate_signal (mkSignalGenerator 2 (1 # 2)) (-5 # 2) true =
  Ok (mkSignalResult HOLD (-5 # 2) (Qmin 0 1)).
Proof. reflexivity. Qed.

Lemma generate_signal_signal (sg : SignalGenerator) (z : Q) (pos : bool)
    (r : signal_result) :
  generate_signal sg z pos = Ok r -> signal r = decide_signal sg z pos.
Proof.
  unfold generate_signal, decide_signal, rbind.
  destruct pos; simpl.
  - destruct (Qltb (Qabs z) (exit_threshold sg)).
    + destruct (py_div _ _); intro E; inversion E; reflexivity.
    + intro E; inversion E; reflexivity.
  - destruct (Qltb z (- entry_threshold sg)).
    + destruct (py_div _ _); intro E; inversion E; reflexivity.
    + destruct (Qltb (entry_threshold sg) z).
      * destruct (py_div _ _); intro E; inversion E; reflexivity.
      * intro E; inversion E; reflexivity.
Qed.

Lemma generate_signal_np_agrees (sg : SignalGenerator) (z : Q) (pos : bool)
    (r : signal_result) :
  generate_signal sg z pos = Ok r -> generate_signal_np sg z pos = r.
Proof.
  unfold generate_signal, generate_signal_np, py_div, np_div, np_cap.
  destruct (pos && Qltb (Qabs z) (exit_threshold sg)).
  - destruct (Qeq_bool (exit_threshold sg) 0); simpl; intro E; inversion E.
    reflexivity.
  - destruct (negb pos); [|intro E; inversion E; reflexivity].
    destruct (Qltb z (- entry_threshold sg)).
    + destruct (Qeq_bool (entry_threshold sg) 0); simpl; intro E; inversion E.
      reflexivity.
    + destruct (Qltb (entry_threshold sg) z); [|intro E; inversion E; reflexivity].
      destruct (Qeq_bool (entry_threshold sg) 0); simpl; intro E; inversion E.
      reflexivity.
Qed.

(** C6, counterexample: the range of the confidence depends on the entry
    threshold.  With an entry threshold of -1 a flat z-score of 0 gives BUY
    with confidence -1 and a z-score of 5 gives SELL with confidence -6;
    with an entry threshold of 0 the call on a z-score of 1 raises
    ZeroDivisionError and returns no confidence at all. *)
Lemma confidence_outside_unit :
  (exists r, generate_signal (mkSignalGenerator (-1) (1 # 2)) 0 false = Ok r /\
             signal r = BUY /\ confidence r == -1) /\
  (exists r, generate_signal (mkSignalGenerator (-1) (1 # 2)) 5 false = Ok r /\
             signal r = SELL /\ confidence r == -6) /\
  generate_signal (mkSignalGenerator 0 (1 # 2)) 1 false = Err ZeroDivisionError /\
  ~ confidence_in_unit (mkSignalGenerator (-1) (1 # 2)) 0 false /\
  ~ confidence_in_unit (mkSignalGenerator (-1) (1 # 2)) 5 false /\
  ~ confidence_in_unit (mkSignalGenerator 0 (1 # 2)) 1 false.
Proof.
  split; [eexists; split; [reflexivity|]; split; reflexivity|].
  split; [eexists; split; [reflexivity|]; split; reflexivity|].
  split; [reflexivity|].
  split; [|split].
  - intros (r & Hr & H0 & _). vm_compute in Hr. inversion Hr; subst r.
    apply H0. reflexivity.
  - intros (r & Hr & H0 & _). vm_compute in Hr. inversion Hr; subst r.
    apply H0. reflexivity.
  - intros (r & Hr & _). vm_compute in Hr. discriminate.
Qed.

(** C6, as the code has it: with a positive entry threshold,
    [generate_signal] returns, for every z-score and position state, a
    confidence in [0,1]: for CLOSE it is [1 - |z| / exit_threshold] (1 at a
    deviation of 0, falling linearly to 0 at the exit threshold), for BUY
    and SELL it is [(|z| - entry_threshold) / entry_threshold] (0 at the
    entry threshold, rising linearly) capped at 1, and for HOLD it is 0.
    The call on a numpy scalar returns the same. *)
Theorem generate_signal_confidence (sg : SignalGenerator) (z : Q) (pos : bool) :
  0 < entry_threshold sg ->
  exists r,
    generate_signal sg z pos = Ok r /\
    generate_signal_np sg z pos = r /\
    sr_zscore r = z /\
    0 <= confidence r <= 1 /\
    match signal r with
    | CLOSE => pos = true /\ Qabs z < exit_threshold sg /\
               confidence r == 1 - Qabs z / exit_threshold sg
    | BUY | SELL =>
        pos = false /\ entry_threshold sg < Qabs z /\
        confidence r ==
          Qmin ((Qabs z - entry_threshold sg) / entry_threshold sg) 1
    | HOLD => confidence r == 0
    end.
Proof.
  intro He. pose proof (Qpos_nonzero _ He) as Hne.
  cut (exists r,
         generate_signal sg z pos = Ok r /\
         sr_zscore r = z /\
         0 <= confidence r <= 1 /\
         match signal r with
         | CLOSE => pos = true /\ Qabs z < exit_threshold sg /\
                    confidence r == 1 - Qabs z / exit_threshold sg
         | BUY | SELL =>
             pos = false /\ entry_threshold sg < Qabs z /\
             confidence r ==
               Qmin ((Qabs z - entry_threshold sg) / entry_threshold sg) 1
         | HOLD => confidence r == 0
         end).
  { intros (r & Hr & Hrest). exists r. split; [exact Hr|].
    split; [apply generate_signal_np_agrees; exact Hr|exact Hrest]. }
  assert (Hentry : forall s, entry_threshold sg < Qabs z ->
    exists r,
      Ok (mkSignalResult s z
            (Qmin ((Qabs z - entry_threshold sg) / entry_threshold sg) 1)) = Ok r /\
      sr_zscore r = z /\ 0 <= confidence r <= 1 /\ signal r = s /\
      confidence r ==
        Qmin ((Qabs z - entry_threshold sg) / entry_threshold sg) 1).
  { intros s Hlt. eexists. split; [reflexivity|]. simpl.
    split; [reflexivity|]. split; [|split; reflexivity].
    apply Qmin_unit. apply Qdiv_nonneg; [|exact He].
    apply Qlt_le_weak. apply Qlt_minus_iff in Hlt. exact Hlt. }
  unfold generate_signal.
  destruct pos; simpl.
  - destruct (Qltb (Qabs z) (exit_threshold sg)) eqn:Ex.
    + apply Qltb_lt in Ex.
      assert (Hx : 0 < exit_threshold sg)
        by (eapply Qle_lt_trans; [apply Qabs_nonneg|exact Ex]).
      rewrite (py_div_ok _ _ (Qpos_nonzero _ Hx)). simpl.
      pose proof (Qdiv_nonneg _ _ (Qabs_nonneg z) Hx) as H0.
      pose proof (Qdiv_lt_1 _ _ Ex Hx) as H1.
      assert (Hle : 1 - Qabs z / exit_threshold sg <= 1).
      { setoid_replace 1 with (1 - 0) using relation Qeq at 2 by ring.
        unfold Qminus. apply Qplus_le_r. apply Qopp_le_compat. exact H0. }
      assert (Hmin : Qmin (1 - Qabs z / exit_threshold sg) 1 ==
                     1 - Qabs z / exit_threshold sg) by (apply Q.min_l; exact Hle).
      eexists. split; [reflexivity|]. simpl. split; [reflexivity|].
      split; [|split; [reflexivity|split; [exact Ex|exact Hmin]]].
      rewrite Hmin. split; [|exact Hle].
      apply Qlt_le_weak. unfold Qminus. rewrite <- Qlt_minus_iff. exact H1.
    + eexists. split; [reflexivity|]. simpl. split; [reflexivity|].
      split; [split; discriminate|reflexivity].
  - destruct (Qltb z (- entry_threshold sg)) eqn:Eb.
    + apply Qltb_lt in Eb. rewrite (py_div_ok _ _ Hne). simpl.
      assert (Hlt : entry_threshold sg < Qabs z).
      { rewrite <- Qabs_opp. apply Qabs_gt.
        apply Qopp_lt_compat in Eb. rewrite Qopp_involutive in Eb. exact Eb. }
      destruct (Hentry BUY Hlt) as (r & Hr & Hz & Hc & Hs & Hf).
      exists r. rewrite Hs. repeat split; try tauto; try exact Hlt; exact Hf.
    + destruct (Qltb (entry_threshold sg) z) eqn:Es.
      * apply Qltb_lt in Es. rewrite (py_div_ok _ _ Hne). simpl.
        assert (Hlt : entry_threshold sg < Qabs z)
          by (eapply Qlt_le_trans; [exact Es|apply Qle_Qabs]).
        destruct (Hentry SELL Hlt) as (r & Hr & Hz & Hc & Hs & Hf).
        exists r. rewrite Hs. repeat split; try tauto; try exact Hlt; exact Hf.
      * eexists. split; [reflexivity|]. simpl. split; [reflexivity|].
        split; [split; discriminate|reflexivity].
Qed.

Lemma generate_signal_confidence_witness :
  exists r,
    generate_signal (mkSignalGenerator 2 (1 # 2)) (-5 # 2) false = Ok r /\
    signal r = BUY /\
    0 <= confidence r <= 1.
Proof.
  destruct (generate_signal_confidence (mkSignalGenerator 2 (1 # 2)) (-5 # 2) false)
    as (r & Hr & _ & _ & Hc & _); [reflexivity|].
  exists r. split; [exact Hr|]. split; [|exact Hc].
  vm_compute in Hr. inversion Hr. reflexivity.
Defined.

(** ** Z-score *)

Example calculate_zscore_plain :
  calculate_zscore 7 1 3 = ((7 - 1) / 3, []).
Proof. reflexivity. Qed.

Example calculate_zscore_flat :
  calculate_zscore 7 1 0 =
  (0, [Warning "Spread std is 0, cannot calculate Z-score"]).
Proof. reflexivity. Qed.

(** C7, counterexample: a zero deviation is not observable by the caller.
    The call with spread 7, mean 1 and deviation 0 returns 0, and so does
    the call with spread 1, mean 1 and deviation 3; a test on the returned
    number that flags the first flags the second. *)
Lemma zero_std_not_observable :
  fst (calculate_zscore 7 1 0) == fst (calculate_zscore 1 1 3) /\
  ~ zero_std_observable.
Proof.
  split; [reflexivity|].
  intros (flagged & Hresp & Hflag).
  assert (H0 : flagged (fst (calculate_zscore 7 1 0)) = true)
    by (apply Hflag; reflexivity).
  assert (H3 : flagged (fst (calculate_zscore 1 1 3)) = true).
  { rewrite <- H0. apply Hresp. reflexivity. }
  apply Hflag in H3. discriminate H3.
Qed.

(** C7, as the code has it: [calculate_zscore] returns
    [(current_spread - mean) / std] and logs nothing when [std] is nonzero,
    so that the z-score of the mean itself is 0; when [std] is 0 it returns
    0 for any spread and mean and logs a warning.  The warning is the only
    trace of the condition: the log is non-empty exactly when [std] is 0,
    while the number returned for a zero deviation is the one returned for
    a spread at its mean, whatever the deviation. *)
Theorem calculate_zscore_spec (current_spread mean std : Q) :
  ((~ std == 0 /\
    calculate_zscore current_spread mean std =
      ((current_spread - mean) / std, []) /\
    fst (calculate_zscore mean mean std) == 0)
   \/
   (std == 0 /\
    calculate_zscore current_spread mean std =
      (0, [Warning "Spread std is 0, cannot calculate Z-score"])))
  /\
  (snd (calculate_zscore current_spread mean std) <> [] <-> std == 0)
  /\
  fst (calculate_zscore current_spread mean 0) ==
    fst (calculate_zscore mean mean std).
Proof.
  assert (Hmean : (mean - mean) / std == 0).
  { unfold Qdiv.
    setoid_replace (mean - mean) with 0 using relation Qeq by ring. ring. }
  unfold calculate_zscore. change (Qeq_bool 0 0) with true. cbv iota.
  destruct (Qeq_bool std 0) eqn:E.
  - apply Qeq_bool_iff in E. split; [|split].
    + right. split; [exact E|reflexivity].
    + simpl. split; [intros _; exact E|intros _; discriminate].
    + reflexivity.
  - apply Qeq_bool_false in E. split; [|split].
    + left. split; [exact E|]. split; [reflexivity|]. exact Hmean.
    + simpl. split; [intro Hn; exfalso; apply Hn; reflexivity|].
      intro Hz. contradiction.
    + simpl. symmetry. exact Hmean.
Qed.

(** ** Profit factor *)

Lemma py_sum_from (l : list Q) (a : Q) : fold_left Qplus l a == a + Qsum l.
Proof.
  revert a. induction l as [|x l IH]; intro a; simpl.
  - ring.
  - rewrite IH. ring.
Qed.

Lemma py_sum_Qsum (l : list Q) : py_sum l == Qsum l.
Proof.
  unfold py_sum. rewrite py_sum_from. ring.
Qed.

Lemma Qsum_filter_pos (l : list Q) :
  Qsum (List.filter (fun p => Qltb 0 p) l) == gross_profit l.
Proof.
  induction l as [|x l IH]; simpl; [reflexivity|].
  destruct (Qltb 0 x); simpl; [rewrite IH|exact IH]. reflexivity.
Qed.

Lemma Qsum_filter_neg (l : list Q) :
  Qsum (List.filter (fun p => Qltb p 0) l) == - gross_loss l.
Proof.
  induction l as [|x l IH]; simpl; [reflexivity|].
  destruct (Qltb x 0); simpl; [rewrite IH; ring|exact IH].
Qed.

Lemma gross_profit_nonneg (l : list Q) : 0 <= gross_profit l.
Proof.
  induction l as [|x l IH]; simpl; [discriminate|].
  destruct (Qltb 0 x) eqn:E; [|exact IH].
  apply Qltb_lt in E.
  setoid_replace 0 with (0 + 0) using relation Qeq by ring.
  apply Qplus_le_compat; [apply Qlt_le_weak, E|exact IH].
Qed.

Lemma gross_loss_nonneg (l : list Q) : 0 <= gross_loss l.
Proof.
  induction l as [|x l IH]; simpl; [discriminate|].
  destruct (Qltb x 0) eqn:E; [|exact IH].
  apply Qltb_lt in E.
  setoid_replace 0 with (0 + 0) using relation Qeq by ring.
  apply Qplus_le_compat; [|exact IH].
  apply Qlt_le_weak. setoid_replace 0 with (- 0) using relation Qeq by ring.
  apply Qopp_lt_compat. exact E.
Qed.

Lemma code_gross_loss (l : list Q) :
  Qabs (py_sum (List.filter (fun p => Qltb p 0) l)) == gross_loss l.
Proof.
  rewrite py_sum_Qsum, Qsum_filter_neg, Qabs_opp.
  apply Qabs_pos, gross_loss_nonneg.
Qed.

Lemma code_gross_profit (l : list Q) :
  py_sum (List.filter (fun p => Qltb 0 p) l) == gross_profit l.
Proof.
  rewrite py_sum_Qsum. apply Qsum_filter_pos.
Qed.

Lemma net_pnls_closed (ts : list trade_dict) (pnls : list Q) :
  closed_pnls ts pnls -> net_pnls ts = Ok pnls.
Proof.
  unfold closed_pnls. revert pnls.
  induction ts as [|t ts IH]; intros [|p pnls] Hm; simpl in *;
    try discriminate; [reflexivity|].
  inversion Hm as [[Hp Hrest]]. rewrite Hp. simpl.
  rewrite (IH pnls Hrest). reflexivity.
Qed.

(** C9: on a log of closed trades the profit factor is gross profit over
    gross loss when the gross loss is nonzero; when the gross loss is 0 it
    is gross profit over 0.01 if the gross profit is positive, and 0 if
    not. *)
Theorem profit_factor_spec (ts : list trade_dict) (pnls : list Q) :
  closed_pnls ts pnls ->
  exists pf,
    _calculate_profit_factor ts = Ok pf /\
    ((~ gross_loss pnls == 0 /\ pf == gross_profit pnls / gross_loss pnls)
     \/ (gross_loss pnls == 0 /\ 0 < gross_profit pnls /\
         pf == gross_profit pnls / (1 # 100))
     \/ (gross_loss pnls == 0 /\ gross_profit pnls == 0 /\ pf == 0)).
Proof.
  intro Hc. unfold _calculate_profit_factor.
  rewrite (net_pnls_closed _ _ Hc). simpl.
  pose proof (code_gross_profit pnls) as Hp.
  pose proof (code_gross_loss pnls) as Hl.
  destruct (Qeq_bool _ 0) eqn:El.
  - apply Qeq_bool_iff in El. rewrite Hl in El.
    destruct (Qltb 0 _) eqn:Ep.
    + apply Qltb_lt in Ep. rewrite Hp in Ep.
      eexists. split; [reflexivity|]. right. left.
      split; [exact El|]. split; [exact Ep|]. rewrite Hp. reflexivity.
    + apply Qltb_ge in Ep. rewrite Hp in Ep.
      eexists. split; [reflexivity|]. right. right.
      split; [exact El|]. split; [|reflexivity].
      apply Qle_antisym; [exact Ep|apply gross_profit_nonneg].
  - apply Qeq_bool_false in El. rewrite Hl in El.
    eexists. split; [reflexivity|]. left.
    split; [exact El|]. rewrite Hp, Hl. reflexivity.
Qed.

Example profit_factor_no_loss :
  _calculate_profit_factor [dict_of_pnl 60; dict_of_pnl 40] = Ok (100 / (1 # 100)) /\
  100 / (1 # 100) == 10000.
Proof. split; reflexivity. Qed.

Example profit_factor_nothing :
  _calculate_profit_factor [dict_of_pnl 0] = Ok 0 /\
  _calculate_profit_factor [] = Ok 0.
Proof. split; reflexivity. Qed.

Example profit_factor_mixed :
  exists pf, _calculate_profit_factor
               [dict_of_pnl 30; dict_of_pnl (-10); dict_of_pnl (-5)] = Ok pf /\
             pf == 2.
Proof. eexists. split; reflexivity. Qed.

Lemma profit_factor_spec_witness :
  exists pf,
    _calculate_profit_factor [dict_of_pnl 60; dict_of_pnl 40] = Ok pf /\
    pf == 10000.
Proof.
  destruct (profit_factor_spec
              [dict_of_pnl 60; dict_of_pnl 40] [60; 40])
    as (pf & Hpf & Hcases); [reflexivity|].
  exists pf. split; [exact Hpf|].
  vm_compute in Hpf. inversion Hpf. reflexivity.
Defined.

(** ** The engine: steps *)

Lemma rbind_ok {A B : Type} (m : result A) (k : A -> result B) (b : B) :
  rbind m k = Ok b -> exists a, m = Ok a /\ k a = Ok b.
Proof.
  destruct m as [a|e]; simpl; intro E; [|discriminate].
  exists a. split; [reflexivity|exact E].
Qed.

Lemma getitem_ok {K : Type} `{Countable K} {V : Type} (m : gmap K V) (k : K) (v : V) :
  getitem m k = Ok v <-> m !! k = Some v.
Proof.
  unfold getitem. destruct (m !! k); split; intro E; inversion E; reflexivity.
Qed.

Lemma same_setup_refl (b : Backtester) : same_setup b b.
Proof. repeat split. Qed.

Lemma same_setup_trans (b1 b2 b3 : Backtester) :
  same_setup b1 b2 -> same_setup b2 b3 -> same_setup b1 b3.
Proof.
  unfold same_setup. intros (A1 & A2 & A3 & A4 & A5) (B1 & B2 & B3 & B4 & B5).
  repeat split; congruence.
Qed.

Lemma execute_signal_step (b b' : Backtester) (p1 p2 : asset) (d : date)
    (sig : Signal) (spread hr : Q) :
  execute_signal b p1 p2 d sig spread hr = Ok b' ->
  step_kind b b' (p1, p2) /\ same_setup b b'.
Proof.
  unfold execute_signal.
  destruct (open_positions b !! (p1, p2)) as [tr|] eqn:Epos.
  - destruct sig; intro E; try (inversion E; subst; split;
      [apply step_none; reflexivity|apply same_setup_refl]).
    assert (Hget : getitem (open_positions b) (p1, p2) = Ok tr)
      by (apply getitem_ok; exact Epos).
    unfold _close_trade in E. cbv zeta in E. rewrite Hget in E. simpl in E.
    inversion E; subst; clear E. split; [|repeat split].
    eapply (step_close _ _ _ tr
              (Trade_close tr d spread (entry_quantity tr)
                 (close_fees tr (commission_pct (config b)))));
      simpl; try reflexivity. exact Epos.
  - destruct sig; intro E; inversion E; subst; clear E;
      try (split; [apply step_none; reflexivity|apply same_setup_refl]);
      (split; [|repeat split]);
      eapply step_open; simpl; try exact Epos; try reflexivity; reflexivity.
Qed.

Section EngineSteps.
Context `{NumLib}.

Lemma _process_pair_execute (b b' : Backtester) (p1 p2 : asset) (d : date)
    (cur : gmap asset Q) :
  _process_pair b p1 p2 d cur = Ok b' ->
  b' = b \/
  exists sig spread hr, execute_signal b p1 p2 d sig spread hr = Ok b'.
Proof.
  unfold _process_pair. intro E.
  apply rbind_ok in E as (df1 & _ & E).
  apply rbind_ok in E as (df2 & _ & E).
  destruct (_ || _); [inversion E; left; reflexivity|].
  apply rbind_ok in E as (cr & _ & E).
  destruct (negb (cointegrated cr)); [inversion E; left; reflexivity|].
  apply rbind_ok in E as (c1 & _ & E).
  apply rbind_ok in E as (c2 & _ & E).
  apply rbind_ok in E as (m & _ & E).
  apply rbind_ok in E as (s & _ & E).
  right. eauto.
Qed.

Lemma _process_pair_step (b b' : Backtester) (p1 p2 : asset) (d : date)
    (cur : gmap asset Q) :
  _process_pair b p1 p2 d cur = Ok b' ->
  step_kind b b' (p1, p2) /\ same_setup b b'.
Proof.
  intro E. apply _process_pair_execute in E as [->|(sig & x & hr & E)].
  - split; [apply step_none; reflexivity|apply same_setup_refl].
  - eapply execute_signal_step, E.
Qed.

End EngineSteps.

(** ** The engine: invariants *)

Lemma Qsum_app (l k : list Q) : Qsum (l ++ k) == Qsum l + Qsum k.
Proof.
  induction l as [|x l IH]; simpl; [ring|]. rewrite IH. ring.
Qed.

Lemma capital_inv_step (b b' : Backtester) (pk : pair_key) :
  step_kind b b' pk -> starting_capital b' = starting_capital b ->
  capital_inv b -> capital_inv b'.
Proof.
  unfold capital_inv. intros [->|tr _ _ _ _ _ _ _ Ht Hc|tr tr' n _ Hn _ _ _ Ht Hc] Hs Hinv.
  - exact Hinv.
  - rewrite Hs, Ht, Hc. exact Hinv.
  - assert (Hp : pnl_of tr' = n) by (unfold pnl_of; rewrite Hn; reflexivity).
    rewrite Hs, Ht, Hc, map_app, Qsum_app, Hinv. simpl. rewrite Hp. ring.
Qed.

Lemma positions_inv_step (b b' : Backtester) (pk : pair_key) :
  step_kind b b' pk -> positions_inv b -> positions_inv b'.
Proof.
  unfold positions_inv.
  intros [->|tr Hnone Hp Hx _ Hid Ho Hi Ht _|tr tr' n Hsome _ _ Ho Hi Ht _]
         [Hcount Hkeys].
  - split; assumption.
  - rewrite Ho, Hi, Ht. split.
    + rewrite map_size_insert_None by exact Hnone. rewrite Hcount. reflexivity.
    + intros pk' tr0 Hl. destruct (decide (pk = pk')) as [<-|Hne].
      * rewrite lookup_insert_eq in Hl. inversion Hl; subst tr0.
        rewrite Hid. repeat split; [exact Hp|exact Hx|lia].
      * rewrite lookup_insert_ne in Hl by exact Hne.
        destruct (Hkeys _ _ Hl) as (A & B & C). repeat split; [exact A|exact B|lia].
  - rewrite Ho, Hi, Ht. split.
    + rewrite map_size_delete_Some by (eexists; exact Hsome).
      rewrite Hcount, length_app. simpl.
      assert (Hpos : (0 < size (open_positions b))%nat).
      { destruct (decide (size (open_positions b) = 0%nat)) as [Hz|Hz]; [|lia].
        apply map_size_empty_inv in Hz. rewrite Hz in Hsome.
        rewrite lookup_empty in Hsome. discriminate. }
      lia.
    + intros pk' tr0 Hl. apply lookup_delete_Some in Hl as [_ Hl].
      exact (Hkeys _ _ Hl).
Qed.

Section EngineInvariants.
Context `{NumLib}.

Lemma reachable_same_setup_but_equity (b0 b : Backtester) :
  reachable b0 b ->
  config b = config b0 /\ price_data b = price_data b0 /\
  starting_capital b = starting_capital b0 /\ dates b = dates b0.
Proof.
  induction 1 as [|b b' p1 p2 d cur _ IH E|b d _ IH].
  - repeat split.
  - apply _process_pair_step in E as [_ (A & B & C & _ & D)].
    destruct IH as (A' & B' & C' & D'). repeat split; congruence.
  - exact IH.
Qed.

Lemma reachable_inv (b0 b : Backtester) :
  reachable b0 b ->
  capital_inv b0 -> positions_inv b0 ->
  capital_inv b /\ positions_inv b.
Proof.
  intros Hr Hc Hp.
  induction Hr as [|b b' p1 p2 d cur _ IH E|b d _ IH].
  - split; assumption.
  - destruct IH as [IHc IHp].
    apply _process_pair_step in E as [Hk (_ & _ & Hs & _)].
    split.
    + eapply capital_inv_step; eassumption.
    + eapply positions_inv_step; eassumption.
  - exact IH.
Qed.

Lemma reachable_trans (b0 b1 b2 : Backtester) :
  reachable b0 b1 -> reachable b1 b2 -> reachable b0 b2.
Proof.
  intros H01 H12. induction H12 as [|b b' p1 p2 d cur _ IH E|b d _ IH].
  - exact H01.
  - eapply reach_pair; eassumption.
  - apply reach_equity. exact IH.
Qed.

Lemma process_inner_reachable (rest : list asset) (b b' : Backtester)
    (p1 : asset) (d : date) (cur : gmap asset Q) :
  process_inner b p1 rest d cur = Ok b' -> reachable b b'.
Proof.
  revert b. induction rest as [|p2 rest IH]; intros b E; simpl in E.
  - inversion E. apply reach_start.
  - apply rbind_ok in E as (b1 & E1 & E2).
    eapply reachable_trans; [|apply IH; exact E2].
    eapply reach_pair; [apply reach_start|exact E1].
Qed.

Lemma process_pairs_reachable (ps : list asset) (b b' : Backtester)
    (d : date) (cur : gmap asset Q) :
  process_pairs b ps d cur = Ok b' -> reachable b b'.
Proof.
  revert b. induction ps as [|p1 ps IH]; intros b E; simpl in E.
  - inversion E. apply reach_start.
  - apply rbind_ok in E as (b1 & E1 & E2).
    eapply reachable_trans; [|apply IH; exact E2].
    eapply process_inner_reachable, E1.
Qed.

Lemma run_date_reachable (b b' : Backtester) (d : date) :
  run_date b d = Ok b' -> reachable b b'.
Proof.
  unfold run_date. intro E.
  apply rbind_ok in E as (cur & _ & E).
  destruct (Nat.ltb _ _); [inversion E; apply reach_start|].
  apply rbind_ok in E as (b1 & E1 & E2). inversion E2.
  apply reach_equity. eapply process_pairs_reachable, E1.
Qed.

Lemma run_dates_reachable (ds : list date) (b b' : Backtester) :
  run_dates b ds = Ok b' -> reachable b b'.
Proof.
  revert b. induction ds as [|d ds IH]; intros b E; simpl in E.
  - inversion E. apply reach_start.
  - apply rbind_ok in E as (b1 & E1 & E2).
    eapply reachable_trans; [|apply IH; exact E2].
    eapply run_date_reachable, E1.
Qed.

End EngineInvariants.

Lemma Backtester_init_state (cfg : Config) (pd : gmap asset (list row))
    (b0 : Backtester) :
  Backtester_init cfg pd = Ok b0 ->
  config b0 = cfg /\ price_data b0 = pd /\
  starting_capital b0 = starting_capital_cfg cfg /\
  current_capital b0 = starting_capital_cfg cfg /\
  equity_curve b0 = [] /\ trades b0 = [] /\ open_positions b0 = ∅ /\
  next_trade_id b0 = 0%nat /\ _get_common_dates pd = Ok (dates b0) /\
  dates b0 <> [].
Proof.
  unfold Backtester_init. intro E. apply rbind_ok in E as (ds & Eds & E).
  destruct ds as [|d ds]; [discriminate|]. inversion E; subst; simpl.
  repeat split; try reflexivity; [exact Eds|discriminate].
Qed.

Lemma Backtester_init_inv (cfg : Config) (pd : gmap asset (list row))
    (b0 : Backtester) :
  Backtester_init cfg pd = Ok b0 -> capital_inv b0 /\ positions_inv b0.
Proof.
  intro E. apply Backtester_init_state in E
    as (_ & _ & Hs & Hc & _ & Ht & Ho & Hi & _).
  unfold capital_inv, positions_inv. rewrite Hs, Hc, Ht, Ho, Hi. simpl.
  split; [ring|]. split; [reflexivity|].
  intros pk tr Hl. rewrite lookup_empty in Hl. discriminate.
Qed.

(** ** A worked run *)

Example run_pd_ex :
  run_summary (let* b := Backtester_init cfg_fee pd_ex in @run numlib_stub b) =
  Some (254%nat, [(LONG, 253%Z, Some 254%Z, Some 2007)], 102007, 0%nat).
Proof. vm_compute. reflexivity. Qed.

(** ** Capital *)

(** C2: from the state [__init__] builds, in every state the engine
    reaches, capital is the starting capital plus the net P&L of the trades
    closed so far, and so it is after any further dates are run; a call of
    [_process_pair] either leaves capital and the trade log alone or logs
    one closed trade and adds that trade's net P&L to capital, and an
    equity sample does not touch capital. *)
Theorem capital_is_start_plus_pnl `{NumLib} (cfg : Config)
    (pd : gmap asset (list row)) (b0 b : Backtester) :
  Backtester_init cfg pd = Ok b0 ->
  reachable b0 b ->
  current_capital b == starting_capital_cfg cfg + Qsum (map pnl_of (trades b)) /\
  (forall ds bf, run_dates b ds = Ok bf ->
     current_capital bf ==
       starting_capital_cfg cfg + Qsum (map pnl_of (trades bf))) /\
  (forall p1 p2 d cur b', _process_pair b p1 p2 d cur = Ok b' ->
     (current_capital b' = current_capital b /\ trades b' = trades b) \/
     (exists tr n, trades b' = trades b ++ [tr] /\ net_pnl tr = Some n /\
                   current_capital b' = current_capital b + n)) /\
  (forall d, current_capital (append_equity b d) = current_capital b /\
             trades (append_equity b d) = trades b).
Proof.
  intros Hinit Hr.
  pose proof (Backtester_init_inv _ _ _ Hinit) as [Hc0 Hp0].
  pose proof (Backtester_init_state _ _ _ Hinit) as (_ & _ & Hs0 & _).
  assert (Hall : forall b1, reachable b0 b1 ->
            current_capital b1 ==
              starting_capital_cfg cfg + Qsum (map pnl_of (trades b1))).
  { intros b1 Hr1.
    destruct (reachable_inv _ _ Hr1 Hc0 Hp0) as [Hc _].
    destruct (reachable_same_setup_but_equity _ _ Hr1) as (_ & _ & Hs & _).
    unfold capital_inv in Hc. rewrite Hs, Hs0 in Hc. exact Hc. }
  split; [apply Hall, Hr|]. split; [|split].
  - intros ds bf E. apply Hall.
    eapply reachable_trans; [exact Hr|]. eapply run_dates_reachable, E.
  - intros p1 p2 d cur b' E.
    apply _process_pair_step in E
      as [[->|tr _ _ _ _ _ _ _ Ht Hc|tr tr' n _ Hn _ _ _ Ht Hc] _].
    + left. split; reflexivity.
    + left. split; assumption.
    + right. exists tr', n. repeat split; assumption.
  - intro d. split; reflexivity.
Qed.

Lemma capital_is_start_plus_pnl_witness :
  Backtester_init cfg_fee pd_ex = Ok bt_ex0 /\
  @reachable numlib_stub bt_ex0 bt_ex /\
  length (trades bt_ex) = 1%nat /\
  current_capital bt_ex ==
    starting_capital_cfg cfg_fee + Qsum (map pnl_of (trades bt_ex)).
Proof.
  assert (H0 : Backtester_init cfg_fee pd_ex = Ok bt_ex0)
    by (vm_compute; reflexivity).
  assert (H1 : @run_dates numlib_stub bt_ex0 (dates bt_ex0) = Ok bt_ex)
    by (vm_compute; reflexivity).
  pose proof (@run_dates_reachable numlib_stub _ _ _ H1) as Hr.
  destruct (@capital_is_start_plus_pnl numlib_stub cfg_fee pd_ex bt_ex0 bt_ex
              H0 Hr) as [Hc _].
  split; [exact H0|]. split; [exact Hr|].
  split; [vm_compute; reflexivity|exact Hc].
Defined.

(** ** Positions *)

(** C1: from the state [__init__] builds, every state the engine reaches
    keeps at most one open position per pair: each open position sits under
    the key of its own pair, and the trades opened so far are exactly the
    open positions and the closed trades, so that none was overwritten.
    The signal is executed by state: BUY and SELL open a position only
    when the pair has none, CLOSE closes one only when the pair has one,
    and any other combination leaves the engine as it is. *)
Theorem one_open_position_per_pair `{NumLib} (cfg : Config)
    (pd : gmap asset (list row)) (b0 b : Backtester) :
  Backtester_init cfg pd = Ok b0 ->
  reachable b0 b ->
  (next_trade_id b = (size (open_positions b) + length (trades b))%nat /\
   forall pk tr, open_positions b !! pk = Some tr ->
     pair tr = pk /\ exit_time tr = None /\ (trade_id tr < next_trade_id b)%nat) /\
  (forall p1 p2 d sig spread hr,
     exists b', execute_signal b p1 p2 d sig spread hr = Ok b' /\
     match sig, open_positions b !! (p1, p2) with
     | BUY, None | SELL, None =>
         exists tr,
           open_positions b' = <[(p1, p2) := tr]> (open_positions b) /\
           pair tr = (p1, p2) /\ exit_time tr = None /\
           trade_side tr = (if sig is BUY then LONG else SHORT) /\
           trades b' = trades b
     | CLOSE, Some tr =>
         open_positions b' = delete (p1, p2) (open_positions b) /\
         exists tr', trades b' = trades b ++ [tr'] /\
                     trade_id tr' = trade_id tr /\ is_Some (exit_time tr')
     | _, _ => b' = b
     end).
Proof.
  intros Hinit Hr.
  pose proof (Backtester_init_inv _ _ _ Hinit) as [Hc0 Hp0].
  destruct (reachable_inv _ _ Hr Hc0 Hp0) as [_ Hp].
  split; [exact Hp|].
  intros p1 p2 d sig spread hr. unfold execute_signal.
  destruct (open_positions b !! (p1, p2)) as [tr|] eqn:Epos.
  - destruct sig; try (eexists; split; reflexivity).
    assert (Hget : getitem (open_positions b) (p1, p2) = Ok tr)
      by (apply getitem_ok; exact Epos).
    unfold _close_trade. cbv zeta. rewrite Hget. simpl.
    eexists. split; [reflexivity|]. simpl. split; [reflexivity|].
    eexists. split; [reflexivity|]. simpl. split; [reflexivity|].
    eexists. reflexivity.
  - destruct sig; try (eexists; split; reflexivity);
      (eexists; split; [reflexivity|]; simpl;
       eexists; repeat split; reflexivity).
Qed.

Lemma one_open_position_per_pair_witness :
  Backtester_init cfg_fee pd_ex = Ok bt_ex0 /\
  @reachable numlib_stub bt_ex0 bt_ex_mid /\
  size (open_positions bt_ex_mid) = 1%nat /\
  next_trade_id bt_ex_mid =
    (size (open_positions bt_ex_mid) + length (trades bt_ex_mid))%nat.
Proof.
  assert (H0 : Backtester_init cfg_fee pd_ex = Ok bt_ex0)
    by (vm_compute; reflexivity).
  assert (H1 : @run_dates numlib_stub bt_ex0 (take 253 (dates bt_ex0)) =
               Ok bt_ex_mid) by (vm_compute; reflexivity).
  pose proof (@run_dates_reachable numlib_stub _ _ _ H1) as Hr.
  destruct (@one_open_position_per_pair numlib_stub cfg_fee pd_ex bt_ex0
              bt_ex_mid H0 Hr) as [[Hc _] _].
  split; [exact H0|]. split; [exact Hr|].
  split; [vm_compute; reflexivity|exact Hc].
Defined.

(** ** A failing stationarity test *)

Lemma not_cointegrated_untraded `{NumLib} (b : Backtester) (p1 p2 : asset)
    (d : date) (cur : gmap asset Q) (df1 df2 : list row) (cr : coint_result) :
  price_data b !! p1 = Some df1 ->
  price_data b !! p2 = Some df2 ->
  test_cointegration (min_pvalue (config b)) (closes_upto df1 d)
                     (closes_upto df2 d) 252 = Ok cr ->
  cointegrated cr = false ->
  _process_pair b p1 p2 d cur = Ok b.
Proof.
  intros H1 H2 Hcr Hc. unfold _process_pair.
  apply getitem_ok in H1, H2. rewrite H1, H2. simpl.
  destruct (_ || _); [reflexivity|].
  rewrite Hcr. simpl. rewrite Hc. reflexivity.
Qed.

(** C8: when [adfuller] raises on the spread of the test window,
    [test_cointegration] returns a result that is not cointegrated, carries
    the reason ["ADF test failed"] and leaves the p-value, the spread mean
    and the spread deviation unset ([None]) beside the hedge ratio it had
    computed; and [_process_pair], given that result, returns with the
    engine unchanged: the pair is not traded on that date and nothing is
    raised. *)
Theorem adf_failure_untraded `{NumLib} (mp : Q) (price1 price2 : list Q)
    (lookback : nat) (hr : Q) :
  calculate_hedge_ratio (test_window lookback price1 price1)
                        (test_window lookback price1 price2) = Ok hr ->
  adfuller (calculate_spread_arr (test_window lookback price1 price1)
                                 (test_window lookback price1 price2) hr) = None ->
  (exists cr,
     test_cointegration mp price1 price2 lookback = Ok cr /\
     cointegrated cr = false /\
     error cr = Some "ADF test failed"%string /\
     adf_pvalue cr = None /\ spread_mean cr = None /\ spread_std cr = None /\
     cr_hedge_ratio cr = hr) /\
  (forall b p1 p2 d cur df1 df2,
     lookback = 252%nat -> mp = min_pvalue (config b) ->
     price_data b !! p1 = Some df1 -> price_data b !! p2 = Some df2 ->
     closes_upto df1 d = price1 -> closes_upto df2 d = price2 ->
     _process_pair b p1 p2 d cur = Ok b).
Proof.
  intros Hhr Hadf.
  assert (Hcr : test_cointegration mp price1 price2 lookback =
                Ok (mkCoint false None None hr None None None None
                            (Some "ADF test failed"%string))).
  { unfold test_cointegration. cbv zeta. rewrite Hhr. simpl.
    unfold adf_test. rewrite Hadf. reflexivity. }
  split.
  - eexists. split; [exact Hcr|]. repeat split.
  - intros b p1 p2 d cur df1 df2 -> -> H1 H2 <- <-.
    eapply not_cointegrated_untraded; [exact H1|exact H2|exact Hcr|reflexivity].
Qed.

Lemma adf_failure_untraded_witness :
  exists cr,
    @test_cointegration numlib_failing (1 # 20) [1; 2; 3] [2; 4; 7] 252 = Ok cr /\
    cointegrated cr = false /\
    error cr = Some "ADF test failed"%string /\
    adf_pvalue cr = None /\ spread_mean cr = None /\ spread_std cr = None /\
    cr_hedge_ratio cr = 1.
Proof.
  destruct (@adf_failure_untraded numlib_failing (1 # 20) [1; 2; 3] [2; 4; 7]
              252 1) as [Hcr _]; [reflexivity|reflexivity|].
  exact Hcr.
Defined.

Example adf_failure_in_run :
  run_summary (let* b := Backtester_init cfg_fee pd_ex in @run numlib_failing b) =
  Some (254%nat, [], 100000, 0%nat).
Proof. vm_compute. reflexivity. Qed.

(** ** Prices of a date *)

Section Prices.
Context `{NumLib}.

Lemma collect_prices_total (b : Backtester) (d : date) (ps : list asset)
    (acc : gmap asset Q) :
  (forall a, a ∈ ps -> is_Some (price_data b !! a)) ->
  exists m, collect_prices b d ps acc = Ok m.
Proof.
  revert acc. induction ps as [|a ps IH]; intros acc Hall; simpl.
  - eexists. reflexivity.
  - destruct (Hall a) as [df Hdf]; [left|].
    assert (Hrest : forall a', a' ∈ ps -> is_Some (price_data b !! a'))
      by (intros a' Ha'; apply Hall; right; exact Ha').
    unfold _get_price_at_date. apply getitem_ok in Hdf. rewrite Hdf. simpl.
    destruct (filter _ df) as [|r rs]; simpl; [apply IH, Hrest|].
    destruct (Qeq_bool (close r) 0); apply IH, Hrest.
Qed.

Lemma collect_prices_size (b : Backtester) (d : date) (ps : list asset)
    (acc m : gmap asset Q) :
  collect_prices b d ps acc = Ok m ->
  (size m <= size acc + length ps)%nat.
Proof.
  revert acc. induction ps as [|a ps IH]; intros acc E; simpl in E.
  - inversion E. simpl. lia.
  - apply rbind_ok in E as (price & _ & E). simpl.
    assert (Hins : forall p, (size (<[a := p]> acc) <= S (size acc))%nat).
    { intro p. destruct (acc !! a) eqn:Ea.
      - rewrite map_size_insert_Some by (eexists; exact Ea). lia.
      - rewrite map_size_insert_None by exact Ea. lia. }
    destruct price as [p|]; [destruct (Qeq_bool p 0)|];
      apply IH in E; try lia.
    specialize (Hins p). lia.
Qed.

Lemma collect_prices_zero (b : Backtester) (d : date) (ps : list asset)
    (acc m : gmap asset Q) (a : asset) (p : Q) :
  a ∈ ps ->
  _get_price_at_date b a d = Ok (Some p) -> p == 0 ->
  collect_prices b d ps acc = Ok m ->
  (size m < size acc + length ps)%nat.
Proof.
  intros Ha Hp Hz. revert acc.
  induction ps as [|x ps IH]; intros acc E; [inversion Ha|].
  simpl in E. simpl.
  destruct (decide (x = a)) as [->|Hne].
  - rewrite Hp in E. simpl in E.
    apply Qeq_bool_iff in Hz. rewrite Hz in E.
    apply collect_prices_size in E. lia.
  - assert (Ha' : a ∈ ps).
    { apply elem_of_cons in Ha as [Heq|Hin]; [congruence|exact Hin]. }
    apply rbind_ok in E as (price & _ & E).
    assert (Hins : forall q, (size (<[x := q]> acc) <= S (size acc))%nat).
    { intro q. destruct (acc !! x) eqn:Ea.
      - rewrite map_size_insert_Some by (eexists; exact Ea). lia.
      - rewrite map_size_insert_None by exact Ea. lia. }
    destruct price as [q|]; [destruct (Qeq_bool q 0)|];
      apply (IH Ha') in E; try lia.
    specialize (Hins q). lia.
Qed.

(** C10: when every configured asset has price data and one of them has
    a close of 0 on a date, the iteration of [run] for that date leaves
    the backtester as it was: [_process_pair] is called for no pair and
    no equity sample is appended, so that running the date and the
    dates after it is running the dates after it. *)
Theorem zero_price_skips_date (b : Backtester) (d : date) (a : asset) (p : Q) :
  (forall a', a' ∈ pairs (config b) -> is_Some (price_data b !! a')) ->
  a ∈ pairs (config b) ->
  _get_price_at_date b a d = Ok (Some p) ->
  p == 0 ->
  run_date b d = Ok b /\
  (forall ds, run_dates b (d :: ds) = run_dates b ds).
Proof.
  intros Hall Ha Hp Hz.
  assert (Hd : run_date b d = Ok b).
  { unfold run_date.
    destruct (collect_prices_total b d (pairs (config b)) ∅ Hall) as [m Hm].
    rewrite Hm. simpl.
    pose proof (collect_prices_zero _ _ _ _ _ _ _ Ha Hp Hz Hm) as Hlt.
    rewrite map_size_empty in Hlt. simpl in Hlt.
    apply Nat.ltb_lt in Hlt. rewrite Hlt. reflexivity. }
  split; [exact Hd|].
  intro ds. simpl. rewrite Hd. reflexivity.
Qed.

End Prices.

Example bt_zero_dates : dates bt_zero = [1; 2; 3]%Z.
Proof. vm_compute. reflexivity. Qed.

Lemma zero_price_skips_date_witness :
  @run_date numlib_stub bt_zero 2 = Ok bt_zero /\
  (forall ds, @run_dates numlib_stub bt_zero (2%Z :: ds) =
              @run_dates numlib_stub bt_zero ds).
Proof.
  apply (@zero_price_skips_date numlib_stub bt_zero 2 "A"%string 0).
  - intros a' Ha'. vm_compute in Ha'.
    apply elem_of_cons in Ha' as [->|Ha']; [vm_compute; eexists; reflexivity|].
    apply elem_of_cons in Ha' as [->|Ha']; [vm_compute; eexists; reflexivity|].
    inversion Ha'.
  - vm_compute. left.
  - vm_compute. reflexivity.
  - reflexivity.
Defined.

(** ** Common dates *)

Lemma elem_of_fold_intersection (rest : list (list Z)) (s : list Z) (x : Z) :
  x ∈ fold_left list_intersection rest s <-> x ∈ s /\ Forall (fun k => x ∈ k) rest.
Proof.
  revert s. induction rest as [|k rest IH]; intro s; simpl.
  - split; [intro Hx; split; [exact Hx|constructor]|intros [Hx _]; exact Hx].
  - rewrite IH, list_elem_of_intersection, Forall_cons. tauto.
Qed.

Lemma NoDup_fold_intersection (rest : list (list Z)) (s : list Z) :
  NoDup s -> NoDup (fold_left list_intersection rest s).
Proof.
  revert s. induction rest as [|k rest IH]; intros s Hs; simpl; [exact Hs|].
  apply IH, NoDup_list_intersection, Hs.
Qed.

(** The dates [__init__] keeps are in ascending order, without repetition,
    and are the dates on which every asset of the price data has a row. *)
Lemma _get_common_dates_spec (pd : gmap asset (list row)) (ds : list date) :
  _get_common_dates pd = Ok ds ->
  Sorted Z.le ds /\ NoDup ds /\
  forall x : Z, x ∈ ds <->
    forall (a : asset) (df : list row), pd !! a = Some df -> x ∈ map timestamp df.
Proof.
  unfold _get_common_dates. intro E. apply rbind_ok in E as (common & Ec & E).
  inversion E; subst ds; clear E. unfold sorted.
  split; [apply Sorted_merge_sort; apply _|].
  unfold set_intersection in Ec.
  destruct (map _ (map_to_list pd)) as [|s rest] eqn:El; [discriminate|].
  inversion Ec; subst common; clear Ec.
  assert (Hs : NoDup s).
  { assert (Hin : s ∈ map (fun kv : asset * list row => date_set (snd kv))
                         (map_to_list pd)) by (rewrite El; left).
    apply list_elem_of_fmap in Hin as (kv & -> & _). apply NoDup_remove_dups. }
  split.
  - rewrite merge_sort_Permutation. apply NoDup_fold_intersection, Hs.
  - intro x. rewrite merge_sort_Permutation, elem_of_fold_intersection.
    rewrite <- Forall_cons, <- El, Forall_fmap, Forall_forall.
    split.
    + intros Hall a df Hl.
      specialize (Hall (a, df)). simpl in Hall.
      unfold date_set in Hall. rewrite elem_of_remove_dups in Hall.
      apply Hall. apply elem_of_map_to_list. exact Hl.
    + intros Hall [a df] Hin. simpl.
      unfold date_set. rewrite elem_of_remove_dups.
      eapply Hall. apply elem_of_map_to_list. exact Hin.
Qed.

(** ** Runs that complete *)

Lemma length_last_n {A : Type} (n : nat) (l : list A) :
  length (last_n n l) =
  if Nat.eqb n 0 then length l else Nat.min n (length l).
Proof.
  unfold last_n. destruct (Nat.eqb n 0); [reflexivity|].
  rewrite length_drop. lia.
Qed.

Lemma generate_signal_total (sg : SignalGenerator) (z : Q) (pos : bool) :
  ~ entry_threshold sg == 0 ->
  exists sr, generate_signal sg z pos = Ok sr.
Proof.
  intro Hne. unfold generate_signal.
  destruct (pos && Qltb (Qabs z) (exit_threshold sg)) eqn:Ec.
  - apply andb_true_iff in Ec as [_ Ec]. apply Qltb_lt in Ec.
    assert (Hx : 0 < exit_threshold sg)
      by (eapply Qle_lt_trans; [apply Qabs_nonneg|exact Ec]).
    rewrite (py_div_ok _ _ (Qpos_nonzero _ Hx)). eexists. reflexivity.
  - destruct (negb pos); [|eexists; reflexivity].
    rewrite (py_div_ok _ _ Hne).
    destruct (Qltb z (- entry_threshold sg)); [eexists; reflexivity|].
    destruct (Qltb (entry_threshold sg) z); eexists; reflexivity.
Qed.

Lemma execute_signal_total (b : Backtester) (p1 p2 : asset) (d : date)
    (sig : Signal) (spread hr : Q) :
  exists b', execute_signal b p1 p2 d sig spread hr = Ok b'.
Proof.
  unfold execute_signal.
  destruct (open_positions b !! (p1, p2)) as [tr|] eqn:Epos.
  - destruct sig; try (eexists; reflexivity).
    assert (Hget : getitem (open_positions b) (p1, p2) = Ok tr)
      by (apply getitem_ok; exact Epos).
    unfold _close_trade. cbv zeta. rewrite Hget. eexists. reflexivity.
  - destruct sig; eexists; reflexivity.
Qed.

Section RunCompletes.
Context `{NumLib}.

Lemma test_cointegration_windows (mp : Q) (price1 price2 : list Q)
    (lookback : nat) :
  length (test_window lookback price1 price1) =
    length (test_window lookback price1 price2) ->
  exists cr, test_cointegration mp price1 price2 lookback = Ok cr /\
    (cointegrated cr = true ->
     is_Some (spread_mean cr) /\ is_Some (spread_std cr)).
Proof.
  intro Hw. unfold test_cointegration. cbv zeta.
  unfold calculate_hedge_ratio. apply Nat.eqb_eq in Hw. rewrite Hw. simpl.
  destruct (adf_test _) as [adf|].
  - eexists. split; [reflexivity|]. simpl. intros _. split; eexists; reflexivity.
  - eexists. split; [reflexivity|]. simpl. discriminate.
Qed.

Lemma test_cointegration_total (mp : Q) (price1 price2 : list Q) (lookback : nat) :
  length price1 = length price2 ->
  exists cr, test_cointegration mp price1 price2 lookback = Ok cr /\
    (cointegrated cr = true ->
     is_Some (spread_mean cr) /\ is_Some (spread_std cr)).
Proof.
  intro Hlen. apply test_cointegration_windows.
  unfold test_window. destruct (Nat.ltb lookback (length price1));
    [|exact Hlen].
  rewrite !length_last_n. destruct (Nat.eqb lookback 0); lia.
Qed.





End RunCompletes.

Section EquityCurve.
Context `{NumLib}.




End EquityCurve.




(** ** The equity curve *)




(* ===================================================================== *)
(** * Further properties *)

(** ** Signals: entries, exits and directions *)

Lemma Qabs_gt_iff (e z : Q) : e < Qabs z <-> z < - e \/ e < z.
Proof.
  split.
  - intro Hlt. revert Hlt. apply (Qabs_case z (fun a => e < a -> z < - e \/ e < z)).
    + intros _ Hz. right. exact Hz.
    + intros _ Hz. left. apply Qopp_lt_compat in Hz.
      rewrite Qopp_involutive in Hz. exact Hz.
  - intros [Hz|Hz].
    + rewrite <- Qabs_opp. apply Qabs_gt. apply Qopp_lt_compat in Hz.
      rewrite Qopp_involutive in Hz. exact Hz.
    + apply Qabs_gt. exact Hz.
Qed.

(** X1: for a flat pair, whatever the thresholds, the signal that
    [generate_signal] returns agrees with [get_signal_direction] and
    [should_enter]: BUY exactly when the direction is LONG, SELL exactly
    when it is SHORT, HOLD exactly when there is none, and a direction
    exists exactly when [should_enter] holds; CLOSE is never returned. *)
Theorem flat_signal_matches_direction (sg : SignalGenerator) (z : Q)
    (r : signal_result) :
  generate_signal sg z false = Ok r ->
  (signal r = BUY <-> get_signal_direction sg z = Some LONG) /\
  (signal r = SELL <-> get_signal_direction sg z = Some SHORT) /\
  (signal r = HOLD <-> get_signal_direction sg z = None) /\
  signal r <> CLOSE /\
  (should_enter sg z = true <-> is_Some (get_signal_direction sg z)).
Proof.
  intro Hr. apply generate_signal_signal in Hr. rewrite Hr.
  unfold decide_signal, get_signal_direction, should_enter.
  assert (Hent : Qltb (entry_threshold sg) (Qabs z) = true <->
                 Qltb z (- entry_threshold sg) = true \/
                 Qltb (entry_threshold sg) z = true).
  { rewrite !Qltb_lt. apply Qabs_gt_iff. }
  destruct (Qltb z (- entry_threshold sg)) eqn:Eb;
    [|destruct (Qltb (entry_threshold sg) z) eqn:Es].
  - repeat split; try discriminate; try reflexivity; try (intros _; eexists; reflexivity).
    intros _. apply Hent. left. reflexivity.
  - repeat split; try discriminate; try reflexivity; try (intros _; eexists; reflexivity).
    intros _. apply Hent. right. reflexivity.
  - repeat split; try discriminate; try reflexivity.
    + intro Hs. apply Hent in Hs as [Hs|Hs]; discriminate.
    + intros [x Hx]. discriminate.
Qed.

Lemma flat_signal_matches_direction_witness :
  exists r,
    generate_signal (mkSignalGenerator 2 (1 # 2)) (5 # 2) false = Ok r /\
    (signal r = SELL <->
     get_signal_direction (mkSignalGenerator 2 (1 # 2)) (5 # 2) = Some SHORT).
Proof.
  eexists. split; [reflexivity|].
  eapply (flat_signal_matches_direction (mkSignalGenerator 2 (1 # 2)) (5 # 2)).
  reflexivity.
Defined.

(** X2: for a pair in position, the signal is CLOSE exactly when
    [should_exit] holds and HOLD otherwise: no entry signal is returned
    while a position is open. *)
Theorem in_position_signal (sg : SignalGenerator) (z : Q) (r : signal_result) :
  generate_signal sg z true = Ok r ->
  (signal r = CLOSE <-> should_exit sg z = true) /\
  (signal r = HOLD <-> should_exit sg z = false) /\
  signal r <> BUY /\ signal r <> SELL.
Proof.
  intro Hr. apply generate_signal_signal in Hr. rewrite Hr.
  unfold decide_signal, should_exit.
  destruct (Qltb (Qabs z) (exit_threshold sg));
    repeat split; try discriminate; reflexivity.
Qed.

Lemma in_position_signal_witness :
  exists r,
    generate_signal (mkSignalGenerator 2 (1 # 2)) (-3 # 10) true = Ok r /\
    (signal r = CLOSE <->
     should_exit (mkSignalGenerator 2 (1 # 2)) (-3 # 10) = true).
Proof.
  eexists. split; [reflexivity|].
  eapply (in_position_signal (mkSignalGenerator 2 (1 # 2)) (-3 # 10)).
  reflexivity.
Defined.

(** X3: when the exit threshold does not exceed the entry threshold, a
    z-score that opens a position does not close it: if the flat signal is
    BUY or SELL, the signal for the same z-score with the position open is
    HOLD. *)
Theorem entry_does_not_exit (sg : SignalGenerator) (z : Q) (r r' : signal_result) :
  exit_threshold sg <= entry_threshold sg ->
  generate_signal sg z false = Ok r ->
  generate_signal sg z true = Ok r' ->
  signal r = BUY \/ signal r = SELL ->
  signal r' = HOLD.
Proof.
  intros Hle Hr Hr' Hentry.
  pose proof (flat_signal_matches_direction sg z r Hr)
    as (Hb & Hs & _ & _ & Hen).
  assert (Hin : should_enter sg z = true).
  { apply Hen. destruct Hentry as [E|E]; [apply Hb in E|apply Hs in E];
      rewrite E; eexists; reflexivity. }
  apply (in_position_signal sg z r' Hr'). unfold should_exit.
  apply Qltb_ge. unfold should_enter in Hin. apply Qltb_lt in Hin.
  apply Qlt_le_weak. eapply Qle_lt_trans; [exact Hle|exact Hin].
Qed.

Lemma entry_does_not_exit_witness :
  exists r r',
    generate_signal (mkSignalGenerator 2 (1 # 2)) (-5 # 2) false = Ok r /\
    generate_signal (mkSignalGenerator 2 (1 # 2)) (-5 # 2) true = Ok r' /\
    signal r = BUY /\ signal r' = HOLD.
Proof.
  eexists. eexists. split; [reflexivity|]. split; [reflexivity|].
  split; [reflexivity|].
  eapply (entry_does_not_exit (mkSignalGenerator 2 (1 # 2)) (-5 # 2)).
  - discriminate.
  - reflexivity.
  - reflexivity.
  - left. reflexivity.
Defined.

(** ** Signals: batches and threshold updates *)

Lemma signals_from_spec (sg : SignalGenerator) (zs : list Q)
    (positions : list (option side)) (i : nat) (rs : list signal_result) :
  signals_from sg i zs positions = Ok rs ->
  length rs = length zs /\
  forall (k : nat) (z : Q), zs !! k = Some z ->
    exists r p, rs !! k = Some r /\
      position_at positions (i + k) = Ok p /\
      generate_signal sg z (bool_decide (is_Some p)) = Ok r.
Proof.
  revert i rs. induction zs as [|z zs IH]; intros i rs E; simpl in E.
  - inversion E. split; [reflexivity|]. intros k z Hk. discriminate.
  - apply rbind_ok in E as (p & Hp & E).
    apply rbind_ok in E as (s & Hs & E).
    apply rbind_ok in E as (rest & Hrest & E). inversion E; subst rs; clear E.
    destruct (IH _ _ Hrest) as [Hlen Hall]. split; [simpl; lia|].
    intros [|k] z' Hk; simpl in Hk.
    + inversion Hk; subst z'. exists s, p. rewrite Nat.add_0_r. repeat split; assumption.
    + destruct (Hall k z' Hk) as (r & p' & Hr & Hp' & Hg).
      exists r, p'. replace (i + S k)%nat with (S i + k)%nat by lia.
      repeat split; assumption.
Qed.

(** X4: when [generate_signals_batch] returns, it returns one signal per
    z-score, in order, each the result of [generate_signal] on that z-score
    and on the truth value of the position at the same index (no position
    when [positions] is empty). *)
Theorem generate_signals_batch_pointwise (sg : SignalGenerator) (zs : list Q)
    (positions : list (option side)) (rs : list signal_result) :
  generate_signals_batch sg zs positions = Ok rs ->
  length rs = length zs /\
  forall (k : nat) (z : Q), zs !! k = Some z ->
    exists r, rs !! k = Some r /\
      generate_signal sg z
        (bool_decide (is_Some (default None (positions !! k)))) = Ok r.
Proof.
  intro E. apply signals_from_spec in E as [Hlen Hall]. split; [exact Hlen|].
  intros k z Hk. destruct (Hall k z Hk) as (r & p & Hr & Hp & Hg).
  exists r. split; [exact Hr|]. simpl in Hp. unfold position_at in Hp.
  destruct positions as [|p0 ps]; [inversion Hp; subst p; exact Hg|].
  destruct ((p0 :: ps) !! k) as [q|]; [|discriminate].
  inversion Hp; subst p. exact Hg.
Qed.

Lemma generate_signals_batch_pointwise_witness :
  exists rs,
    generate_signals_batch (mkSignalGenerator 2 (1 # 2)) [-5 # 2; 1 # 10; 3]
                           [None; Some LONG; Some LONG] = Ok rs /\
    map signal rs = [BUY; CLOSE; HOLD] /\
    length rs = 3%nat.
Proof.
  eexists. split; [reflexivity|]. split; [reflexivity|].
  eapply (generate_signals_batch_pointwise (mkSignalGenerator 2 (1 # 2))
            [-5 # 2; 1 # 10; 3] [None; Some LONG; Some LONG]).
  reflexivity.
Defined.

Lemma signals_from_short (sg : SignalGenerator) (zs : list Q)
    (positions : list (option side)) (i : nat) :
  ~ entry_threshold sg == 0 ->
  positions <> [] ->
  (i <= length positions < i + length zs)%nat ->
  signals_from sg i zs positions = Err IndexError.
Proof.
  intros Hne Hnil. revert i. induction zs as [|z zs IH]; intros i Hi; simpl in *.
  - lia.
  - unfold position_at. destruct positions as [|p0 ps]; [contradiction|].
    destruct ((p0 :: ps) !! i) as [p|] eqn:Ep; simpl.
    + destruct (generate_signal_total sg z (bool_decide (is_Some p)) Hne) as [s Hs].
      rewrite Hs. simpl.
      apply lookup_lt_Some in Ep.
      rewrite IH; [reflexivity|]. simpl in *. lia.
    + reflexivity.
Qed.

(** X5: with a nonzero entry threshold, [generate_signals_batch] on a
    non-empty list of positions that is shorter than the list of z-scores
    raises IndexError. *)
Theorem generate_signals_batch_short_positions (sg : SignalGenerator)
    (zs : list Q) (positions : list (option side)) :
  ~ entry_threshold sg == 0 ->
  positions <> [] ->
  (length positions < length zs)%nat ->
  generate_signals_batch sg zs positions = Err IndexError.
Proof.
  intros Hne Hnil Hlen. apply signals_from_short; [exact Hne|exact Hnil|lia].
Qed.

Lemma generate_signals_batch_short_positions_witness :
  generate_signals_batch (mkSignalGenerator 2 (1 # 2)) [-5 # 2; 1 # 10; 3]
                         [None; Some LONG] = Err IndexError.
Proof.
  apply generate_signals_batch_short_positions.
  - simpl. intro Hz. discriminate Hz.
  - discriminate.
  - simpl. lia.
Defined.

(** X6: [update_thresholds] replaces a threshold by an argument that is a
    nonzero number and keeps it when the argument is missing or is 0, each
    threshold independently of the other; so a nonzero threshold is never
    made 0. *)
Theorem update_thresholds_ignores_zero (sg : SignalGenerator)
    (entry exit_ : option Q) :
  entry_threshold (update_thresholds sg entry exit_) =
    (if truthy entry then default 0 entry else entry_threshold sg) /\
  exit_threshold (update_thresholds sg entry exit_) =
    (if truthy exit_ then default 0 exit_ else exit_threshold sg) /\
  (~ entry_threshold sg == 0 ->
   ~ entry_threshold (update_thresholds sg entry exit_) == 0) /\
  (~ exit_threshold sg == 0 ->
   ~ exit_threshold (update_thresholds sg entry exit_) == 0).
Proof.
  assert (He : entry_threshold (update_thresholds sg entry exit_) =
               (if truthy entry then default 0 entry else entry_threshold sg)).
  { unfold update_thresholds.
    destruct entry as [e|], exit_ as [x|]; simpl;
      repeat (match goal with |- context [Qeq_bool ?a 0] => destruct (Qeq_bool a 0) end;
              simpl); reflexivity. }
  assert (Hx : exit_threshold (update_thresholds sg entry exit_) =
               (if truthy exit_ then default 0 exit_ else exit_threshold sg)).
  { unfold update_thresholds.
    destruct entry as [e|], exit_ as [x|]; simpl;
      repeat (match goal with |- context [Qeq_bool ?a 0] => destruct (Qeq_bool a 0) end;
              simpl); reflexivity. }
  split; [exact He|]. split; [exact Hx|]. split.
  - intro Hne. rewrite He. destruct entry as [e|]; simpl; [|exact Hne].
    destruct (Qeq_bool e 0) eqn:E; simpl; [exact Hne|].
    apply Qeq_bool_false. exact E.
  - intro Hne. rewrite Hx. destruct exit_ as [x|]; simpl; [|exact Hne].
    destruct (Qeq_bool x 0) eqn:E; simpl; [exact Hne|].
    apply Qeq_bool_false. exact E.
Qed.

Example update_thresholds_zero :
  update_thresholds (mkSignalGenerator 2 (1 # 2)) (Some 0) (Some 1) =
  mkSignalGenerator 2 1.
Proof. reflexivity. Qed.

(** ** Cointegration: the test window *)

Lemma test_window_drop (lookback : nat) (price1 : list Q) :
  (0 < lookback)%nat ->
  test_window lookback price1 price1 = drop (length price1 - lookback) price1.
Proof.
  intro Hlb. unfold test_window, last_n.
  destruct (Nat.eqb_neq lookback 0) as [_ Hz]. rewrite Hz by lia.
  destruct (Nat.ltb lookback (length price1)) eqn:E; [reflexivity|].
  apply Nat.ltb_ge in E. replace (length price1 - lookback)%nat with 0%nat by lia.
  reflexivity.
Qed.

Lemma length_test_window (lookback : nat) (price1 price : list Q) :
  (0 < lookback)%nat ->
  length (test_window lookback price1 price) =
  if Nat.ltb lookback (length price1)
  then Nat.min lookback (length price) else length price.
Proof.
  intro Hlb. unfold test_window.
  destruct (Nat.ltb lookback (length price1)); [|reflexivity].
  rewrite length_last_n. destruct (Nat.eqb_neq lookback 0) as [_ Hz].
  rewrite Hz by lia. reflexivity.
Qed.

Section CointegrationWindow.
Context `{NumLib}.

(** X7: when [test_cointegration] returns with a p-value, the test was run
    on the last [min(lookback, len(price1))] observations of the first
    series, never more: that is the number it reports as
    [lookback_periods], the hedge ratio is the regression slope on that
    window, the mean and deviation are those of the window's spread, and
    [cointegrated] is whether the p-value is below [min_pvalue]. *)
Theorem test_cointegration_never_pads (mp : Q) (price1 price2 : list Q)
    (lookback : nat) (cr : coint_result) (pv : Q) :
  (0 < lookback)%nat ->
  test_cointegration mp price1 price2 lookback = Ok cr ->
  adf_pvalue cr = Some pv ->
  let w1 := drop (length price1 - lookback) price1 in
  let w2 := test_window lookback price1 price2 in
  lookback_periods cr = Some (Nat.min lookback (length price1)) /\
  length w1 = Nat.min lookback (length price1) /\
  length w2 = length w1 /\
  cr_hedge_ratio cr = lstsq_slope w1 w2 /\
  spread_mean cr = Some (np_mean (calculate_spread_arr w1 w2 (cr_hedge_ratio cr))) /\
  spread_std cr = Some (np_std (calculate_spread_arr w1 w2 (cr_hedge_ratio cr))) /\
  (cointegrated cr = true <-> pv < mp) /\
  error cr = None.
Proof.
  intros Hlb E Hpv w1 w2. unfold test_cointegration in E. cbv zeta in E.
  apply rbind_ok in E as (hr & Hhr & E).
  unfold calculate_hedge_ratio in Hhr.
  destruct (Nat.eqb _ _) eqn:Elen in Hhr; [|discriminate].
  apply Nat.eqb_eq in Elen. inversion Hhr; subst hr; clear Hhr.
  rewrite (test_window_drop _ _ Hlb) in *. fold w1 w2 in E, Elen |- *.
  assert (Hw1 : length w1 = Nat.min lookback (length price1))
    by (unfold w1; rewrite length_drop; lia).
  destruct (adf_test _) as [adf|] eqn:Eadf;
    inversion E; subst cr; clear E; simpl in *; [|discriminate].
  inversion Hpv; subst pv.
  split; [rewrite Hw1; reflexivity|]. split; [exact Hw1|].
  split; [symmetry; exact Elen|].
  split; [reflexivity|]. split; [reflexivity|]. split; [reflexivity|].
  split; [apply Qltb_lt|reflexivity].
Qed.

(** X8: [test_cointegration] raises exactly when the two windows differ in
    length, in which case it raises LinAlgError: either the first series is
    no longer than [lookback] and the second has another length, or the
    first is longer than [lookback] and the second shorter than it. *)
Theorem test_cointegration_raises_iff (mp : Q) (price1 price2 : list Q)
    (lookback : nat) :
  (0 < lookback)%nat ->
  (test_cointegration mp price1 price2 lookback = Err LinAlgError <->
   ((length price1 <= lookback)%nat /\ length price1 <> length price2) \/
   ((lookback < length price1)%nat /\ (length price2 < lookback)%nat)) /\
  (forall e, test_cointegration mp price1 price2 lookback = Err e ->
             e = LinAlgError).
Proof.
  intros Hlb. unfold test_cointegration. cbv zeta. unfold calculate_hedge_ratio.
  rewrite !(length_test_window _ _ _ Hlb).
  destruct (Nat.ltb lookback (length price1)) eqn:Elt.
  - apply Nat.ltb_lt in Elt.
    destruct (Nat.eqb _ _) eqn:Elen; simpl.
    + apply Nat.eqb_eq in Elen. split.
      * split; [destruct (adf_test _); discriminate|]. intros [[? ?]|[? ?]]; lia.
      * intros e. destruct (adf_test _); discriminate.
    + apply Nat.eqb_neq in Elen. split; [|intros e Ee; congruence].
      split; [|reflexivity]. intros _. right. lia.
  - apply Nat.ltb_ge in Elt.
    destruct (Nat.eqb _ _) eqn:Elen; simpl.
    + apply Nat.eqb_eq in Elen. split.
      * split; [destruct (adf_test _); discriminate|]. intros [[? ?]|[? ?]]; lia.
      * intros e. destruct (adf_test _); discriminate.
    + apply Nat.eqb_neq in Elen. split; [|intros e Ee; congruence].
      split; [|reflexivity]. intros _. left. lia.
Qed.

End CointegrationWindow.

Lemma test_cointegration_never_pads_witness :
  exists cr,
    @test_cointegration numlib_stub (1 # 20) [1; 2; 3; 4; 5] [2; 4; 7; 8; 9] 3 = Ok cr /\
    lookback_periods cr = Some 3%nat /\
    spread_mean cr = Some (np_mean [3 - 1 * 7; 4 - 1 * 8; 5 - 1 * 9]).
Proof.
  assert (E : exists cr,
             @test_cointegration numlib_stub (1 # 20) [1; 2; 3; 4; 5]
                                 [2; 4; 7; 8; 9] 3 = Ok cr /\
             adf_pvalue cr = Some (1 # 100))
    by (eexists; split; reflexivity).
  destruct E as (cr & E & Hpv). exists cr. split; [exact E|].
  destruct (@test_cointegration_never_pads numlib_stub (1 # 20)
              [1; 2; 3; 4; 5] [2; 4; 7; 8; 9] 3 cr (1 # 100))
    as (Hlp & _ & _ & Hhr & Hm & _); [lia|exact E|exact Hpv|].
  split; [exact Hlp|].
  rewrite Hm. rewrite Hhr. reflexivity.
Defined.

Lemma test_cointegration_raises_iff_witness :
  @test_cointegration numlib_stub (1 # 20) [1; 2; 3] [2; 4; 7; 8] 3 =
    Err LinAlgError.
Proof.
  apply (@test_cointegration_raises_iff numlib_stub (1 # 20) [1; 2; 3]
           [2; 4; 7; 8] 3); [lia|].
  left. simpl. split; [lia|discriminate].
Defined.

Example test_cointegration_unequal :
  @test_cointegration numlib_stub (1 # 20) [1; 2; 3] [2; 4; 7; 8] 3 =
    Err LinAlgError /\
  exists cr, @test_cointegration numlib_stub (1 # 20) [1; 2; 3; 4] [2; 4; 7] 3 =
    Ok cr.
Proof. split; [reflexivity|eexists; reflexivity]. Qed.

(** ** Cointegration: several pairs *)

Section MultiplePairsProperties.
Context `{NumLib}.

Lemma test_pairs_from_spec (mp : Q) (pd : gmap asset (list row))
    (prs : list pair_key) (lookback : nat)
    (acc results : gmap pair_key coint_result) :
  test_pairs_from mp pd prs lookback acc = Ok results ->
  (forall k cr, acc !! k = Some cr -> is_Some (adf_pvalue cr)) ->
  (forall k cr, results !! k = Some cr -> is_Some (adf_pvalue cr)) /\
  (forall k, is_Some (acc !! k) -> is_Some (results !! k)) /\
  (forall a1 a2, (a1, a2) ∈ prs ->
     is_Some (pd !! a1) -> is_Some (pd !! a2) -> is_Some (results !! (a1, a2))) /\
  (forall a1 a2, is_Some (results !! (a1, a2)) ->
     is_Some (acc !! (a1, a2)) \/
     ((a1, a2) ∈ prs /\ is_Some (pd !! a1) /\ is_Some (pd !! a2))).
Proof.
  revert acc. induction prs as [|[p1 p2] rest IH]; intros acc E Hacc; simpl in E.
  - inversion E; subst results. split; [exact Hacc|]. split; [tauto|].
    split; [intros a1 a2 Hin; inversion Hin|]. intros a1 a2 Hs. left. exact Hs.
  - destruct (pd !! p1) as [df1|] eqn:E1; [destruct (pd !! p2) as [df2|] eqn:E2|].
    + apply rbind_ok in E as (r & Hr & E).
      apply rbind_ok in E as (pv & Hpv & E).
      assert (Hsome : is_Some (adf_pvalue r)).
      { destruct (adf_pvalue r); [eexists; reflexivity|discriminate]. }
      destruct (IH _ E) as (Hres & Hkeep & Hin & Hback).
      { intros k cr Hl. destruct (decide ((p1, p2) = k)) as [<-|Hne].
        - rewrite lookup_insert_eq in Hl. inversion Hl; subst cr. exact Hsome.
        - rewrite lookup_insert_ne in Hl by exact Hne. eapply Hacc, Hl. }
      split; [exact Hres|]. split; [|split].
      * intros k Hk. apply Hkeep.
        destruct (decide ((p1, p2) = k)) as [<-|Hne];
          [rewrite lookup_insert_eq; eexists; reflexivity|].
        rewrite lookup_insert_ne by exact Hne. exact Hk.
      * intros a1 a2 Ha Hd1 Hd2. apply elem_of_cons in Ha as [Heq|Ha].
        -- inversion Heq; subst a1 a2. apply Hkeep.
           rewrite lookup_insert_eq. eexists. reflexivity.
        -- apply Hin; assumption.
      * intros a1 a2 Hs. destruct (Hback a1 a2 Hs) as [Hi|(Ha & Hd1 & Hd2)].
        -- destruct (decide ((p1, p2) = (a1, a2))) as [Heq|Hne].
           ++ inversion Heq; subst a1 a2. right. split; [left|].
              split; eexists; eassumption.
           ++ rewrite lookup_insert_ne in Hi by exact Hne. left. exact Hi.
        -- right. split; [right; exact Ha|]. split; assumption.
    + destruct (IH _ E Hacc) as (Hres & Hkeep & Hin & Hback).
      split; [exact Hres|]. split; [exact Hkeep|]. split.
      * intros a1 a2 Ha Hd1 Hd2. apply elem_of_cons in Ha as [Heq|Ha].
        -- inversion Heq; subst a1 a2. rewrite E2 in Hd2. destruct Hd2; discriminate.
        -- apply Hin; assumption.
      * intros a1 a2 Hs. destruct (Hback a1 a2 Hs) as [Hi|(Ha & Hd)];
          [left; exact Hi|right; split; [right; exact Ha|exact Hd]].
    + assert (E' : test_pairs_from mp pd rest lookback acc = Ok results)
        by (destruct (pd !! p2); exact E).
      destruct (IH _ E' Hacc) as (Hres & Hkeep & Hin & Hback).
      split; [exact Hres|]. split; [exact Hkeep|]. split.
      * intros a1 a2 Ha Hd1 Hd2. apply elem_of_cons in Ha as [Heq|Ha].
        -- inversion Heq; subst a1 a2. rewrite E1 in Hd1. destruct Hd1; discriminate.
        -- apply Hin; assumption.
      * intros a1 a2 Hs. destruct (Hback a1 a2 Hs) as [Hi|(Ha & Hd)];
          [left; exact Hi|right; split; [right; exact Ha|exact Hd]].
Qed.

(** X9: when [test_multiple_pairs] returns, its result has an entry for
    exactly the requested pairs whose two assets are in the price data
    (pairs with missing data are skipped), and every entry carries a
    p-value: the call does not return when a stationarity test failed. *)
Theorem test_multiple_pairs_returns (mp : Q) (pd : gmap asset (list row))
    (prs : list pair_key) (lookback : nat)
    (results : gmap pair_key coint_result) :
  test_multiple_pairs mp pd prs lookback = Ok results ->
  (forall a1 a2, is_Some (results !! (a1, a2)) <->
     (a1, a2) ∈ prs /\ is_Some (pd !! a1) /\ is_Some (pd !! a2)) /\
  (forall k cr, results !! k = Some cr ->
     is_Some (adf_pvalue cr) /\ error cr = None).
Proof.
  intro E. unfold test_multiple_pairs in E.
  destruct (test_pairs_from_spec _ _ _ _ _ _ E) as (Hres & _ & Hin & Hback).
  { intros k cr Hl. rewrite lookup_empty in Hl. discriminate. }
  split.
  - intros a1 a2. split.
    + intro Hs. destruct (Hback a1 a2 Hs) as [Hi|Hok]; [|exact Hok].
      rewrite lookup_empty in Hi. destruct Hi; discriminate.
    + intros (Ha & Hd1 & Hd2). apply Hin; assumption.
  - intros k cr Hl. split; [eapply Hres, Hl|].
    revert k cr Hl. clear -E.
    assert (Hgen : forall prs0 acc res,
              test_pairs_from mp pd prs0 lookback acc = Ok res ->
              (forall k cr, acc !! k = Some cr -> error cr = None) ->
              forall k cr, res !! k = Some cr -> error cr = None).
    { induction prs0 as [|[p1 p2] rest IH]; intros acc res E0 Hacc; simpl in E0.
      - inversion E0; subst res. exact Hacc.
      - destruct (pd !! p1) as [df1|]; [destruct (pd !! p2) as [df2|]|];
          try (eapply IH; eassumption).
        apply rbind_ok in E0 as (r & Hr & E0).
        apply rbind_ok in E0 as (pv & Hpv & E0).
        eapply IH; [exact E0|].
        intros k cr Hl. destruct (decide ((p1, p2) = k)) as [<-|Hne].
        + rewrite lookup_insert_eq in Hl. inversion Hl; subst cr.
          unfold test_cointegration in Hr. cbv zeta in Hr.
          apply rbind_ok in Hr as (hr & _ & Hr).
          destruct (adf_test _); inversion Hr; subst r; simpl in *;
            [reflexivity|discriminate].
        + rewrite lookup_insert_ne in Hl by exact Hne. eapply Hacc, Hl. }
    eapply Hgen; [exact E|].
    intros k cr Hl. rewrite lookup_empty in Hl. discriminate.
Qed.


End MultiplePairsProperties.

Lemma test_multiple_pairs_returns_witness :
  exists results,
    @test_multiple_pairs numlib_stub (1 # 20) pd_zero
      [("A", "B"); ("A", "C")]%string 252 = Ok results /\
    is_Some (results !! ("A", "B")%string) /\
    results !! ("A", "C")%string = None.
Proof.
  assert (E : exists results,
             @test_multiple_pairs numlib_stub (1 # 20) pd_zero
               [("A", "B"); ("A", "C")]%string 252 = Ok results)
    by (eexists; vm_compute; reflexivity).
  destruct E as [results E]. exists results. split; [exact E|].
  destruct (@test_multiple_pairs_returns numlib_stub _ _ _ _ _ E) as [Hkeys _].
  split.
  - apply Hkeys. split; [left|]. split; vm_compute; eexists; reflexivity.
  - destruct (results !! ("A", "C")%string) eqn:El; [|reflexivity].
    exfalso. destruct (Hkeys "A"%string "C"%string) as [Hfwd _].
    destruct Hfwd as (_ & _ & [df Hdf]); [eexists; exact El|].
    vm_compute in Hdf. discriminate.
Defined.


(** ** The backtester: construction and price lookup *)

Lemma _get_common_dates_empty (pd : gmap asset (list row)) :
  _get_common_dates pd = Err TypeError <-> pd = ∅.
Proof.
  unfold _get_common_dates, set_intersection. split.
  - intro E. apply map_to_list_empty_iff.
    destruct (map_to_list pd) as [|kv l]; [reflexivity|]. simpl in E. discriminate.
  - intros ->. rewrite map_to_list_empty. reflexivity.
Qed.

Lemma _get_common_dates_total (pd : gmap asset (list row)) :
  pd <> ∅ -> exists ds, _get_common_dates pd = Ok ds.
Proof.
  intro Hne. unfold _get_common_dates, set_intersection.
  destruct (map_to_list pd) as [|kv l] eqn:El.
  - apply map_to_list_empty_iff in El. contradiction.
  - simpl. eexists. reflexivity.
Qed.

(** X11: [Backtester.__init__] fails in two ways only: with TypeError
    exactly when the price data is empty, and with IndexError exactly when
    the price data is not empty and no date is common to all its assets. *)
Theorem Backtester_init_errors (cfg : Config) (pd : gmap asset (list row)) :
  (Backtester_init cfg pd = Err TypeError <-> pd = ∅) /\
  (Backtester_init cfg pd = Err IndexError <->
   pd <> ∅ /\
   ~ exists x : Z, forall (a : asset) (df : list row),
       pd !! a = Some df -> x ∈ map timestamp df) /\
  (forall e, Backtester_init cfg pd = Err e -> e = TypeError \/ e = IndexError).
Proof.
  unfold Backtester_init.
  destruct (decide (pd = ∅)) as [->|Hne].
  - assert (E : _get_common_dates (∅ : gmap asset (list row)) = Err TypeError)
      by (apply _get_common_dates_empty; reflexivity).
    rewrite E. simpl. split; [tauto|]. split.
    + split; [discriminate|]. intros [Hn _]. contradiction.
    + intros e He. inversion He. left. reflexivity.
  - destruct (_get_common_dates_total pd Hne) as [ds Hds]. rewrite Hds. simpl.
    pose proof (_get_common_dates_spec pd ds Hds) as (_ & _ & Hmem).
    destruct ds as [|d ds].
    + split; [split; [discriminate|contradiction]|]. split.
      * split; [|reflexivity]. intros _. split; [exact Hne|].
        intros [x Hx]. apply Hmem in Hx. inversion Hx.
      * intros e He. inversion He. right. reflexivity.
    + split; [split; [discriminate|contradiction]|]. split.
      * split; [discriminate|]. intros [_ Hno]. exfalso. apply Hno.
        exists d. apply Hmem. left.
      * intros e He. discriminate.
Qed.

(** X12: on a backtester built by [__init__], the price lookup finds a
    price for every asset of the price data on every simulated date: the
    close of that asset's first row of the date. *)
Theorem price_found_on_common_date (cfg : Config) (pd : gmap asset (list row))
    (b : Backtester) (a : asset) (df : list row) (d : Z) :
  Backtester_init cfg pd = Ok b ->
  pd !! a = Some df ->
  d ∈ dates b ->
  exists r rs,
    filter (fun r => timestamp r = d) df = r :: rs /\
    _get_price_at_date b a d = Ok (Some (close r)).
Proof.
  intros Hinit Hdf Hd.
  pose proof (Backtester_init_state _ _ _ Hinit)
    as (_ & Hpd & _ & _ & _ & _ & _ & _ & Hds & _).
  pose proof (_get_common_dates_spec pd _ Hds) as (_ & _ & Hmem).
  apply Hmem with (a := a) (df := df) in Hd; [|exact Hdf].
  apply list_elem_of_fmap in Hd as (r0 & Hr0 & Hin).
  assert (Hf : r0 ∈ filter (fun r => timestamp r = d) df).
  { apply list_elem_of_filter. split; [symmetry; exact Hr0|exact Hin]. }
  destruct (filter (fun r => timestamp r = d) df) as [|r rs] eqn:Ef;
    [inversion Hf|].
  exists r, rs. split; [reflexivity|].
  unfold _get_price_at_date. rewrite Hpd.
  apply getitem_ok in Hdf. rewrite Hdf. simpl. rewrite Ef. reflexivity.
Qed.

Lemma price_found_on_common_date_witness :
  exists r rs,
    filter (fun r => timestamp r = 2%Z) [mkRow 1 10; mkRow 2 0; mkRow 3 10] = r :: rs /\
    _get_price_at_date bt_zero "A"%string 2 = Ok (Some (close r)).
Proof.
  apply (price_found_on_common_date cfg_free pd_zero bt_zero "A"%string).
  - vm_compute. reflexivity.
  - vm_compute. reflexivity.
  - vm_compute. right. left.
Defined.

(** ** The backtester: short histories *)

Lemma length_closes_upto (df : list row) (d : Z) :
  (length (closes_upto df d) <= length df)%nat.
Proof.
  unfold closes_upto. rewrite length_map. apply length_filter.
Qed.

Section ShortHistory.
Context `{NumLib}.

Lemma _process_pair_short (b : Backtester) (p1 p2 : asset) (d : Z)
    (cur : gmap asset Q) (df1 df2 : list row) :
  price_data b !! p1 = Some df1 ->
  price_data b !! p2 = Some df2 ->
  (length (closes_upto df1 d) < 252)%nat \/ (length (closes_upto df2 d) < 252)%nat ->
  _process_pair b p1 p2 d cur = Ok b.
Proof.
  intros H1 H2 Hshort. unfold _process_pair.
  apply getitem_ok in H1, H2. rewrite H1, H2. simpl.
  assert (Hb : Nat.ltb (length (closes_upto df1 d)) 252 ||
               Nat.ltb (length (closes_upto df2 d)) 252 = true).
  { apply orb_true_iff. destruct Hshort as [Hs|Hs]; [left|right];
      apply Nat.ltb_lt; exact Hs. }
  rewrite Hb. reflexivity.
Qed.

Lemma _process_pair_short_any (b b' : Backtester) (p1 p2 : asset) (d : Z)
    (cur : gmap asset Q) :
  (forall a df, price_data b !! a = Some df -> (length df < 252)%nat) ->
  _process_pair b p1 p2 d cur = Ok b' -> b' = b.
Proof.
  intros Hshort E. unfold _process_pair in E.
  apply rbind_ok in E as (df1 & H1 & E).
  apply rbind_ok in E as (df2 & H2 & E).
  apply getitem_ok in H1, H2.
  assert (Hb : Nat.ltb (length (closes_upto df1 d)) 252 ||
               Nat.ltb (length (closes_upto df2 d)) 252 = true).
  { apply orb_true_iff. left. apply Nat.ltb_lt.
    pose proof (length_closes_upto df1 d). pose proof (Hshort _ _ H1). lia. }
  rewrite Hb in E. inversion E. reflexivity.
Qed.

Lemma process_inner_short (rest : list asset) (b b' : Backtester) (p1 : asset)
    (d : Z) (cur : gmap asset Q) :
  (forall a df, price_data b !! a = Some df -> (length df < 252)%nat) ->
  process_inner b p1 rest d cur = Ok b' -> b' = b.
Proof.
  intro Hshort. induction rest as [|p2 rest IH]; simpl; intro E.
  - inversion E. reflexivity.
  - apply rbind_ok in E as (b1 & E1 & E2).
    apply (_process_pair_short_any _ _ _ _ _ _ Hshort) in E1. subst b1.
    apply IH, E2.
Qed.

Lemma process_pairs_short (ps : list asset) (b b' : Backtester)
    (d : Z) (cur : gmap asset Q) :
  (forall a df, price_data b !! a = Some df -> (length df < 252)%nat) ->
  process_pairs b ps d cur = Ok b' -> b' = b.
Proof.
  intro Hshort. induction ps as [|p1 ps IH]; simpl; intro E.
  - inversion E. reflexivity.
  - apply rbind_ok in E as (b1 & E1 & E2).
    apply (process_inner_short _ _ _ _ _ _ Hshort) in E1. subst b1.
    apply IH, E2.
Qed.

Lemma run_dates_short (ds : list Z) (b b' : Backtester) :
  (forall a df, price_data b !! a = Some df -> (length df < 252)%nat) ->
  run_dates b ds = Ok b' ->
  trades b' = trades b /\ open_positions b' = open_positions b /\
  current_capital b' = current_capital b /\
  next_trade_id b' = next_trade_id b /\
  exists kept, equity_curve b' =
    equity_curve b ++ map (fun d => mkSample d (current_capital b)) kept.
Proof.
  revert b. induction ds as [|d ds IH]; intros b Hshort E; simpl in E.
  - inversion E; subst b'. repeat split; try reflexivity.
    exists []. simpl. rewrite app_nil_r. reflexivity.
  - apply rbind_ok in E as (b1 & E1 & E2).
    unfold run_date in E1. apply rbind_ok in E1 as (cur & _ & E1).
    destruct (Nat.ltb _ _).
    + inversion E1; subst b1. apply IH; assumption.
    + apply rbind_ok in E1 as (b2 & E1 & E3).
      apply (process_pairs_short _ _ _ _ _ Hshort) in E1. subst b2.
      inversion E3; subst b1; clear E3.
      destruct (IH (append_equity b d)) as (Ht & Ho & Hc & Hn & kept & Hk);
        [exact Hshort|exact E2|].
      simpl in *. repeat split; try assumption.
      exists (d :: kept). rewrite Hk. simpl. rewrite <- app_assoc. reflexivity.
Qed.

(** X13: no pair is traded on less than 252 observations.  If either asset
    of a pair has fewer than 252 rows up to a date, [_process_pair] leaves
    the backtester as it is; and when every asset of the price data has
    fewer than 252 rows in all, a run that returns has opened and closed
    nothing, and every equity sample holds the starting capital. *)
Theorem short_history_never_trades (cfg : Config) (pd : gmap asset (list row))
    (b b' : Backtester) :
  Backtester_init cfg pd = Ok b ->
  (forall a df, pd !! a = Some df -> (length df < 252)%nat) ->
  run b = Ok b' ->
  trades b' = [] /\ open_positions b' = ∅ /\
  current_capital b' = starting_capital_cfg cfg /\
  Forall (fun s => sample_capital s = starting_capital_cfg cfg) (equity_curve b') /\
  (forall bx p1 p2 d cur df1 df2,
     price_data bx !! p1 = Some df1 -> price_data bx !! p2 = Some df2 ->
     (length (closes_upto df1 d) < 252)%nat \/
     (length (closes_upto df2 d) < 252)%nat ->
     _process_pair bx p1 p2 d cur = Ok bx).
Proof.
  intros Hinit Hshort Hrun.
  pose proof (Backtester_init_state _ _ _ Hinit)
    as (_ & Hpd & _ & Hc & He & Ht & Ho & _).
  destruct (run_dates_short (dates b) b b') as (Ht' & Ho' & Hc' & _ & kept & Hk);
    [rewrite Hpd; exact Hshort|exact Hrun|].
  rewrite Ht', Ho', Hc', Ht, Ho, Hc. repeat split.
  - rewrite Hk, He, Hc. simpl. apply Forall_fmap, Forall_forall.
    intros d _. reflexivity.
  - intros. eapply _process_pair_short; eassumption.
Qed.

End ShortHistory.

Lemma short_history_never_trades_witness :
  exists b',
    @run numlib_stub bt_zero = Ok b' /\
    trades b' = [] /\ current_capital b' = starting_capital_cfg cfg_free.
Proof.
  assert (E : exists b', @run numlib_stub bt_zero = Ok b')
    by (eexists; vm_compute; reflexivity).
  destruct E as [b' E]. exists b'. split; [exact E|].
  destruct (@short_history_never_trades numlib_stub cfg_free pd_zero bt_zero b')
    as (Ht & _ & Hc & _).
  - vm_compute. reflexivity.
  - intros a df Hl.
    assert (Ha : a = "A"%string \/ a = "B"%string).
    { destruct (decide (a = "A"%string)) as [->|Hna]; [left; reflexivity|].
      destruct (decide (a = "B"%string)) as [->|Hnb]; [right; reflexivity|].
      unfold pd_zero in Hl. rewrite lookup_insert_ne in Hl by congruence.
      rewrite lookup_singleton_ne in Hl by congruence. discriminate. }
    destruct Ha as [-> | ->]; vm_compute in Hl; inversion Hl; simpl; lia.
  - exact E.
  - split; [exact Ht|exact Hc].
Defined.

(** ** The backtester: the dates of the equity curve *)

Lemma StronglySorted_sublist {A : Type} (R : relation A) (l1 l2 : list A) :
  l1 `sublist_of` l2 -> StronglySorted R l2 -> StronglySorted R l1.
Proof.
  induction 1 as [|x l1 l2 Hsub IH|x l1 l2 Hsub IH]; intro Hs.
  - constructor.
  - inversion Hs as [|? ? Hs' Hall]; subst. constructor; [apply IH, Hs'|].
    rewrite Forall_forall in *. intros y Hy. apply Hall.
    eapply elem_of_sublist; eassumption.
  - inversion Hs; subst. apply IH. assumption.
Qed.

Lemma Sorted_le_NoDup_lt (l : list Z) :
  Sorted Z.le l -> NoDup l -> StronglySorted Z.lt l.
Proof.
  intros Hs Hnd. apply Sorted_StronglySorted in Hs; [|apply _].
  induction Hs as [|x l Hs IH Hall]; [constructor|].
  apply NoDup_cons in Hnd as [Hx Hnd]. constructor; [apply IH, Hnd|].
  rewrite Forall_forall in *. intros y Hy. specialize (Hall y Hy).
  assert (x <> y) by (intros ->; contradiction). lia.
Qed.

Section EquityDates.
Context `{NumLib}.

Lemma process_inner_same_setup (rest : list asset) (b b' : Backtester)
    (p1 : asset) (d : Z) (cur : gmap asset Q) :
  process_inner b p1 rest d cur = Ok b' -> same_setup b b'.
Proof.
  revert b. induction rest as [|p2 rest IH]; intros b E; simpl in E.
  - inversion E. apply same_setup_refl.
  - apply rbind_ok in E as (b1 & E1 & E2).
    apply _process_pair_step in E1 as [_ Hs].
    eapply same_setup_trans; [exact Hs|apply IH, E2].
Qed.

Lemma process_pairs_same_setup (ps : list asset) (b b' : Backtester)
    (d : Z) (cur : gmap asset Q) :
  process_pairs b ps d cur = Ok b' -> same_setup b b'.
Proof.
  revert b. induction ps as [|p1 ps IH]; intros b E; simpl in E.
  - inversion E. apply same_setup_refl.
  - apply rbind_ok in E as (b1 & E1 & E2).
    apply process_inner_same_setup in E1.
    eapply same_setup_trans; [exact E1|apply IH, E2].
Qed.

Lemma run_date_cases (b b' : Backtester) (d : Z) :
  run_date b d = Ok b' ->
  b' = b \/
  exists cur b1,
    collect_prices b d (pairs (config b)) ∅ = Ok cur /\
    process_pairs b (pairs (config b)) d cur = Ok b1 /\
    b' = append_equity b1 d.
Proof.
  unfold run_date. intro E. apply rbind_ok in E as (cur & Hcur & E).
  destruct (Nat.ltb _ _); [inversion E; left; reflexivity|].
  apply rbind_ok in E as (b1 & E1 & E2). inversion E2.
  right. exists cur, b1. repeat split; assumption.
Qed.

Lemma run_dates_equity (ds : list Z) (b b' : Backtester) :
  run_dates b ds = Ok b' ->
  dates b' = dates b /\
  exists kept, kept `sublist_of` ds /\
    map sample_date (equity_curve b') = map sample_date (equity_curve b) ++ kept.
Proof.
  revert b. induction ds as [|d ds IH]; intros b E; simpl in E.
  - inversion E; subst b'. split; [reflexivity|].
    exists []. split; [constructor|]. rewrite app_nil_r. reflexivity.
  - apply rbind_ok in E as (b1 & E1 & E2).
    destruct (IH _ E2) as (Hd & kept & Hsub & Hk).
    apply run_date_cases in E1 as [->|(cur & b2 & _ & Hp & ->)].
    + split; [exact Hd|]. exists kept. split; [apply sublist_cons, Hsub|exact Hk].
    + apply process_pairs_same_setup in Hp as (_ & _ & _ & Heq & Hds).
      simpl in *. split; [congruence|].
      exists (d :: kept). split; [apply sublist_skip, Hsub|].
      rewrite Hk, map_app, Heq. simpl. rewrite <- app_assoc. reflexivity.
Qed.

(** X14: whatever the prices, the equity curve of a run that returns has
    its samples on simulated dates, in the order of the dates and at most
    one per date: the sample dates are a subsequence of the simulated
    dates, and are strictly increasing. *)
Theorem equity_dates_increasing (cfg : Config) (pd : gmap asset (list row))
    (b b' : Backtester) :
  Backtester_init cfg pd = Ok b ->
  run b = Ok b' ->
  map sample_date (equity_curve b') `sublist_of` dates b /\
  StronglySorted Z.lt (map sample_date (equity_curve b')) /\
  (length (equity_curve b') <= length (dates b))%nat.
Proof.
  intros Hinit Hrun.
  pose proof (Backtester_init_state _ _ _ Hinit)
    as (_ & _ & _ & _ & He & _ & _ & _ & Hds & _).
  pose proof (_get_common_dates_spec _ _ Hds) as (Hsorted & Hnd & _).
  destruct (run_dates_equity _ _ _ Hrun) as (_ & kept & Hsub & Hk).
  rewrite He in Hk. simpl in Hk. rewrite Hk.
  split; [exact Hsub|]. split.
  - eapply StronglySorted_sublist; [exact Hsub|].
    apply Sorted_le_NoDup_lt; assumption.
  - rewrite <- (length_map sample_date), Hk. apply sublist_length, Hsub.
Qed.

End EquityDates.

Lemma equity_dates_increasing_witness :
  exists b',
    @run numlib_stub bt_zero = Ok b' /\
    map sample_date (equity_curve b') `sublist_of` dates bt_zero /\
    StronglySorted Z.lt (map sample_date (equity_curve b')).
Proof.
  assert (E : exists b', @run numlib_stub bt_zero = Ok b')
    by (eexists; vm_compute; reflexivity).
  destruct E as [b' E]. exists b'. split; [exact E|].
  destruct (@equity_dates_increasing numlib_stub cfg_free pd_zero bt_zero b')
    as (Hsub & Hs & _); [vm_compute; reflexivity|exact E|].
  split; [exact Hsub|exact Hs].
Defined.

(** ** The backtester: trade identifiers *)

Lemma trade_ids_step (b b' : Backtester) (pk : pair_key) :
  step_kind b b' pk ->
  trade_ids b ≡ₚ seq 0 (next_trade_id b) ->
  trade_ids b' ≡ₚ seq 0 (next_trade_id b').
Proof.
  unfold trade_ids.
  intros [->|tr Hnone _ _ _ Hid Ho Hi Ht _|tr tr' n Hsome _ Hid Ho Hi Ht _] Hinv.
  - exact Hinv.
  - rewrite Ho, Hi, Ht, seq_S. simpl.
    rewrite (map_to_list_insert _ _ _ Hnone). simpl.
    rewrite Hid, <- Hinv.
    rewrite <- Permutation_middle. apply Permutation_cons_append.
  - rewrite Ho, Hi, Ht, <- Hinv, map_app. simpl.
    rewrite <- (map_to_list_delete _ _ _ Hsome). simpl. rewrite Hid.
    rewrite <- app_assoc. simpl. reflexivity.
Qed.

Section TradeIds.
Context `{NumLib}.

(** X15: in every state the engine reaches from [__init__], the trades of
    the log and the open positions carry, between them, each identifier
    below the [trade_id] counter exactly once: the identifiers of the log
    are pairwise distinct, below the counter, and none is shared with an
    open position. *)
Theorem trade_ids_unique (cfg : Config) (pd : gmap asset (list row))
    (b0 b : Backtester) :
  Backtester_init cfg pd = Ok b0 ->
  reachable b0 b ->
  trade_ids b ≡ₚ seq 0 (next_trade_id b) /\
  NoDup (map trade_id (trades b)) /\
  (forall tr, tr ∈ trades b -> (trade_id tr < next_trade_id b)%nat) /\
  (forall tr pk tr', tr ∈ trades b -> open_positions b !! pk = Some tr' ->
     trade_id tr <> trade_id tr').
Proof.
  intros Hinit Hr.
  assert (Hperm : trade_ids b ≡ₚ seq 0 (next_trade_id b)).
  { induction Hr as [|b b' p1 p2 d cur _ IH E|b d _ IH].
    - apply Backtester_init_state in Hinit as (_ & _ & _ & _ & _ & Ht & Ho & Hi & _).
      unfold trade_ids. rewrite Ht, Ho, Hi, map_to_list_empty. reflexivity.
    - apply _process_pair_step in E as [Hk _].
      eapply trade_ids_step; eassumption.
    - exact IH. }
  split; [exact Hperm|].
  assert (Hnd : NoDup (trade_ids b)) by (rewrite Hperm; apply NoDup_seq).
  unfold trade_ids in Hnd. apply NoDup_app in Hnd as (Hnd & Hdisj & _).
  split; [exact Hnd|]. split.
  - intros tr Htr.
    assert (Hin : trade_id tr ∈ trade_ids b).
    { unfold trade_ids. apply elem_of_app. left.
      apply list_elem_of_fmap. exists tr. split; [reflexivity|exact Htr]. }
    rewrite Hperm in Hin. apply elem_of_seq in Hin. lia.
  - intros tr pk tr' Htr Hl Heq. apply (Hdisj (trade_id tr)).
    + apply list_elem_of_fmap. exists tr. split; [reflexivity|exact Htr].
    + apply list_elem_of_fmap. exists (pk, tr'). split; [exact Heq|].
      apply elem_of_map_to_list. exact Hl.
Qed.

End TradeIds.

Lemma trade_ids_unique_witness :
  trade_ids bt_ex ≡ₚ seq 0 (next_trade_id bt_ex) /\
  NoDup (map trade_id (trades bt_ex)).
Proof.
  assert (H0 : Backtester_init cfg_fee pd_ex = Ok bt_ex0)
    by (vm_compute; reflexivity).
  assert (H1 : @run_dates numlib_stub bt_ex0 (dates bt_ex0) = Ok bt_ex)
    by (vm_compute; reflexivity).
  pose proof (@run_dates_reachable numlib_stub _ _ _ H1) as Hr.
  destruct (@trade_ids_unique numlib_stub cfg_fee pd_ex bt_ex0 bt_ex H0 Hr)
    as (Hp & Hnd & _).
  split; [exact Hp|exact Hnd].
Defined.

(** ** The backtester: entry and exit dates *)

Lemma Sorted_snoc_le (l : list Z) (d : Z) :
  Sorted Z.le l -> Forall (fun x => (x <= d)%Z) l -> Sorted Z.le (l ++ [d]).
Proof.
  intros Hs Hall. induction Hs as [|x l Hs IH Hhd]; simpl.
  - repeat constructor.
  - apply Forall_cons in Hall as [Hx Hall]. constructor; [apply IH, Hall|].
    destruct l as [|y l]; simpl; constructor; [exact Hx|].
    inversion Hhd. assumption.
Qed.

Lemma dated_mono (d d' : Z) (b : Backtester) :
  (d <= d')%Z -> dated d b -> dated d' b.
Proof.
  intros Hle (Ho & Ht & Hs). split; [|split; [|exact Hs]].
  - intros pk tr Hl. specialize (Ho pk tr Hl). lia.
  - eapply Forall_impl; [exact Ht|]. intros tr (x & Hx & H1 & H2).
    exists x. repeat split; [exact Hx|exact H1|lia].
Qed.

Lemma execute_signal_dated (b b' : Backtester) (p1 p2 : asset) (d : Z)
    (sig : Signal) (spread hr : Q) :
  dated d b ->
  execute_signal b p1 p2 d sig spread hr = Ok b' ->
  dated d b'.
Proof.
  intros (Ho & Ht & Hs). unfold execute_signal.
  assert (Hopen : forall s, dated d (_open_trade b p1 p2 s d spread hr)).
  { intro s. split; [|split; [exact Ht|exact Hs]]. simpl.
    intros pk tr Hl. destruct (decide ((p1, p2) = pk)) as [<-|Hne].
    - rewrite lookup_insert_eq in Hl. inversion Hl; subst tr. simpl. lia.
    - rewrite lookup_insert_ne in Hl by exact Hne. apply (Ho _ _ Hl). }
  destruct (open_positions b !! (p1, p2)) as [tr|] eqn:Epos.
  - destruct sig; intro E; try (inversion E; subst b'; repeat split; assumption).
    assert (Hget : getitem (open_positions b) (p1, p2) = Ok tr)
      by (apply getitem_ok; exact Epos).
    unfold _close_trade in E. cbv zeta in E. rewrite Hget in E. simpl in E.
    inversion E; subst b'; clear E. split; [|split]; simpl.
    + intros pk tr0 Hl. apply lookup_delete_Some in Hl as [_ Hl]. apply (Ho _ _ Hl).
    + apply Forall_app. split; [exact Ht|]. constructor; [|constructor].
      exists d. simpl. split; [reflexivity|]. split; [apply (Ho _ _ Epos)|lia].
    + rewrite map_app. simpl. apply Sorted_snoc_le; [exact Hs|].
      apply Forall_fmap. eapply Forall_impl; [exact Ht|].
      intros tr0 (x & Hx & _ & Hxd). unfold exit_date. simpl. rewrite Hx. exact Hxd.
  - destruct sig; intro E; inversion E; subst b'; try apply Hopen;
      repeat split; assumption.
Qed.

Section EntryExit.
Context `{NumLib}.

Lemma _process_pair_dated (b b' : Backtester) (p1 p2 : asset) (d : Z)
    (cur : gmap asset Q) :
  dated d b -> _process_pair b p1 p2 d cur = Ok b' -> dated d b'.
Proof.
  intros Hd E. apply _process_pair_execute in E as [->|(sig & x & hr & E)];
    [exact Hd|]. eapply execute_signal_dated; eassumption.
Qed.

Lemma process_inner_dated (rest : list asset) (b b' : Backtester) (p1 : asset)
    (d : Z) (cur : gmap asset Q) :
  dated d b -> process_inner b p1 rest d cur = Ok b' -> dated d b'.
Proof.
  revert b. induction rest as [|p2 rest IH]; intros b Hd E; simpl in E.
  - inversion E; subst b'. exact Hd.
  - apply rbind_ok in E as (b1 & E1 & E2).
    eapply IH; [|exact E2]. eapply _process_pair_dated; eassumption.
Qed.

Lemma process_pairs_dated (ps : list asset) (b b' : Backtester)
    (d : Z) (cur : gmap asset Q) :
  dated d b -> process_pairs b ps d cur = Ok b' -> dated d b'.
Proof.
  revert b. induction ps as [|p1 ps IH]; intros b Hd E; simpl in E.
  - inversion E; subst b'. exact Hd.
  - apply rbind_ok in E as (b1 & E1 & E2).
    eapply IH; [|exact E2]. eapply process_inner_dated; eassumption.
Qed.

Lemma run_date_dated (b b' : Backtester) (d : Z) :
  dated d b -> run_date b d = Ok b' -> dated d b'.
Proof.
  intros Hd E. apply run_date_cases in E as [->|(cur & b1 & _ & Hp & ->)];
    [exact Hd|]. eapply process_pairs_dated in Hp; [|exact Hd]. exact Hp.
Qed.

Lemma run_dates_dated (ds : list Z) (b b' : Backtester) (d0 : Z) :
  StronglySorted Z.le (d0 :: ds) ->
  dated d0 b ->
  run_dates b ds = Ok b' ->
  exists d1, dated d1 b'.
Proof.
  revert b d0. induction ds as [|d ds IH]; intros b d0 Hs Hd E; simpl in E.
  - inversion E; subst b'. exists d0. exact Hd.
  - apply rbind_ok in E as (b1 & E1 & E2).
    inversion Hs as [|? ? Hs' Hall]; subst.
    apply Forall_cons in Hall as [Hle _].
    eapply (IH b1 d); [exact Hs'| |exact E2].
    eapply run_date_dated; [|exact E1]. eapply dated_mono; eassumption.
Qed.

Lemma run_dated (cfg : Config) (pd : gmap asset (list row)) (b b' : Backtester) :
  Backtester_init cfg pd = Ok b -> run b = Ok b' -> exists d1, dated d1 b'.
Proof.
  intros Hinit Hrun.
  pose proof (Backtester_init_state _ _ _ Hinit)
    as (_ & _ & _ & _ & _ & Ht & Ho & _ & Hds & Hnil).
  pose proof (_get_common_dates_spec _ _ Hds) as (Hsorted & _ & _).
  apply Sorted_StronglySorted in Hsorted; [|apply _].
  unfold run in Hrun. destruct (dates b) as [|d ds]; [contradiction|].
  eapply (run_dates_dated (d :: ds) b b' d); [| |exact Hrun].
  - constructor; [exact Hsorted|]. constructor; [lia|].
    inversion Hsorted; assumption.
  - split; [|split].
    + intros pk tr Hl. rewrite Ho, lookup_empty in Hl. discriminate.
    + rewrite Ht. constructor.
    + rewrite Ht. constructor.
Qed.

(** X16: every trade in the log of a run from [__init__] is closed, on a
    date that is not before its entry date: the [days_held] that
    [to_dict] reports is set and is not negative. *)
Theorem logged_trades_held_forward (cfg : Config) (pd : gmap asset (list row))
    (b b' : Backtester) :
  Backtester_init cfg pd = Ok b ->
  run b = Ok b' ->
  Forall (fun tr => exists x,
            exit_time tr = Some x /\ (entry_time tr <= x)%Z /\
            td_days_held (to_dict tr) = Some (x - entry_time tr)%Z /\
            (0 <= x - entry_time tr)%Z) (trades b').
Proof.
  intros Hinit Hrun. destruct (run_dated _ _ _ _ Hinit Hrun) as (d1 & _ & Ht & _).
  eapply Forall_impl; [exact Ht|]. intros tr (x & Hx & Hle & _).
  exists x. split; [exact Hx|]. split; [exact Hle|].
  split; [unfold to_dict; simpl; rewrite Hx; reflexivity|lia].
Qed.

(** X17: the trade log of a run from [__init__] is in the order of the
    exit dates: along the log, exit dates never decrease. *)
Theorem trade_log_in_date_order (cfg : Config) (pd : gmap asset (list row))
    (b b' : Backtester) :
  Backtester_init cfg pd = Ok b ->
  run b = Ok b' ->
  Sorted Z.le (map exit_date (trades b')) /\
  Forall (fun tr => exit_time tr = Some (exit_date tr)) (trades b').
Proof.
  intros Hinit Hrun. destruct (run_dated _ _ _ _ Hinit Hrun) as (d1 & _ & Ht & Hs).
  split; [exact Hs|]. eapply Forall_impl; [exact Ht|].
  intros tr (x & Hx & _). unfold exit_date. rewrite Hx. reflexivity.
Qed.

End EntryExit.

Lemma logged_trades_held_forward_witness :
  Forall (fun tr => exists x,
            exit_time tr = Some x /\ (entry_time tr <= x)%Z /\
            td_days_held (to_dict tr) = Some (x - entry_time tr)%Z /\
            (0 <= x - entry_time tr)%Z) (trades bt_ex) /\
  map (fun tr => td_days_held (to_dict tr)) (trades bt_ex) = [Some 1%Z].
Proof.
  split; [|vm_compute; reflexivity].
  apply (@logged_trades_held_forward numlib_stub cfg_fee pd_ex bt_ex0 bt_ex);
    vm_compute; reflexivity.
Defined.

Lemma trade_log_in_date_order_witness :
  Sorted Z.le (map exit_date (trades bt_ex)) /\
  Forall (fun tr => exit_time tr = Some (exit_date tr)) (trades bt_ex).
Proof.
  apply (@trade_log_in_date_order numlib_stub cfg_fee pd_ex bt_ex0 bt_ex);
    vm_compute; reflexivity.
Defined.

(** ** The trade log and the analyzer *)

Lemma Qsum_gross (l : list Q) : Qsum l == gross_profit l - gross_loss l.
Proof.
  induction l as [|x l IH]; simpl; [reflexivity|].
  destruct (Qltb 0 x) eqn:Ep; destruct (Qltb x 0) eqn:En.
  - apply Qltb_lt in Ep, En. exfalso.
    exact (Qlt_irrefl 0 (Qlt_trans _ _ _ Ep En)).
  - rewrite IH. ring.
  - rewrite IH. ring.
  - apply Qltb_ge in Ep, En.
    assert (Hx : x == 0) by (apply Qle_antisym; assumption).
    rewrite IH, Hx. ring.
Qed.

Lemma profit_factor_value (ts : list trade_dict) (pnls : list Q) :
  net_pnls ts = Ok pnls ->
  exists pf,
    _calculate_profit_factor ts = Ok pf /\ 0 <= pf /\
    (~ gross_loss pnls == 0 -> pf == gross_profit pnls / gross_loss pnls).
Proof.
  intro Hn. unfold _calculate_profit_factor. rewrite Hn. simpl.
  pose proof (code_gross_profit pnls) as Hp.
  pose proof (code_gross_loss pnls) as Hl.
  pose proof (gross_profit_nonneg pnls) as Hp0.
  pose proof (gross_loss_nonneg pnls) as Hl0.
  destruct (Qeq_bool _ 0) eqn:El.
  - apply Qeq_bool_iff in El. rewrite Hl in El.
    destruct (Qltb 0 _) eqn:Ep.
    + eexists. split; [reflexivity|]. split; [|intro Hne; contradiction].
      rewrite Hp. apply Qdiv_nonneg; [exact Hp0|reflexivity].
    + eexists. split; [reflexivity|]. split; [discriminate|].
      intro Hne. contradiction.
  - apply Qeq_bool_false in El. rewrite Hl in El.
    eexists. split; [reflexivity|]. rewrite Hp, Hl.
    split; [|intros _; reflexivity].
    apply Qdiv_nonneg; [exact Hp0|].
    destruct (Qlt_le_dec 0 (gross_loss pnls)) as [Hlt|Hle]; [exact Hlt|].
    exfalso. apply El. apply Qle_antisym; assumption.
Qed.

(** X18: on a log of closed trades that has losses, the profit factor
    exceeds 1 exactly when the total net P&L of the log is positive; and
    on any log of closed trades it is not negative. *)
Theorem profit_factor_above_one (ts : list trade_dict) (pnls : list Q) :
  closed_pnls ts pnls ->
  exists pf,
    _calculate_profit_factor ts = Ok pf /\
    0 <= pf /\
    (~ gross_loss pnls == 0 -> (1 < pf <-> 0 < Qsum pnls)).
Proof.
  intro Hc. apply net_pnls_closed in Hc.
  destruct (profit_factor_value ts pnls Hc) as (pf & Hpf & H0 & Hval).
  exists pf. split; [exact Hpf|]. split; [exact H0|].
  intro Hne. rewrite (Hval Hne), Qsum_gross.
  assert (Hl : 0 < gross_loss pnls).
  { destruct (Qlt_le_dec 0 (gross_loss pnls)) as [Hlt|Hle]; [exact Hlt|].
    exfalso. apply Hne. apply Qle_antisym; [exact Hle|apply gross_loss_nonneg]. }
  split; intro Hlt.
  - unfold Qminus. rewrite <- Qlt_minus_iff.
    apply (Qmult_lt_r _ _ (gross_loss pnls) Hl) in Hlt.
    setoid_replace (1 * gross_loss pnls) with (gross_loss pnls)
      using relation Qeq in Hlt by ring.
    setoid_replace (gross_profit pnls / gross_loss pnls * gross_loss pnls)
      with (gross_profit pnls) using relation Qeq in Hlt
      by (field; exact Hne).
    exact Hlt.
  - apply Qlt_shift_div_l; [exact Hl|].
    setoid_replace (1 * gross_loss pnls) with (gross_loss pnls)
      using relation Qeq by ring.
    unfold Qminus in Hlt. rewrite <- Qlt_minus_iff in Hlt. exact Hlt.
Qed.

Lemma profit_factor_above_one_witness :
  exists pf,
    _calculate_profit_factor
      [dict_of_pnl 30; dict_of_pnl (-10); dict_of_pnl (-5)] = Ok pf /\
    0 <= pf /\ 1 < pf.
Proof.
  destruct (profit_factor_above_one
              [dict_of_pnl 30; dict_of_pnl (-10); dict_of_pnl (-5)]
              [30; -10; -5]) as (pf & Hpf & H0 & Hiff); [reflexivity|].
  exists pf. split; [exact Hpf|]. split; [exact H0|].
  apply Hiff; [intro Hz; discriminate Hz|reflexivity].
Defined.

Lemma all_closed_step (b b' : Backtester) (pk : pair_key) :
  step_kind b b' pk ->
  Forall (fun tr => is_Some (net_pnl tr)) (trades b) ->
  Forall (fun tr => is_Some (net_pnl tr)) (trades b').
Proof.
  intros [->|tr _ _ _ _ _ _ _ Ht _|tr tr' n _ Hn _ _ _ Ht _] Hall.
  - exact Hall.
  - rewrite Ht. exact Hall.
  - rewrite Ht. apply Forall_app. split; [exact Hall|].
    constructor; [|constructor]. rewrite Hn. eexists. reflexivity.
Qed.

Lemma net_pnls_to_dict (ts : list Trade) :
  Forall (fun tr => is_Some (net_pnl tr)) ts ->
  net_pnls (map to_dict ts) = Ok (map pnl_of ts) /\
  pnl_list ts = map pnl_of ts.
Proof.
  induction 1 as [|tr ts [n Hn] _ [IH1 IH2]]; [split; reflexivity|].
  simpl. unfold pnl_list in *. simpl. rewrite Hn, IH1, IH2. simpl.
  unfold pnl_of. rewrite Hn. split; reflexivity.
Qed.

Lemma py_max_ge (l : list Q) (x : Q) :
  x <= py_max x l /\ forall y, y ∈ l -> y <= py_max x l.
Proof.
  unfold py_max. revert x. induction l as [|z l IH]; intro x; simpl.
  - split; [apply Qle_refl|]. intros y Hy. inversion Hy.
  - destruct (Qltb x z) eqn:E.
    + apply Qltb_lt in E. destruct (IH z) as [Hz Hall]. split.
      * apply Qlt_le_weak. eapply Qlt_le_trans; eassumption.
      * intros y Hy. apply elem_of_cons in Hy as [->|Hy]; [exact Hz|apply Hall, Hy].
    + apply Qltb_ge in E. destruct (IH x) as [Hx Hall]. split; [exact Hx|].
      intros y Hy. apply elem_of_cons in Hy as [->|Hy]; [|apply Hall, Hy].
      eapply Qle_trans; eassumption.
Qed.

Lemma py_min_le (l : list Q) (x : Q) :
  py_min x l <= x /\ forall y, y ∈ l -> py_min x l <= y.
Proof.
  unfold py_min. revert x. induction l as [|z l IH]; intro x; simpl.
  - split; [apply Qle_refl|]. intros y Hy. inversion Hy.
  - destruct (Qltb z x) eqn:E.
    + apply Qltb_lt in E. destruct (IH z) as [Hz Hall]. split.
      * apply Qlt_le_weak. eapply Qle_lt_trans; eassumption.
      * intros y Hy. apply elem_of_cons in Hy as [->|Hy]; [exact Hz|apply Hall, Hy].
    + apply Qltb_ge in E. destruct (IH x) as [Hx Hall]. split; [exact Hx|].
      intros y Hy. apply elem_of_cons in Hy as [->|Hy]; [|apply Hall, Hy].
      eapply Qle_trans; eassumption.
Qed.

Lemma count_pos_neg (l : list Q) :
  (length (List.filter (fun q => Qltb 0 q) l) +
   length (List.filter (fun q => Qltb q 0) l) <= length l)%nat.
Proof.
  induction l as [|x l IH]; simpl; [lia|].
  destruct (Qltb 0 x) eqn:Ep; destruct (Qltb x 0) eqn:En; simpl; try lia.
  apply Qltb_lt in Ep, En. exfalso.
  exact (Qlt_irrefl 0 (Qlt_trans _ _ _ Ep En)).
Qed.

Section LogAndMetrics.
Context `{NumLib}.

Lemma reachable_all_closed (cfg : Config) (pd : gmap asset (list row))
    (b0 b : Backtester) :
  Backtester_init cfg pd = Ok b0 ->
  reachable b0 b ->
  Forall (fun tr => is_Some (net_pnl tr)) (trades b).
Proof.
  intros Hinit Hr. induction Hr as [|b b' p1 p2 d cur _ IH E|b d _ IH].
  - apply Backtester_init_state in Hinit as (_ & _ & _ & _ & _ & Ht & _).
    rewrite Ht. constructor.
  - apply _process_pair_step in E as [Hk _]. eapply all_closed_step; eassumption.
  - exact IH.
Qed.

(** X19: the trade log of every state the engine reaches from [__init__]
    is one the analyzer accepts: every logged trade has its net P&L set,
    so [_calculate_profit_factor] on the log that [get_results] hands over
    returns a number, which is not negative, instead of raising. *)
Theorem profit_factor_of_run_defined (cfg : Config) (pd : gmap asset (list row))
    (b0 b : Backtester) :
  Backtester_init cfg pd = Ok b0 ->
  reachable b0 b ->
  Forall (fun t => is_Some (td_net_pnl t)) (trades_list b) /\
  exists pf, _calculate_profit_factor (trades_list b) = Ok pf /\ 0 <= pf.
Proof.
  intros Hinit Hr.
  pose proof (reachable_all_closed _ _ _ _ Hinit Hr) as Hall.
  split.
  - unfold trades_list. apply Forall_fmap. eapply Forall_impl; [exact Hall|].
    intros tr Hs. exact Hs.
  - destruct (net_pnls_to_dict _ Hall) as [Hn _].
    destruct (profit_factor_value _ _ Hn) as (pf & Hpf & H0 & _).
    exists pf. split; assumption.
Qed.

(** X20: in a state the engine reaches from [__init__] with a non-empty
    trade log, [_calculate_metrics] returns metrics that agree with the
    engine: [total_trades] is the length of the log, the winning and the
    losing trades together are no more than it, [total_pnl] is the capital
    gained since the start, [final_capital] is the current capital, every
    logged net P&L lies between [largest_loss] and [largest_win], and with a
    nonzero starting capital [total_return] is [total_pnl] over the
    starting capital. *)
Theorem metrics_agree_with_engine (cfg : Config) (pd : gmap asset (list row))
    (b0 b : Backtester) :
  Backtester_init cfg pd = Ok b0 ->
  reachable b0 b ->
  trades b <> [] ->
  exists m,
    _calculate_metrics b = Some m /\
    res_metrics (get_results b) = Some m /\
    total_trades m = length (trades b) /\
    (winning_trades m + losing_trades m <= total_trades m)%nat /\
    total_pnl m == current_capital b - starting_capital_cfg cfg /\
    final_capital m = current_capital b /\
    (forall tr, tr ∈ trades b ->
       largest_loss m <= pnl_of tr /\ pnl_of tr <= largest_win m) /\
    (~ starting_capital_cfg cfg == 0 ->
     exists r, total_return m = Some r /\
               r == total_pnl m / starting_capital_cfg cfg).
Proof.
  intros Hinit Hr Hne.
  pose proof (reachable_all_closed _ _ _ _ Hinit Hr) as Hall.
  destruct (net_pnls_to_dict _ Hall) as [_ Hpl].
  pose proof (Backtester_init_inv _ _ _ Hinit) as [Hc0 Hp0].
  destruct (reachable_inv _ _ Hr Hc0 Hp0) as [Hcap _].
  destruct (reachable_same_setup_but_equity _ _ Hr) as (_ & _ & Hs & _).
  pose proof (Backtester_init_state _ _ _ Hinit) as (_ & _ & Hs0 & _).
  unfold capital_inv in Hcap. rewrite Hs, Hs0 in Hcap.
  unfold get_results, _calculate_metrics.
  destruct (trades b) as [|tr ts] eqn:Et; [contradiction|].
  rewrite Hpl. simpl map.
  set (p := pnl_of tr). set (ps := map pnl_of ts).
  eexists. split; [reflexivity|]. split; [reflexivity|]. simpl.
  split; [unfold ps; rewrite length_map; reflexivity|].
  split; [apply (count_pos_neg (p :: ps))|].
  split.
  - rewrite Hcap. change (fold_left Qplus ps (0 + p)) with (py_sum (p :: ps)).
    rewrite py_sum_Qsum. simpl. fold p ps. ring.
  - split; [reflexivity|]. split.
    + intros tr0 Hin.
      assert (Hq : pnl_of tr0 = p \/ pnl_of tr0 ∈ ps).
      { apply elem_of_cons in Hin as [->|Hin]; [left; reflexivity|].
        right. apply list_elem_of_fmap. exists tr0. split; [reflexivity|exact Hin]. }
      destruct (py_max_ge ps p) as [Hx Hxs]. destruct (py_min_le ps p) as [Hn Hns].
      destruct Hq as [->|Hq]; split; auto.
    + intro Hnz. unfold np_div. rewrite Hs, Hs0.
      apply Qeq_bool_false in Hnz as Hb. rewrite Hb.
      eexists. split; [reflexivity|].
      change (fold_left Qplus ps (0 + p)) with (py_sum (p :: ps)).
      rewrite py_sum_Qsum, Hcap. simpl. fold p ps.
      apply Qmult_inj_r with (z := starting_capital_cfg cfg); [exact Hnz|].
      field. exact Hnz.
Qed.

End LogAndMetrics.

Lemma profit_factor_of_run_defined_witness :
  exists pf, _calculate_profit_factor (trades_list bt_ex) = Ok pf /\ 0 <= pf.
Proof.
  assert (H0 : Backtester_init cfg_fee pd_ex = Ok bt_ex0)
    by (vm_compute; reflexivity).
  assert (H1 : @run_dates numlib_stub bt_ex0 (dates bt_ex0) = Ok bt_ex)
    by (vm_compute; reflexivity).
  pose proof (@run_dates_reachable numlib_stub _ _ _ H1) as Hr.
  destruct (@profit_factor_of_run_defined numlib_stub cfg_fee pd_ex bt_ex0 bt_ex
              H0 Hr) as [_ Hpf].
  exact Hpf.
Defined.

Lemma metrics_agree_with_engine_witness :
  exists m,
    _calculate_metrics bt_ex = Some m /\
    total_trades m = 1%nat /\
    total_pnl m == 2007 /\
    final_capital m == 102007.
Proof.
  assert (H0 : Backtester_init cfg_fee pd_ex = Ok bt_ex0)
    by (vm_compute; reflexivity).
  assert (H1 : @run_dates numlib_stub bt_ex0 (dates bt_ex0) = Ok bt_ex)
    by (vm_compute; reflexivity).
  pose proof (@run_dates_reachable numlib_stub _ _ _ H1) as Hr.
  destruct (@metrics_agree_with_engine numlib_stub cfg_fee pd_ex bt_ex0 bt_ex
              H0 Hr) as (m & Hm & _ & Ht & _ & Hp & Hf & _).
  - vm_compute. discriminate.
  - exists m. split; [exact Hm|].
    split; [rewrite Ht; vm_compute; reflexivity|].
    split; [rewrite Hp|rewrite Hf]; vm_compute; reflexivity.
Defined.

(** ** The analyzer: streaks *)

Lemma leading_le_longest (hit : Q -> bool) (l : list Q) :
  (leading_hits hit l <= longest_hits hit l)%nat.
Proof.
  destruct l as [|x l]; simpl; lia.
Qed.

Lemma consecutive_fold (hit : Q -> bool) (l : list Q) (mx cur : nat) :
  (cur <= mx)%nat ->
  fst (fold_left (consecutive_step hit) l (mx, cur)) =
  Nat.max mx (Nat.max (cur + leading_hits hit l) (longest_hits hit l)).
Proof.
  revert mx cur. induction l as [|x l IH]; intros mx cur Hle.
  - simpl. lia.
  - cbn [fold_left]. unfold consecutive_step at 2. cbn [fst snd].
    destruct (hit x) eqn:Ex.
    + rewrite IH by lia. cbn [leading_hits longest_hits]. rewrite Ex. lia.
    + rewrite IH by lia. cbn [leading_hits longest_hits]. rewrite Ex.
      pose proof (leading_le_longest hit l). lia.
Qed.

Lemma consecutive_longest (hit : Q -> bool) (l : list Q) :
  fst (fold_left (consecutive_step hit) l (0%nat, 0%nat)) = longest_hits hit l.
Proof.
  rewrite consecutive_fold by lia. pose proof (leading_le_longest hit l). lia.
Qed.

Lemma leading_hits_block (hit : Q -> bool) (l : list Q) :
  hits_block hit l 0 (leading_hits hit l).
Proof.
  induction l as [|x l IH]; intros j Hj; simpl in *; [lia|].
  destruct (hit x) eqn:Ex; [|lia].
  destruct j as [|j]; [exists x; split; [reflexivity|exact Ex]|].
  destruct (IH j) as (p & Hp & Hh); [lia|]. exists p. split; assumption.
Qed.

Lemma block_le_leading (hit : Q -> bool) (l : list Q) (n : nat) :
  hits_block hit l 0 n -> (n <= leading_hits hit l)%nat.
Proof.
  revert n. induction l as [|x l IH]; intros n Hb.
  - destruct n as [|n]; [simpl; lia|].
    destruct (Hb 0%nat) as (p & Hp & _); [lia|]. discriminate.
  - destruct n as [|n]; [lia|]. simpl.
    destruct (Hb 0%nat) as (p & Hp & Hh); [lia|]. simpl in Hp.
    inversion Hp; subst p. rewrite Hh.
    apply le_n_S. apply IH. intros j Hj.
    destruct (Hb (S j)) as (q & Hq & Hhq); [lia|]. exists q. split; assumption.
Qed.

Lemma longest_hits_spec (hit : Q -> bool) (l : list Q) :
  (exists i, hits_block hit l i (longest_hits hit l)) /\
  (forall i n, hits_block hit l i n -> (n <= longest_hits hit l)%nat).
Proof.
  induction l as [|x l [[i Hi] Hmax]].
  - split.
    + exists 0%nat. intros j Hj. simpl in Hj. lia.
    + intros i n Hb. destruct n as [|n]; [lia|].
      destruct (Hb 0%nat) as (p & Hp & _); [lia|].
      rewrite lookup_nil in Hp. discriminate.
  - split.
    + cbn [longest_hits].
      destruct (Nat.max_spec (leading_hits hit (x :: l)) (longest_hits hit l))
        as [[_ ->]|[_ ->]].
      * exists (S i). intros j Hj. destruct (Hi j Hj) as (p & Hp & Hh).
        exists p. split; assumption.
      * exists 0%nat. apply leading_hits_block.
    + intros [|k] n Hb.
      * apply block_le_leading in Hb. cbn [longest_hits]. lia.
      * cbn [longest_hits]. specialize (Hmax k n).
        assert (Hle : (n <= longest_hits hit l)%nat); [|lia].
        apply Hmax. intros j Hj. destruct (Hb j Hj) as (p & Hp & Hh).
        exists p. split; assumption.
Qed.

(** X21: [_calculate_consecutive_wins] is the length of the longest block
    of consecutive trades with a positive net P&L: the list has such a
    block of that length, and none longer; a net P&L of 0 ends a block. *)
Theorem consecutive_wins_longest_block (pnls : list Q) :
  (exists i, forall j, (j < _calculate_consecutive_wins pnls)%nat ->
     exists p, pnls !! (i + j)%nat = Some p /\ 0 < p) /\
  (forall i n,
     (forall j, (j < n)%nat -> exists p, pnls !! (i + j)%nat = Some p /\ 0 < p) ->
     (n <= _calculate_consecutive_wins pnls)%nat).
Proof.
  unfold _calculate_consecutive_wins. rewrite consecutive_longest.
  destruct (longest_hits_spec (fun p => Qltb 0 p) pnls) as [[i Hi] Hmax].
  split.
  - exists i. intros j Hj. destruct (Hi j Hj) as (p & Hp & Hh).
    exists p. split; [exact Hp|apply Qltb_lt, Hh].
  - intros i0 n Hb. apply (Hmax i0 n). intros j Hj.
    destruct (Hb j Hj) as (p & Hp & Hh). exists p. split; [exact Hp|].
    apply Qltb_lt. exact Hh.
Qed.

Example consecutive_wins_example :
  _calculate_consecutive_wins [5; 3; -1; 2; 0; 4; 1; 7; -2] = 3%nat /\
  _calculate_consecutive_losses [5; 3; -1; -2; 0; -4; 1] = 2%nat.
Proof. split; reflexivity. Qed.

Lemma Qltb_opp (p : Q) : Qltb 0 (- p) = Qltb p 0.
Proof.
  destruct (Qltb p 0) eqn:E.
  - apply Qltb_lt. apply Qltb_lt in E.
    setoid_replace 0 with (- 0) using relation Qeq by ring.
    apply Qopp_lt_compat. exact E.
  - apply Qltb_ge. apply Qltb_ge in E.
    setoid_replace 0 with (- 0) using relation Qeq by ring.
    apply Qopp_le_compat. exact E.
Qed.

Lemma Qltb_opp_l (p : Q) : Qltb (- p) 0 = Qltb 0 p.
Proof.
  destruct (Qltb 0 p) eqn:E.
  - apply Qltb_lt. apply Qltb_lt in E.
    setoid_replace 0 with (- 0) using relation Qeq by ring.
    apply Qopp_lt_compat. exact E.
  - apply Qltb_ge. apply Qltb_ge in E.
    setoid_replace 0 with (- 0) using relation Qeq by ring.
    apply Qopp_le_compat. exact E.
Qed.

(** X22: the losing streak of a log is the winning streak of the log with
    every net P&L negated, and the other way round. *)
Theorem consecutive_losses_mirror (pnls : list Q) :
  _calculate_consecutive_losses pnls = _calculate_consecutive_wins (map Qopp pnls) /\
  _calculate_consecutive_wins pnls = _calculate_consecutive_losses (map Qopp pnls).
Proof.
  unfold _calculate_consecutive_losses, _calculate_consecutive_wins.
  rewrite !consecutive_longest.
  assert (Hgen : forall hit hit' : Q -> bool,
            (forall p, hit' (- p) = hit p) ->
            forall l, leading_hits hit l = leading_hits hit' (map Qopp l) /\
                      longest_hits hit l = longest_hits hit' (map Qopp l)).
  { intros hit hit' Hh. induction l as [|x l [IH1 IH2]]; [split; reflexivity|].
    assert (Hlead : leading_hits hit (x :: l) = leading_hits hit' (map Qopp (x :: l))).
    { simpl. rewrite Hh, IH1. reflexivity. }
    split; [exact Hlead|].
    change (longest_hits hit (x :: l))
      with (Nat.max (leading_hits hit (x :: l)) (longest_hits hit l)).
    change (longest_hits hit' (map Qopp (x :: l)))
      with (Nat.max (leading_hits hit' (map Qopp (x :: l)))
                    (longest_hits hit' (map Qopp l))).
    rewrite Hlead, IH2. reflexivity. }
  split.
  - apply (Hgen (fun p => Qltb p 0) (fun p => Qltb 0 p)).
    intro p. apply Qltb_opp.
  - apply (Hgen (fun p => Qltb 0 p) (fun p => Qltb p 0)).
    intro p. apply Qltb_opp_l.
Qed.

(** ** The analyzer: trade metrics *)

Lemma leading_le_count (hit : Q -> bool) (l : list Q) :
  (leading_hits hit l <= length (List.filter hit l))%nat.
Proof.
  induction l as [|x l IH]; simpl; [lia|].
  destruct (hit x); simpl; lia.
Qed.

Lemma longest_le_count (hit : Q -> bool) (l : list Q) :
  (longest_hits hit l <= length (List.filter hit l))%nat.
Proof.
  induction l as [|x l IH]; [simpl; lia|].
  pose proof (leading_le_count hit (x :: l)) as Hlead.
  cbn [longest_hits]. simpl in *. destruct (hit x); simpl in *; lia.
Qed.

Lemma filter_nil_none (hit : Q -> bool) (l : list Q) :
  List.filter hit l = [] -> forall x, x ∈ l -> hit x = false.
Proof.
  induction l as [|y l IH]; intros Hf x Hx; [inversion Hx|].
  simpl in Hf. destruct (hit y) eqn:Ey; [discriminate|].
  apply elem_of_cons in Hx as [->|Hx]; [exact Ey|apply IH; assumption].
Qed.

Lemma filter_cons_some (hit : Q -> bool) (l : list Q) (y : Q) (ys : list Q) :
  List.filter hit l = y :: ys -> y ∈ l /\ hit y = true.
Proof.
  intro Hf. assert (Hin : In y (List.filter hit l)) by (rewrite Hf; left; reflexivity).
  apply filter_In in Hin as [Hin Hy]. split; [apply list_elem_of_In, Hin|exact Hy].
Qed.

Lemma Q_of_nat_le (a b : nat) : (a <= b)%nat -> Q_of_nat a <= Q_of_nat b.
Proof.
  intro Hle. unfold Q_of_nat. rewrite <- Zle_Qle. lia.
Qed.

Lemma Q_of_nat_pos (a : nat) : (0 < a)%nat -> 0 < Q_of_nat a.
Proof.
  intro Hlt. unfold Q_of_nat.
  change 0 with (inject_Z 0). rewrite <- Zlt_Qlt. lia.
Qed.

Lemma Q_of_nat_plus (a b : nat) : Q_of_nat (a + b) == Q_of_nat a + Q_of_nat b.
Proof.
  unfold Q_of_nat. rewrite Nat2Z.inj_add, inject_Z_plus. reflexivity.
Qed.

(** X23: on a log with at least one net P&L, [_calculate_trade_metrics]
    counts the trades whose net P&L is set (the others are left out); the
    winning and losing trades are no more than that count, so the win rate
    and the loss rate are fractions that sum to at most 1; every counted
    net P&L lies between [largest_loss], which is at most 0, and
    [largest_win], which is at least 0 and is positive exactly when some
    trade won; and no streak is longer than the number of trades of its
    kind. *)
Theorem trade_metrics_bounds (ts : list trade_dict) (p : Q) (ps : list Q) :
  dict_pnl_list ts = p :: ps ->
  exists m,
    _calculate_trade_metrics ts = TradeMetrics m /\
    tm_total_trades m = S (length ps) /\
    (tm_winning_trades m + tm_losing_trades m <= tm_total_trades m)%nat /\
    0 <= tm_win_rate m /\ 0 <= tm_loss_rate m /\
    tm_win_rate m + tm_loss_rate m <= 1 /\
    tm_largest_loss m <= 0 /\ 0 <= tm_largest_win m /\
    (forall q, q ∈ p :: ps -> tm_largest_loss m <= q /\ q <= tm_largest_win m) /\
    (0 < tm_largest_win m <-> (0 < tm_winning_trades m)%nat) /\
    (tm_consecutive_wins m <= tm_winning_trades m)%nat /\
    (tm_consecutive_losses m <= tm_losing_trades m)%nat.
Proof.
  intro Hl. unfold _calculate_trade_metrics. rewrite Hl.
  set (pnls := p :: ps).
  set (winning := List.filter (fun q => Qltb 0 q) pnls).
  set (losing := List.filter (fun q => Qltb q 0) pnls).
  eexists. split; [reflexivity|]. cbn [tm_total_trades tm_winning_trades
    tm_losing_trades tm_win_rate tm_loss_rate tm_largest_win tm_largest_loss
    tm_consecutive_wins tm_consecutive_losses].
  pose proof (count_pos_neg pnls) as Hcount. fold winning losing in Hcount.
  assert (Hn : 0 < Q_of_nat (length pnls)) by (apply Q_of_nat_pos; simpl; lia).
  destruct (py_max_ge ps p) as [Hx Hxs]. destruct (py_min_le ps p) as [Hm Hms].
  assert (Hmax : forall q, q ∈ pnls -> q <= py_max p ps).
  { intros q Hq. apply elem_of_cons in Hq as [->|Hq]; [exact Hx|apply Hxs, Hq]. }
  assert (Hmin : forall q, q ∈ pnls -> py_min p ps <= q).
  { intros q Hq. apply elem_of_cons in Hq as [->|Hq]; [exact Hm|apply Hms, Hq]. }
  split; [reflexivity|]. split; [exact Hcount|].
  split; [apply Qdiv_nonneg; [apply (Q_of_nat_le 0); lia|exact Hn]|].
  split; [apply Qdiv_nonneg; [apply (Q_of_nat_le 0); lia|exact Hn]|].
  split.
  { setoid_replace (Q_of_nat (length winning) / Q_of_nat (length pnls) +
                    Q_of_nat (length losing) / Q_of_nat (length pnls))
      with (Q_of_nat (length winning + length losing) / Q_of_nat (length pnls))
      using relation Qeq
      by (rewrite Q_of_nat_plus; field; apply Qpos_nonzero, Hn).
    apply Qle_shift_div_r; [exact Hn|].
    setoid_replace (1 * Q_of_nat (length pnls)) with (Q_of_nat (length pnls))
      using relation Qeq by ring.
    apply Q_of_nat_le. exact Hcount. }
  assert (Hloss : (match losing with [] => 0 | _ :: _ => py_min p ps end) <= 0 /\
                  forall q, q ∈ pnls ->
                    (match losing with [] => 0 | _ :: _ => py_min p ps end) <= q).
  { destruct losing as [|y ys] eqn:El.
    - split; [apply Qle_refl|]. intros q Hq.
      apply Qltb_ge. apply (filter_nil_none _ _ El q Hq).
    - apply filter_cons_some in El as [Hy Hyneg]. apply Qltb_lt in Hyneg.
      split; [|exact Hmin].
      apply Qlt_le_weak. eapply Qle_lt_trans; [apply (Hmin y Hy)|exact Hyneg]. }
  assert (Hwin : 0 <= (match winning with [] => 0 | _ :: _ => py_max p ps end) /\
                 (forall q, q ∈ pnls ->
                    q <= (match winning with [] => 0 | _ :: _ => py_max p ps end)) /\
                 (0 < (match winning with [] => 0 | _ :: _ => py_max p ps end) <->
                  (0 < length winning)%nat)).
  { destruct winning as [|y ys] eqn:Ew.
    - split; [apply Qle_refl|]. split.
      + intros q Hq. apply Qltb_ge. apply (filter_nil_none _ _ Ew q Hq).
      + simpl. split; [intro Hlt; exfalso; exact (Qlt_irrefl 0 Hlt)|lia].
    - apply filter_cons_some in Ew as [Hy Hypos]. apply Qltb_lt in Hypos.
      assert (Hpos : 0 < py_max p ps)
        by (eapply Qlt_le_trans; [exact Hypos|apply (Hmax y Hy)]).
      split; [apply Qlt_le_weak, Hpos|]. split; [exact Hmax|].
      simpl. split; [intros _; lia|intros _; exact Hpos]. }
  destruct Hloss as [Hl0 Hlall]. destruct Hwin as (Hw0 & Hwall & Hwiff).
  split; [exact Hl0|]. split; [exact Hw0|].
  split; [intros q Hq; split; [apply Hlall, Hq|apply Hwall, Hq]|].
  split; [exact Hwiff|].
  unfold _calculate_consecutive_wins, _calculate_consecutive_losses.
  rewrite !consecutive_longest. split; apply longest_le_count.
Qed.

Lemma trade_metrics_bounds_witness :
  exists m,
    _calculate_trade_metrics
      [dict_of_pnl 30; dict_of_pnl (-10); dict_of_pnl 5] = TradeMetrics m /\
    tm_total_trades m = 3%nat /\
    tm_win_rate m + tm_loss_rate m <= 1.
Proof.
  destruct (trade_metrics_bounds
              [dict_of_pnl 30; dict_of_pnl (-10); dict_of_pnl 5] 30 [-10; 5])
    as (m & Hm & Ht & _ & _ & _ & Hr & _); [reflexivity|].
  exists m. split; [exact Hm|]. split; [exact Ht|exact Hr].
Defined.

Lemma length_omap_le {A B : Type} (f : A -> option B) (l : list A) :
  (length (omap f l) <= length l)%nat.
Proof.
  induction l as [|x l IH]; csimpl; [lia|].
  destruct (f x); csimpl; lia.
Qed.

Lemma net_pnls_missing (ts : list trade_dict) (t : trade_dict) :
  t ∈ ts -> td_net_pnl t = None -> net_pnls ts = Err TypeError.
Proof.
  intros Hin Hnone. induction ts as [|u ts IH]; [inversion Hin|].
  simpl. destruct (td_net_pnl u) as [q|] eqn:Eu; simpl; [|reflexivity].
  apply elem_of_cons in Hin as [->|Hin]; [congruence|].
  rewrite (IH Hin). reflexivity.
Qed.

(** X24: a trade whose net P&L is not set, such as the dict of a trade that
    is still open, makes [_calculate_profit_factor] raise TypeError, while
    [_calculate_trade_metrics] leaves that trade out of its counts. *)
Theorem unset_net_pnl (ts : list trade_dict) (t : trade_dict) :
  t ∈ ts ->
  td_net_pnl t = None ->
  _calculate_profit_factor ts = Err TypeError /\
  (length (dict_pnl_list ts) < length ts)%nat /\
  match _calculate_trade_metrics ts with
  | NoTrades => dict_pnl_list ts = []
  | TradeMetrics m => tm_total_trades m = length (dict_pnl_list ts)
  end.
Proof.
  intros Hin Hnone. split; [|split].
  - unfold _calculate_profit_factor. rewrite (net_pnls_missing _ _ Hin Hnone).
    reflexivity.
  - unfold dict_pnl_list. clear -Hin Hnone.
    induction ts as [|u ts IH]; [inversion Hin|]. csimpl.
    pose proof (length_omap_le td_net_pnl ts) as Hle.
    apply elem_of_cons in Hin as [<-|Hin].
    + rewrite Hnone. csimpl. lia.
    + specialize (IH Hin). destruct (td_net_pnl u); csimpl; lia.
  - unfold _calculate_trade_metrics. destruct (dict_pnl_list ts); reflexivity.
Qed.

Lemma unset_net_pnl_witness :
  _calculate_profit_factor
    [dict_of_pnl 30; to_dict (Trade_init 0 ("A", "B")%string LONG 1 100 1000 2)] =
  Err TypeError.
Proof.
  eapply (unset_net_pnl _ (to_dict (Trade_init 0 ("A", "B")%string LONG 1 100 1000 2))).
  - right. left.
  - reflexivity.
Defined.

(** ** The analyzer: drawdown *)

Lemma py_min_in (l : list Q) (x : Q) : py_min x l = x \/ py_min x l ∈ l.
Proof.
  unfold py_min. revert x. induction l as [|z l IH]; intro x; simpl.
  - left. reflexivity.
  - destruct (Qltb z x).
    + destruct (IH z) as [->|Hin]; right; [left|right; exact Hin].
    + destruct (IH x) as [->|Hin]; [left; reflexivity|right; right; exact Hin].
Qed.

Lemma py_min_zero_iff (l : list Q) (x : Q) :
  x <= 0 -> Forall (fun d => d <= 0) l ->
  (py_min x l == 0 <-> x == 0 /\ Forall (fun d => d == 0) l).
Proof.
  intros Hx Hl. destruct (py_min_le l x) as [Hmx Hml]. split.
  - intro Hz. split.
    + apply Qle_antisym; [exact Hx|]. rewrite <- Hz. exact Hmx.
    + rewrite Forall_forall in *. intros d Hd.
      apply Qle_antisym; [apply Hl, Hd|]. rewrite <- Hz. apply Hml, Hd.
  - intros [Hx0 Hall]. destruct (py_min_in l x) as [->|Hin]; [exact Hx0|].
    rewrite Forall_forall in Hall. apply Hall, Hin.
Qed.

Lemma drawdown_item (m c : Q) :
  0 < m -> 0 < c ->
  0 < Qmax m c /\
  np_div (c - Qmax m c) (Qmax m c) = Some ((c - Qmax m c) / Qmax m c) /\
  - (1) < (c - Qmax m c) / Qmax m c /\
  (c - Qmax m c) / Qmax m c <= 0 /\
  ((c - Qmax m c) / Qmax m c == 0 <-> m <= c).
Proof.
  intros Hm Hc.
  assert (HM : 0 < Qmax m c) by (eapply Qlt_le_trans; [exact Hm|apply Q.le_max_l]).
  pose proof (Qpos_nonzero _ HM) as Hne.
  pose proof (Q.le_max_r m c) as HcM.
  split; [exact HM|]. split.
  { unfold np_div. apply Qeq_bool_false in Hne. rewrite Hne. reflexivity. }
  split.
  { apply Qlt_shift_div_l; [exact HM|].
    apply Qplus_lt_l with (z := Qmax m c).
    setoid_replace (- (1) * Qmax m c + Qmax m c) with 0 using relation Qeq by ring.
    setoid_replace (c - Qmax m c + Qmax m c) with c using relation Qeq by ring.
    exact Hc. }
  split.
  { apply Qle_shift_div_r; [exact HM|].
    apply Qplus_le_l with (z := Qmax m c).
    setoid_replace (c - Qmax m c + Qmax m c) with c using relation Qeq by ring.
    setoid_replace (0 * Qmax m c + Qmax m c) with (Qmax m c) using relation Qeq by ring.
    exact HcM. }
  split.
  - intro Hz.
    assert (Hc' : c == Qmax m c).
    { setoid_replace c with ((c - Qmax m c) / Qmax m c * Qmax m c + Qmax m c)
        using relation Qeq at 1 by (field; exact Hne).
      rewrite Hz. ring. }
    rewrite Hc'. apply Q.le_max_l.
  - intro Hle. apply Q.max_r in Hle.
    setoid_replace (c - Qmax m c) with 0 using relation Qeq by (rewrite Hle; ring).
    unfold Qdiv. ring.
Qed.

Lemma Sorted_Qle_head (x y : Q) (l : list Q) :
  x == y -> Sorted Qle (x :: l) -> Sorted Qle (y :: l).
Proof.
  intros Hxy Hs. inversion Hs as [|? ? Hs' Hhd]; subst.
  constructor; [exact Hs'|].
  destruct l as [|z l]; constructor. inversion Hhd; subst.
  rewrite <- Hxy. assumption.
Qed.

Lemma drawdowns_from (l : list Q) (m : Q) :
  0 < m -> Forall (fun c => 0 < c) l ->
  exists ds,
    all_finite (zip_with (fun c m0 => np_div (c - m0) m0) l (accumulate_max m l)) =
      Some ds /\
    Forall (fun d => - (1) < d /\ d <= 0) ds /\
    (Forall (fun d => d == 0) ds <-> Sorted Qle (m :: l)).
Proof.
  revert m. induction l as [|c l IH]; intros m Hm Hl.
  - exists []. split; [reflexivity|]. split; [constructor|].
    split; intros _; repeat constructor.
  - apply Forall_cons in Hl as [Hc Hl].
    destruct (drawdown_item m c Hm Hc) as (HM & Hdiv & Hlo & Hhi & Hz).
    destruct (IH (Qmax m c) HM Hl) as (ds & Hds & Hb & Hs).
    exists ((c - Qmax m c) / Qmax m c :: ds).
    cbn [accumulate_max zip_with all_finite]. rewrite Hdiv, Hds.
    split; [reflexivity|]. split; [constructor; [split; assumption|exact Hb]|].
    rewrite Forall_cons, Hz, Hs. split.
    + intros [Hle Hsorted]. constructor; [|constructor; exact Hle].
      eapply Sorted_Qle_head; [|exact Hsorted]. apply Q.max_r. exact Hle.
    + intro Hsorted. inversion Hsorted as [|? ? Hs' Hhd]; subst.
      inversion Hhd; subst. split; [assumption|].
      eapply Sorted_Qle_head; [|exact Hs']. symmetry. apply Q.max_r. assumption.
Qed.

(** X25: on an equity curve whose capital is positive throughout,
    [_calculate_risk_metrics] returns a maximum drawdown that is a fraction
    in (-1, 0] and a drawdown percentage, its magnitude times 100, in
    [0, 100); the drawdown is 0 exactly when the capital never decreases
    from one sample to the next. *)
Theorem max_drawdown_bounds `{NumLib} `{SqrtLib} (s : equity_sample)
    (ss : list equity_sample) :
  Forall (fun x => 0 < sample_capital x) (s :: ss) ->
  exists m dd pct,
    _calculate_risk_metrics (Some (s :: ss)) = Some m /\
    max_drawdown m = Some dd /\
    max_drawdown_pct m = Some pct /\
    - (1) < dd /\ dd <= 0 /\
    pct == - dd * 100 /\ 0 <= pct /\ pct < 100 /\
    (dd == 0 <-> Sorted Qle (map sample_capital (s :: ss))).
Proof.
  intro Hpos. apply Forall_cons in Hpos as [Hs Hss].
  assert (Hcs : Forall (fun c => 0 < c) (map sample_capital ss))
    by (apply Forall_fmap; exact Hss).
  destruct (drawdowns_from _ _ Hs Hcs) as (ds & Hds & Hb & Hsorted).
  pose proof (Qpos_nonzero _ Hs) as Hne.
  set (d0 := (sample_capital s - sample_capital s) / sample_capital s).
  assert (Hd0 : d0 == 0).
  { unfold d0, Qdiv.
    setoid_replace (sample_capital s - sample_capital s) with 0
      using relation Qeq by ring.
    ring. }
  assert (Hmin : np_min (drawdowns (map sample_capital (s :: ss))) =
                 Some (py_min d0 ds)).
  { unfold np_min, drawdowns. cbn [map running_max zip_with all_finite].
    unfold np_div at 1. apply Qeq_bool_false in Hne. rewrite Hne.
    rewrite Hds. reflexivity. }
  assert (Hrange : - (1) < py_min d0 ds /\ py_min d0 ds <= 0).
  { destruct (py_min_in ds d0) as [->|Hin].
    - rewrite Hd0. split; [reflexivity|discriminate].
    - rewrite Forall_forall in Hb. apply Hb, Hin. }
  destruct Hrange as [Hlo Hhi].
  eexists. exists (py_min d0 ds). eexists.
  split; [unfold _calculate_risk_metrics; rewrite Hmin; reflexivity|].
  cbn [max_drawdown max_drawdown_pct option_map].
  split; [reflexivity|]. split; [reflexivity|].
  split; [exact Hlo|]. split; [exact Hhi|].
  assert (Habs : Qabs (py_min d0 ds) == - py_min d0 ds)
    by (apply Qabs_neg; exact Hhi).
  split; [rewrite Habs; reflexivity|]. split; [|split].
  - rewrite Habs.
    setoid_replace 0 with (0 * 100) using relation Qeq by ring.
    apply Qmult_le_compat_r; [|discriminate].
    setoid_replace 0 with (- 0) using relation Qeq by ring.
    apply Qopp_le_compat. exact Hhi.
  - rewrite Habs.
    setoid_replace 100 with (1 * 100) using relation Qeq at 2 by ring.
    apply Qmult_lt_r; [reflexivity|].
    apply Qopp_lt_compat in Hlo. rewrite Qopp_involutive in Hlo. exact Hlo.
  - rewrite py_min_zero_iff.
    + rewrite Hsorted. cbn [map]. split; [intros [_ Hx]; exact Hx|].
      intro Hx. split; [exact Hd0|exact Hx].
    + rewrite Hd0. discriminate.
    + eapply Forall_impl; [exact Hb|]. intros d [_ Hd]. exact Hd.
Qed.

Lemma max_drawdown_bounds_witness :
  exists m dd pct,
    @_calculate_risk_metrics numlib_stub sqrtlib_stub
      (Some [mkSample 1 100; mkSample 2 120; mkSample 3 90; mkSample 4 130]) =
      Some m /\
    max_drawdown m = Some dd /\ max_drawdown_pct m = Some pct /\
    dd == - (1 # 4) /\ pct == 25.
Proof.
  destruct (@max_drawdown_bounds numlib_stub sqrtlib_stub (mkSample 1 100)
              [mkSample 2 120; mkSample 3 90; mkSample 4 130])
    as (m & dd & pct & Hm & Hdd & Hpct & _).
  - repeat constructor.
  - exists m, dd, pct. split; [exact Hm|]. split; [exact Hdd|].
    split; [exact Hpct|].
    vm_compute in Hm. inversion Hm; subst m; clear Hm.
    simpl in Hdd, Hpct. inversion Hdd; subst dd. inversion Hpct; subst pct.
    split; reflexivity.
Defined.

(** ** The backtester: histories of unequal length *)

Lemma getitem_err {K : Type} `{Countable K} {V : Type} (m : gmap K V) (k : K)
    (e : exn) :
  getitem m k = Err e -> e = KeyError.
Proof.
  unfold getitem. destruct (m !! k); intro E; inversion E. reflexivity.
Qed.

Lemma not_none_err {A : Type} (o : option A) (e : exn) :
  not_none o = Err e -> e = TypeError.
Proof.
  destruct o; intro E; inversion E. reflexivity.
Qed.

Section UnequalHistory.
Context `{NumLib}.

Lemma _process_pair_linalg (b : Backtester) (p1 p2 : asset) (d : Z)
    (cur : gmap asset Q) (df1 df2 : list row) :
  price_data b !! p1 = Some df1 ->
  price_data b !! p2 = Some df2 ->
  (252 <= length (closes_upto df1 d))%nat ->
  (252 <= length (closes_upto df2 d))%nat ->
  (_process_pair b p1 p2 d cur = Err LinAlgError <->
   test_cointegration (min_pvalue (config b)) (closes_upto df1 d)
                      (closes_upto df2 d) 252 = Err LinAlgError).
Proof.
  intros H1 H2 Hn1 Hn2. unfold _process_pair.
  apply getitem_ok in H1, H2. rewrite H1, H2. simpl.
  assert (Hg : Nat.ltb (length (closes_upto df1 d)) 252 ||
               Nat.ltb (length (closes_upto df2 d)) 252 = false).
  { apply orb_false_iff. split; apply Nat.ltb_ge; assumption. }
  rewrite Hg.
  destruct (test_cointegration _ _ _ _) as [cr|e]; simpl;
    [|split; intro E; inversion E; reflexivity].
  split; [|discriminate]. intro E. exfalso.
  destruct (negb (cointegrated cr)); [discriminate|].
  destruct (getitem cur p1) as [c1|e1] eqn:E1; simpl in E;
    [|apply getitem_err in E1; congruence].
  destruct (getitem cur p2) as [c2|e2] eqn:E2; simpl in E;
    [|apply getitem_err in E2; congruence].
  destruct (not_none (spread_mean cr)) as [m|e3] eqn:E3; simpl in E;
    [|apply not_none_err in E3; congruence].
  destruct (not_none (spread_std cr)) as [s|e4] eqn:E4; simpl in E;
    [|apply not_none_err in E4; congruence].
  match type of E with
  | execute_signal _ _ _ _ ?sg _ _ = _ =>
      destruct (execute_signal_total b p1 p2 d sg
                  (calculate_spread c1 c2 (cr_hedge_ratio cr))
                  (cr_hedge_ratio cr)) as [b' Hb']
  end. congruence.
Qed.

(** X26: [_process_pair] on a pair with price data raises LinAlgError
    exactly when the first asset has exactly 252 rows up to the date and
    the second has more: the test window is then the whole of both
    histories, of unequal length.  With more than 252 rows for the first
    asset both histories are cut to 252 and the regression runs. *)
Theorem process_pair_unequal_history (b : Backtester) (p1 p2 : asset) (d : Z)
    (cur : gmap asset Q) (df1 df2 : list row) :
  price_data b !! p1 = Some df1 ->
  price_data b !! p2 = Some df2 ->
  (_process_pair b p1 p2 d cur = Err LinAlgError <->
   length (closes_upto df1 d) = 252%nat /\
   (252 < length (closes_upto df2 d))%nat).
Proof.
  intros H1 H2.
  destruct (Nat.lt_ge_cases (length (closes_upto df1 d)) 252) as [Hs1|Hn1];
    [|destruct (Nat.lt_ge_cases (length (closes_upto df2 d)) 252) as [Hs2|Hn2]].
  - rewrite (_process_pair_short b p1 p2 d cur df1 df2 H1 H2) by (left; exact Hs1).
    split; [discriminate|lia].
  - rewrite (_process_pair_short b p1 p2 d cur df1 df2 H1 H2) by (right; exact Hs2).
    split; [discriminate|lia].
  - rewrite (_process_pair_linalg b p1 p2 d cur df1 df2 H1 H2 Hn1 Hn2).
    unfold test_cointegration. cbv zeta. unfold calculate_hedge_ratio.
    rewrite !(length_test_window 252) by lia.
    destruct (Nat.ltb 252 (length (closes_upto df1 d))) eqn:Elt.
    + apply Nat.ltb_lt in Elt.
      assert (Heq : Nat.eqb (Nat.min 252 (length (closes_upto df1 d)))
                            (Nat.min 252 (length (closes_upto df2 d))) = true)
        by (apply Nat.eqb_eq; lia).
      rewrite Heq. simpl.
      split; [destruct (adf_test _); discriminate|lia].
    + apply Nat.ltb_ge in Elt.
      destruct (Nat.eqb _ _) eqn:Elen; simpl.
      * apply Nat.eqb_eq in Elen.
        split; [destruct (adf_test _); discriminate|lia].
      * apply Nat.eqb_neq in Elen. split; [intros _; lia|reflexivity].
Qed.

End UnequalHistory.

(** Price data in which [A] has 252 rows and [B] has 253. *)
Lemma process_pair_unequal_history_witness :
  @_process_pair numlib_stub
    (mkBacktester cfg_free
       {[ "A"%string := map (fun i => mkRow (Z.of_nat i) 10) (seq 2 252);
          "B"%string := map (fun i => mkRow (Z.of_nat i) 10) (seq 1 253) ]}
       100000 100000 [] [] ∅ 0%nat [])
    "A"%string "B"%string 253 ∅ = Err LinAlgError.
Proof.
  eapply (@process_pair_unequal_history numlib_stub).
  - vm_compute. reflexivity.
  - vm_compute. reflexivity.
  - split; [reflexivity|vm_compute; lia].
Defined.
